(** * Calendar aggregation logic of the Closet app (calendar.tsx)

    A shallow embedding of the date helpers and the analytics helpers of the
    calendar screen: [toDateKey], [isSameDay], [getMonthGrid], the
    [outfitMap] index, [getMostWornThisMonth] and [getStreak], together
    with the part of the JavaScript run time they call ([Date], string
    formatting, object property order, [Array.prototype.sort]).

    Conventions of the embedding.
    - A JavaScript number that is an integer or NaN is an [option Z]
      ([None] is NaN).  A [Date] object is its time value, milliseconds
      since the epoch in UTC, again [None] for an Invalid Date.
    - The local time zone is a parameter [zone]: the offset of local time
      from UTC as a function of the instant, so that daylight-saving
      changes are part of the model; [fixedOffset tz] is a zone without
      them.
    - [new Date(string)] reads the two forms of the ECMAScript date-time
      format that the application writes; every other string is left to
      the engine, a parameter [legacy] of the parser.
    - A JavaScript string is a [string]; code units are 8-bit here.
    - An abrupt completion is [Throw]; [while] loops take fuel and answer
      [None] when it runs out. *)

From Stdlib Require Import ZArith Lia Bool List Ascii String.
From stdpp Require Import base option list sorting strings gmap.

Local Open Scope Z_scope.

(** ** Completion records *)

Inductive JSError : Type := RangeError | TypeError.

Inductive completion (A : Type) : Type :=
| Normal (v : A)
| Throw (e : JSError).
Arguments Normal {A} v.
Arguments Throw {A} e.

#[global] Instance JSError_eq_dec : EqDecision JSError.
Proof. solve_decision. Defined.

#[global] Instance completion_eq_dec {A} `{EqDecision A} : EqDecision (completion A).
Proof. solve_decision. Defined.

Definition cbind {A B} (c : completion A) (k : A -> completion B) : completion B :=
  match c with
  | Normal v => k v
  | Throw e => Throw e
  end.

(** ** The Date abstract operations of ECMA-262 (section "Time Values") *)

Module JSDate.

Definition msPerDay : Z := 86400000.
Definition maxTime : Z := 8640000000000000.

Definition Day (t : Z) : Z := t / msPerDay.
Definition TimeWithinDay (t : Z) : Z := t mod msPerDay.

Definition DaysInYear (y : Z) : Z :=
  if negb (y mod 4 =? 0) then 365
  else if negb (y mod 100 =? 0) then 366
  else if negb (y mod 400 =? 0) then 365
  else 366.

Definition DayFromYear (y : Z) : Z :=
  365 * (y - 1970) + (y - 1969) / 4 - (y - 1901) / 100 + (y - 1601) / 400.

Definition TimeFromYear (y : Z) : Z := msPerDay * DayFromYear y.

(** [YearFromTime t] is "the largest integer y such that
    TimeFromYear(y) <= t".  It is computed from the mean year length and
    one correction step; [YearFromDay_spec] shows that it is that year. *)
Definition YearFromDay (d : Z) : Z :=
  let y := 1970 + (400 * d) / 146097 in
  if DayFromYear (y + 1) <=? d then y + 1
  else if DayFromYear y <=? d then y
  else y - 1.

Definition YearFromTime (t : Z) : Z := YearFromDay (Day t).

Definition leapDays (y : Z) : Z := if DaysInYear y =? 366 then 1 else 0.

Definition InLeapYear (t : Z) : Z := leapDays (YearFromTime t).

Definition DayWithinYear (t : Z) : Z := Day t - DayFromYear (YearFromTime t).

(** Day number within the year at which month [m] (0..11) starts. *)
Definition monthStart (m leap : Z) : Z :=
  match m with
  | 0 => 0
  | 1 => 31
  | 2 => 59 + leap
  | 3 => 90 + leap
  | 4 => 120 + leap
  | 5 => 151 + leap
  | 6 => 181 + leap
  | 7 => 212 + leap
  | 8 => 243 + leap
  | 9 => 273 + leap
  | 10 => 304 + leap
  | 11 => 334 + leap
  | _ => 365 + leap
  end.

Definition monthOfDay (dwy leap : Z) : Z :=
  if dwy <? 31 then 0
  else if dwy <? 59 + leap then 1
  else if dwy <? 90 + leap then 2
  else if dwy <? 120 + leap then 3
  else if dwy <? 151 + leap then 4
  else if dwy <? 181 + leap then 5
  else if dwy <? 212 + leap then 6
  else if dwy <? 243 + leap then 7
  else if dwy <? 273 + leap then 8
  else if dwy <? 304 + leap then 9
  else if dwy <? 334 + leap then 10
  else 11.

Definition MonthFromTime (t : Z) : Z := monthOfDay (DayWithinYear t) (InLeapYear t).

Definition DateFromTime (t : Z) : Z :=
  DayWithinYear t - monthStart (MonthFromTime t) (InLeapYear t) + 1.

Definition WeekDay (t : Z) : Z := (Day t + 4) mod 7.

Definition HourFromTime (t : Z) : Z := (t / 3600000) mod 24.
Definition MinFromTime (t : Z) : Z := (t / 60000) mod 60.
Definition SecFromTime (t : Z) : Z := (t / 1000) mod 60.
Definition msFromTime (t : Z) : Z := t mod 1000.

Definition MakeTime (h m s ms : Z) : Z := h * 3600000 + m * 60000 + s * 1000 + ms.

(** MakeDay: the day number of the first of month [month mod 12] of year
    [year + floor(month / 12)], plus [date - 1]. *)
Definition MakeDay (year month date : Z) : Z :=
  let ym := year + month / 12 in
  let mn := month mod 12 in
  DayFromYear ym + monthStart mn (leapDays ym) + date - 1.

Definition MakeDate (day time : Z) : Z := day * msPerDay + time.

Definition TimeClip (t : Z) : option Z :=
  if Z.abs t <=? maxTime then Some t else None.

(** The time values a Date can hold. *)
Definition valid (t : Z) : Prop := Z.abs t <= maxTime.

End JSDate.

(** ** Numbers that may be NaN *)

Definition number : Type := option Z.

Definition num_sub (a : number) (b : Z) : number := fmap (M:=option) (fun x => x - b) a.

(** [a === b] on numbers: NaN is different from everything, itself included. *)
Definition num_strict_eq (a b : number) : bool :=
  match a, b with
  | Some x, Some y => x =? y
  | _, _ => false
  end.

(** ** Strings: digits, padding, [split], [join], code-unit comparison *)

Module JSString.

Definition digitChar (n : Z) : ascii :=
  if n =? 0 then "0"%char else if n =? 1 then "1"%char
  else if n =? 2 then "2"%char else if n =? 3 then "3"%char
  else if n =? 4 then "4"%char else if n =? 5 then "5"%char
  else if n =? 6 then "6"%char else if n =? 7 then "7"%char
  else if n =? 8 then "8"%char else "9"%char.

Definition digitVal (c : ascii) : option Z :=
  (if Ascii.eqb c "0" then Some 0 else if Ascii.eqb c "1" then Some 1
   else if Ascii.eqb c "2" then Some 2 else if Ascii.eqb c "3" then Some 3
   else if Ascii.eqb c "4" then Some 4 else if Ascii.eqb c "5" then Some 5
   else if Ascii.eqb c "6" then Some 6 else if Ascii.eqb c "7" then Some 7
   else if Ascii.eqb c "8" then Some 8 else if Ascii.eqb c "9" then Some 9
   else None)%char.

(** The [w] low decimal digits of [n], most significant first
    (zero padded on the left). *)
Fixpoint padDigits (w : nat) (n : Z) : string :=
  match w with
  | O => EmptyString
  | S w' => String (digitChar ((n / 10 ^ Z.of_nat w') mod 10)) (padDigits w' n)
  end.

(** [s.split(c)] for a one-character separator. *)
Fixpoint split (c : ascii) (s : string) : list string :=
  match s with
  | EmptyString => [EmptyString]
  | String a s' =>
      if Ascii.eqb a c then EmptyString :: split c s'
      else match split c s' with
           | h :: t => String a h :: t
           | [] => [String a EmptyString]
           end
  end.

(** Does the character [c] occur in [s]? *)
Fixpoint hasChar (c : ascii) (s : string) : bool :=
  match s with
  | EmptyString => false
  | String a s' => Ascii.eqb a c || hasChar c s'
  end.

(** [l.join(sep)] on an array of strings. *)
Fixpoint join (sep : string) (l : list string) : string :=
  match l with
  | [] => EmptyString
  | [x] => x
  | x :: l' => String.append x (String.append sep (join sep l'))
  end.

(** The default comparison of [Array.prototype.sort]: code-unit order. *)
Definition compareStrings (a b : string) : Z :=
  match String.compare a b with
  | Lt => -1
  | Eq => 0
  | Gt => 1
  end.

(** [a] is not after [b] in code-unit order. *)
Definition strLe (a b : string) : Prop := compareStrings a b <= 0.

(** Exactly [w] decimal digits at the front of [s]. *)
Fixpoint readDigits (w : nat) (acc : Z) (s : string) : option (Z * string) :=
  match w with
  | O => Some (acc, s)
  | S w' =>
      match s with
      | String c s' =>
          match digitVal c with
          | Some v => readDigits w' (10 * acc + v) s'
          | None => None
          end
      | EmptyString => None
      end
  end.

Definition expect (c : ascii) (s : string) : option string :=
  match s with
  | String a s' => if Ascii.eqb a c then Some s' else None
  | EmptyString => None
  end.

End JSString.

(** ** Arrays: [Array.prototype.sort] with a comparison function

    The sort is stable (ECMAScript 2019): an insertion sort that puts [x]
    in front of the first later element [y] with [cmp x y <= 0]. *)

Module JSArray.

Fixpoint insert_sorted {A} (cmp : A -> A -> Z) (x : A) (l : list A) : list A :=
  match l with
  | [] => [x]
  | y :: l' => if cmp x y <=? 0 then x :: y :: l' else y :: insert_sorted cmp x l'
  end.

Fixpoint sort {A} (cmp : A -> A -> Z) (l : list A) : list A :=
  match l with
  | [] => []
  | x :: l' => insert_sorted cmp x (sort cmp l')
  end.

(** [l.forEach(f)] where the callback updates a state and may throw. *)
Fixpoint forEach {A S} (f : S -> A -> completion S) (l : list A) (s : S) : completion S :=
  match l with
  | [] => Normal s
  | x :: l' => cbind (f s x) (forEach f l')
  end.

End JSArray.

(** ** Ordinary objects used as maps

    An object literal [{}] inherits from [Object.prototype]: reading a key
    that is not an own property finds the inherited member, if any.  Own
    string keys are enumerated array indices first, in ascending numeric
    order, then the other keys in creation order. *)

Module JSObject.

Definition prototype_keys : list string :=
  ["constructor"; "hasOwnProperty"; "isPrototypeOf"; "propertyIsEnumerable";
   "toLocaleString"; "toString"; "valueOf"; "__proto__";
   "__defineGetter__"; "__defineSetter__"; "__lookupGetter__";
   "__lookupSetter__"]%string.

Definition inherited (k : string) : bool := bool_decide (k ∈ prototype_keys).

Fixpoint allDigits (s : string) : bool :=
  match s with
  | EmptyString => true
  | String c s' => match JSString.digitVal c with Some _ => allDigits s' | None => false end
  end.

Fixpoint decimalValue (acc : Z) (s : string) : Z :=
  match s with
  | EmptyString => acc
  | String c s' => decimalValue (10 * acc + default 0 (JSString.digitVal c)) s'
  end.

(** A key is an array index when it is the canonical decimal form of an
    integer in 0 .. 2^32 - 2. *)
Definition arrayIndex (k : string) : option Z :=
  match k with
  | EmptyString => None
  | String c rest =>
      if allDigits k && (negb (Ascii.eqb c "0"%char) || String.eqb rest EmptyString)
         && (decimalValue 0 k <=? 4294967294)
      then Some (decimalValue 0 k) else None
  end.

(** Own properties in creation order. *)
Definition t (V : Type) : Type := list (string * V).

Fixpoint getOwn {V} (o : t V) (k : string) : option V :=
  match o with
  | [] => None
  | (k', v) :: o' => if String.eqb k' k then Some v else getOwn o' k
  end.

Fixpoint setOwn {V} (o : t V) (k : string) (v : V) : t V :=
  match o with
  | [] => [(k, v)]
  | (k', v') :: o' => if String.eqb k' k then (k', v) :: o' else (k', v') :: setOwn o' k v
  end.

Definition indexOrder {V} (a b : Z * V) : Z := a.1 - b.1.

Fixpoint indexProps {V} (o : t V) : list (Z * V) :=
  match o with
  | [] => []
  | (k, v) :: o' =>
      match arrayIndex k with
      | Some i => (i, v) :: indexProps o'
      | None => indexProps o'
      end
  end.

Fixpoint namedProps {V} (o : t V) : list V :=
  match o with
  | [] => []
  | (k, v) :: o' =>
      match arrayIndex k with
      | Some _ => namedProps o'
      | None => v :: namedProps o'
      end
  end.

(** [Object.values(o)]. *)
Definition values {V} (o : t V) : list V :=
  map snd (JSArray.sort indexOrder (indexProps o)) ++ namedProps o.

End JSObject.

(** ** Date objects: constructors and [Date.prototype] methods *)

Module DateObject.
Import JSDate JSString.

(** The time value of the object; [None] is an Invalid Date. *)
Definition Date : Type := option Z.

(** The local time zone, given as the abstract operation
    [LocalTZA(t, isUTC)] of ECMA-262: the offset of local time from UTC
    in milliseconds.  With [isUTC = true], [t] is a UTC time value and the
    answer is the offset in effect at that instant.  With [isUTC = false],
    [t] is a local time value and the answer is the offset used to read
    it; at a local time that a clock change skips or repeats it is the
    offset in effect before the change. *)
Record TimeZone : Type := { LocalTZA : Z -> bool -> Z }.

(** A zone whose clocks never change: local = UTC + tz. *)
Definition fixedOffset (tz : Z) : TimeZone := {| LocalTZA := fun _ _ => tz |}.

Definition LocalTime (zone : TimeZone) (t : Z) : Z := t + LocalTZA zone t true.
Definition UTC (zone : TimeZone) (t : Z) : Z := t - LocalTZA zone t false.

(** Years 0..99 given to the constructor mean 1900..1999. *)
Definition MakeFullYear (y : Z) : Z :=
  if (0 <=? y) && (y <=? 99) then 1900 + y else y.

(** [new Date(year, month, date)] *)
Definition construct (zone : TimeZone) (year month date : Z) : Date :=
  TimeClip (UTC zone (MakeDate (MakeDay (MakeFullYear year) month date) (MakeTime 0 0 0 0))).

(** [new Date()] when the system clock reads [clock]. *)
Definition now (clock : Z) : Date := TimeClip clock.

(** [new Date(d)] for a Date [d]. *)
Definition copy (d : Date) : Date := d.

Definition getFullYear (zone : TimeZone) (d : Date) : number :=
  fmap (M:=option) (fun t => YearFromTime (LocalTime zone t)) d.
Definition getMonth (zone : TimeZone) (d : Date) : number :=
  fmap (M:=option) (fun t => MonthFromTime (LocalTime zone t)) d.
Definition getDate (zone : TimeZone) (d : Date) : number :=
  fmap (M:=option) (fun t => DateFromTime (LocalTime zone t)) d.
Definition getDay (zone : TimeZone) (d : Date) : number :=
  fmap (M:=option) (fun t => WeekDay (LocalTime zone t)) d.

(** [d.setDate(dt)]: the new time value of [d]. *)
Definition setDate (zone : TimeZone) (d : Date) (dt : number) : Date :=
  match d, dt with
  | Some t, Some dt =>
      let lt := LocalTime zone t in
      TimeClip (UTC zone (MakeDate (MakeDay (YearFromTime lt) (MonthFromTime lt) dt)
                                 (TimeWithinDay lt)))
  | _, _ => None
  end.

Definition isoYear (y : Z) : string :=
  if (0 <=? y) && (y <=? 9999) then padDigits 4 y
  else String (if y <? 0 then "-"%char else "+"%char) (padDigits 6 (Z.abs y)).

(** [YYYY-MM-DD] from the year, the zero-based month and the date. *)
Definition isoFields (y m d : Z) : string :=
  String.append (isoYear y)
    (String "-" (String.append (padDigits 2 (m + 1)) (String "-" (padDigits 2 d)))).

Definition isoDate (t : Z) : string :=
  isoFields (YearFromTime t) (MonthFromTime t) (DateFromTime t).

Definition isoTime (t : Z) : string :=
  String.append (padDigits 2 (HourFromTime t))
    (String ":" (String.append (padDigits 2 (MinFromTime t))
       (String ":" (String.append (padDigits 2 (SecFromTime t))
          (String "." (padDigits 3 (msFromTime t))))))).

(** [d.toISOString()]: UTC fields; a RangeError on an Invalid Date. *)
Definition toISOString (d : Date) : completion string :=
  match d with
  | None => Throw RangeError
  | Some t => Normal (String.append (isoDate t) (String "T" (String.append (isoTime t) "Z")))
  end.

(** [new Date(s)] for a string.  The two forms of the ECMAScript
    date-time format that the application writes are read as ECMA-262
    prescribes: [YYYY-MM-DD] (UTC midnight; the form of the keys of
    [toDateKey]) and [YYYY-MM-DDTHH:mm:ss.sssZ] (the form of
    [toISOString]), with four-digit or signed six-digit years.  Every
    other string (the shorter forms of the format, numeric offsets, local
    date-times, textual dates, a day such as 30 February) is parsed "in an
    implementation-defined way": [legacy] stands for what the engine does
    with it. *)
Definition parseYear (s : string) : option (Z * string) :=
  match s with
  | String c s' =>
      if Ascii.eqb c "+" then readDigits 6 0 s'
      else if Ascii.eqb c "-" then
        match readDigits 6 0 s' with
        | Some (y, r) => if y =? 0 then None else Some (- y, r)
        | None => None
        end
      else readDigits 4 0 s
  | EmptyString => None
  end.

Definition daysInMonth (y m : Z) : Z :=
  monthStart m (leapDays y) - monthStart (m - 1) (leapDays y).

Definition parseTime (s : string) : option Z :=
  s ← expect "T" s;
  '(h, s) ← readDigits 2 0 s;
  s ← expect ":" s;
  '(mi, s) ← readDigits 2 0 s;
  s ← expect ":" s;
  '(sec, s) ← readDigits 2 0 s;
  s ← expect "." s;
  '(ms, s) ← readDigits 3 0 s;
  s ← expect "Z" s;
  if String.eqb s EmptyString && (mi <=? 59) && (sec <=? 59)
     && ((h <=? 23) || ((h =? 24) && (mi =? 0) && (sec =? 0) && (ms =? 0)))
  then Some (MakeTime h mi sec ms) else None.

Definition parseFormat (s : string) : option Z :=
  '(y, s) ← parseYear s;
  s ← expect "-" s;
  '(m, s) ← readDigits 2 0 s;
  s ← expect "-" s;
  '(d, s) ← readDigits 2 0 s;
  if (1 <=? m) && (m <=? 12) && (1 <=? d) && (d <=? daysInMonth y m) then
    time ← (if String.eqb s EmptyString then Some 0 else parseTime s);
    Some (MakeDate (MakeDay y (m - 1) d) time)
  else None.

Definition parse (legacy : string -> Date) (s : string) : Date :=
  match parseFormat s with
  | Some t => TimeClip t
  | None => legacy s
  end.

End DateObject.

(** ** The calendar screen (calendar.tsx) *)

Module Calendar.
Import JSDate DateObject.

Record OutfitEntry : Type := {
  _id : string;
  userId : string;
  date : string;
  garmentIds : list string;
  previewImage : string
}.

Inductive ViewMode : Type := day | month.

(** The state of the component ([useState] hooks). *)
Record ScreenState : Type := {
  viewMode : ViewMode;
  selectedDate : Date;
  currentMonth : Date;
  outfits : list OutfitEntry;
  loading : bool;
  menuVisible : bool
}.

(** A cell of the month grid: [Date | null]. *)
Inductive gridCell : Type :=
| null
| dateCell (d : Date).

Definition toDateKey (date : Date) : completion string :=
  cbind (toISOString date) (fun iso => Normal (hd EmptyString (JSString.split "T" iso))).

Definition isSameDay (a b : Date) : completion bool :=
  cbind (toDateKey a) (fun ka =>
  cbind (toDateKey b) (fun kb => Normal (String.eqb ka kb))).

(** [while (cond) body], at most [fuel] iterations. *)
Fixpoint while {S} (fuel : nat) (cond : S -> bool) (body : S -> S) (s : S) : option S :=
  if cond s then
    match fuel with
    | O => None
    | Datatypes.S fuel' => while fuel' cond body (body s)
    end
  else Some s.

(** The number of iterations of [for (let i = lo; i < hi; i++)] and of
    [for (let d = lo; d <= hi; d++)] when the bound may be NaN. *)
Definition countTo (bound : number) : nat :=
  match bound with
  | Some n => Z.to_nat n
  | None => O
  end.

Definition getMonthGrid (fuel : nat) (zone : TimeZone) (year month : Z)
  : option (list gridCell) :=
  let firstDay := construct zone year month 1 in
  let lastDay := construct zone year (month + 1) 0 in
  let grid := [] in
  let grid := grid ++ replicate (countTo (getDay zone firstDay)) null in
  let grid := grid ++ map (fun d => dateCell (construct zone year month d))
                          (seqZ 1 (Z.of_nat (countTo (getDate zone lastDay)))) in
  while fuel (fun grid => negb (Z.of_nat (length grid) mod 7 =? 0))
             (fun grid => grid ++ [null]) grid.

(** [outfitMap[key]] converted to a boolean: an own entry is an object,
    hence truthy; otherwise the member inherited from Object.prototype. *)
Definition hasOutfit (outfitMap : gmap string OutfitEntry) (key : string) : bool :=
  bool_decide (is_Some (outfitMap !! key)) || JSObject.inherited key.

(** The derived lookup ["YYYY-MM-DD" -> OutfitEntry] of the component. *)
Definition outfitMap (parse : string -> Date) (outfits : list OutfitEntry)
  : completion (gmap string OutfitEntry) :=
  JSArray.forEach
    (fun (outfitMap : gmap string OutfitEntry) o =>
       cbind (toDateKey (parse (date o))) (fun key => Normal (<[key := o]> outfitMap)))
    outfits ∅.

Record countEntry : Type := { count : Z; outfit : OutfitEntry }.

(** The signature of an outfit: [[...o.garmentIds].sort().join(',')]. *)
Definition garmentKey (o : OutfitEntry) : string :=
  JSString.join "," (JSArray.sort JSString.compareStrings (garmentIds o)).

(** One turn of the [forEach] that fills [countMap]. *)
Definition countStep (countMap : JSObject.t countEntry) (o : OutfitEntry)
  : JSObject.t countEntry :=
  let key := garmentKey o in
  let countMap :=
    if negb (bool_decide (is_Some (JSObject.getOwn countMap key)) || JSObject.inherited key)
    then JSObject.setOwn countMap key {| count := 0; outfit := o |}
    else countMap in
  match JSObject.getOwn countMap key with
  | Some e => JSObject.setOwn countMap key {| count := count e + 1; outfit := outfit e |}
  | None => countMap (* the inherited member gets the [count] property *)
  end.

Definition thisMonthOutfits (zone : TimeZone) (parse : string -> Date)
    (currentMonth : Date) (outfits : list OutfitEntry) : list OutfitEntry :=
  let year := getFullYear zone currentMonth in
  let month := getMonth zone currentMonth in
  List.filter (fun o =>
            let d := parse (date o) in
            num_strict_eq (getFullYear zone d) year && num_strict_eq (getMonth zone d) month)
         outfits.

Definition countMapOf (l : list OutfitEntry) : JSObject.t countEntry :=
  fold_left countStep l [].

(** [Object.values(countMap).sort((a, b) => b.count - a.count)[0]] *)
Definition best (countMap : JSObject.t countEntry) : option countEntry :=
  head (JSArray.sort (fun a b => count b - count a) (JSObject.values countMap)).

Definition getMostWornThisMonth (zone : TimeZone) (parse : string -> Date)
    (currentMonth : Date) (outfits : list OutfitEntry)
  : completion (option (string * Z)) :=
  let l := thisMonthOutfits zone parse currentMonth outfits in
  if (length l =? 0)%nat then Normal None
  else
    match best (countMapOf l) with
    | Some b => Normal (Some (previewImage (outfit b), count b))
    | None => Throw TypeError
    end.

(** The [while (true)] loop of [getStreak]; the state is [streak] and the
    Date object [checking], which [setDate] mutates. *)
Fixpoint streakLoop (fuel : nat) (zone : TimeZone) (outfitMap : gmap string OutfitEntry)
    (streak : Z) (checking : Date) : option (completion Z) :=
  match fuel with
  | O => None
  | Datatypes.S fuel' =>
      match toDateKey checking with
      | Throw e => Some (Throw e)
      | Normal key =>
          if hasOutfit outfitMap key then
            streakLoop fuel' zone outfitMap (streak + 1)
                       (setDate zone checking (num_sub (getDate zone checking) 1))
          else Some (Normal streak)
      end
  end.

Definition getStreak (fuel : nat) (zone : TimeZone) (clock : Z)
    (outfitMap : gmap string OutfitEntry) : option (completion Z) :=
  let today := now clock in
  let streak := 0 in
  let checking := copy today in
  streakLoop fuel zone outfitMap streak checking.

(** The analytics of the month view as the component computes them: the
    index is rebuilt from the [outfits] state on every render, then
    [renderMonthView] calls the two helpers. *)
Definition monthAnalytics (fuel : nat) (zone : TimeZone) (clock : Z) (parse : string -> Date)
    (st : ScreenState) : option (completion (option (string * Z) * Z)) :=
  match outfitMap parse (outfits st) with
  | Throw e => Some (Throw e)
  | Normal index =>
      match getMostWornThisMonth zone parse (currentMonth st) (outfits st) with
      | Throw e => Some (Throw e)
      | Normal mostWorn =>
          match getStreak fuel zone clock index with
          | None => None
          | Some (Throw e) => Some (Throw e)
          | Some (Normal streak) => Some (Normal (mostWorn, streak))
          end
      end
  end.

End Calendar.

(** ** Navigation and editing on the calendar screen (calendar.tsx) *)

Module CalendarNav.
Import JSDate DateObject Calendar.

(** [a - b] and [a + i] on numbers that may be NaN. *)
Definition num_minus (a b : number) : number :=
  match a, b with
  | Some x, Some y => Some (x - y)
  | _, _ => None
  end.

Definition num_plus (a : number) (i : Z) : number := fmap (M:=option) (fun x => x + i) a.

(** [new Date(year, month, date)] when year and month come from getters. *)
Definition constructN (zone : TimeZone) (year month : number) (date : Z) : Date :=
  match year, month with
  | Some y, Some m => construct zone y m date
  | _, _ => None
  end.

(** The 7 days of the week that contains [date], Sunday first. *)
Definition getWeekDays (zone : TimeZone) (date : Date) : list Date :=
  let day := getDay zone date in
  let sunday := copy date in
  let sunday := setDate zone sunday (num_minus (getDate zone date) day) in
  map (fun i =>
         let d := copy sunday in
         setDate zone d (num_plus (getDate zone sunday) i))
      (seqZ 0 7).

(** The state updates of [prevMonth] and [nextMonth]. *)
Definition prevMonth (zone : TimeZone) (prev : Date) : Date :=
  constructN zone (getFullYear zone prev) (num_sub (getMonth zone prev) 1) 1.

Definition nextMonth (zone : TimeZone) (prev : Date) : Date :=
  constructN zone (getFullYear zone prev) (num_plus (getMonth zone prev) 1) 1.

(** The arrows of the day view: the selected date one week back or forth. *)
Definition previousWeek (zone : TimeZone) (selectedDate : Date) : Date :=
  let prev := copy selectedDate in
  setDate zone prev (num_sub (getDate zone prev) 7).

Definition nextWeek (zone : TimeZone) (selectedDate : Date) : Date :=
  let next := copy selectedDate in
  setDate zone next (num_plus (getDate zone next) 7).

(** How the promise of [fetch] settles: fulfilled with a response of any
    HTTP status, or rejected (the request could not be made). *)
Inductive fetchResult : Type :=
| fulfilled (status : Z)
| rejected.

(** [deleteOutfit]: [await fetch(...)] throws only when the promise is
    rejected; the status of the response is not looked at.  After the
    [await] the outfit is filtered out of the local state and the menu is
    closed; the [catch] block leaves the state as it is. *)
Definition deleteOutfit (response : fetchResult) (outfitId : string) (st : ScreenState)
  : ScreenState :=
  match response with
  | fulfilled _ =>
      {| viewMode := viewMode st; selectedDate := selectedDate st;
         currentMonth := currentMonth st;
         outfits := List.filter (fun o => negb (String.eqb (_id o) outfitId)) (outfits st);
         loading := loading st; menuVisible := false |}
  | rejected => st
  end.

End CalendarNav.

(** ** The analytics screen (analytics.tsx) *)

Module Analytics.

Record ColourStat : Type := {
  colour : string;
  label : string;
  count : Z
}.

(** [[...colours].sort((a, b) => b.count - a.count).slice(0, 2)] *)
Definition topColours (colours : list ColourStat) : list ColourStat :=
  firstn 2 (JSArray.sort (fun a b => count b - count a) colours).

End Analytics.

(** ** Notions used in the statements: those of the specification, written
    from its words, and conditions on the time zone *)

Module Spec.
Import JSDate DateObject Calendar.

(** Two Dates "fall on the same calendar day" when their calendar fields,
    as the screen reads them ([getFullYear], [getMonth], [getDate]), agree. *)
Definition sameCalendarDay (zone : TimeZone) (a b : Date) : Prop :=
  getFullYear zone a = getFullYear zone b /\
  getMonth zone a = getMonth zone b /\
  getDate zone a = getDate zone b.

(** Conditions on a time zone.  Its offsets stay within [b] milliseconds
    of UTC; and a local time, turned into an instant and read back, is
    still on the same calendar day: no clock change skips a whole day or
    jumps forward over midnight.  Zones without clock changes and zones
    with daylight saving at the usual hours satisfy both. *)
Definition offsetsWithin (b : Z) (zone : TimeZone) : Prop :=
  forall t isUTC, Z.abs (LocalTZA zone t isUTC) <= b.

Definition keepsLocalDay (zone : TimeZone) : Prop :=
  forall t, Day (LocalTime zone (UTC zone t)) = Day t.

(** The offsets of the zone differ from one another by at most [v]. *)
Definition offsetsVaryBy (v : Z) (zone : TimeZone) : Prop :=
  forall t isUTC t' isUTC', LocalTZA zone t isUTC - LocalTZA zone t' isUTC' <= v.

(** The instant at the same local time of day one local calendar day
    before [t], and the instant [i] such steps before [t]. *)
Definition dayBefore (zone : TimeZone) (t : Z) : Z :=
  UTC zone (LocalTime zone t - msPerDay).

Fixpoint daysBack (zone : TimeZone) (i : nat) (t : Z) : Z :=
  match i with
  | O => t
  | Datatypes.S i' => daysBack zone i' (dayBefore zone t)
  end.

(** Leap years of the Gregorian calendar. *)
Definition isLeapYear (y : Z) : bool :=
  (y mod 4 =? 0) && (negb (y mod 100 =? 0) || (y mod 400 =? 0)).

(** The number of days of month [m] (0 = January) of year [y]. *)
Definition monthLength (y m : Z) : Z :=
  if m =? 1 then (if isLeapYear y then 29 else 28)
  else if (m =? 3) || (m =? 5) || (m =? 8) || (m =? 10) then 30
  else 31.

(** The weekday (0 = Sunday) of the first of month [m] of year [y]. *)
Definition weekdayOfFirst (y m : Z) : Z :=
  WeekDay (MakeDate (MakeDay y m 1) 0).

(** The calendar grid of the specification: [w] leading blanks, one cell
    per day, trailing blanks up to a multiple of 7. *)
Definition monthGrid (w n : Z) (cell : Z -> gridCell) : list gridCell :=
  replicate (Z.to_nat w) null ++ map cell (seqZ 1 n)
    ++ replicate (Z.to_nat ((7 - (w + n) mod 7) mod 7)) null.

(** The outfit [o] with its garment list replaced by [ids]. *)
Definition withGarmentIds (o : OutfitEntry) (ids : list string) : OutfitEntry :=
  {| _id := _id o; userId := userId o; date := date o;
     garmentIds := ids; previewImage := previewImage o |}.

(** Two outfits that differ at most in the order of their garment list. *)
Definition sameGarments (o o' : OutfitEntry) : Prop :=
  _id o = _id o' /\ userId o = userId o' /\ date o = date o' /\
  previewImage o = previewImage o' /\ garmentIds o ≡ₚ garmentIds o'.

(** How many outfits of [l] have the signature [k]. *)
Definition occurrences (k : string) (l : list OutfitEntry) : Z :=
  Z.of_nat (length (List.filter (fun o => String.eqb (garmentKey o) k) l)).

(** The group of [o] in [l]: its representative and its size. *)
Definition groupOf (l : list OutfitEntry) (o : OutfitEntry) : countEntry :=
  {| count := occurrences (garmentKey o) l; outfit := o |}.

(** The first element of [l] at which [f] is maximal: an element is
    replaced only by a later one that is strictly greater. *)
Fixpoint firstMaxBy {A} (f : A -> Z) (l : list A) : option A :=
  match l with
  | [] => None
  | x :: l' =>
      match firstMaxBy f l' with
      | Some b => if f x <? f b then Some b else Some x
      | None => Some x
      end
  end.

(** The first outfit of each signature, in input order. *)
Fixpoint firsts (l : list OutfitEntry) : list OutfitEntry :=
  match l with
  | [] => []
  | o :: l' => o :: List.filter (fun o' => negb (String.eqb (garmentKey o') (garmentKey o)))
                                (firsts l')
  end.

(** A signature that is an ordinary property name: neither an array index
    nor the name of a member of Object.prototype. *)
Definition plainKey (k : string) : Prop :=
  JSObject.arrayIndex k = None /\ JSObject.inherited k = false.

(** The number of day cells of a grid. *)
Definition dayCells (grid : list gridCell) : nat :=
  length (List.filter (fun c => match c with dateCell _ => true | null => false end) grid).

End Spec.

(** ** Sample records used by the scenarios *)

Module Examples.
Import DateObject Calendar.

(** Zones: Greenwich, two hours east of it, and New York with its clock
    changes of 2025: daylight time (UTC-4) from 9 March 07:00 UTC to
    2 November 06:00 UTC, standard time (UTC-5) otherwise.  Read as local times, the hour skipped on 9 March
    (02:00 to 03:00) and the hour repeated on 2 November (01:00 to 02:00)
    take the offset in effect before the change. *)
Definition utc : TimeZone := fixedOffset 0.
Definition eastTz : Z := 7200000.

Definition newYork : TimeZone :=
  {| LocalTZA := fun t isUTC =>
       if isUTC then
         if (1741503600000 <=? t) && (t <? 1762063200000) then -14400000 else -18000000
       else
         if (1741489200000 <=? t) && (t <? 1762048800000) then -14400000 else -18000000 |}.

(** Apia at the end of 2011: at the midnight that ended 29 December
    (UTC-10) the clocks were set to 00:00 of 31 December (UTC+14); there
    was no 30 December. *)
Definition apia : TimeZone :=
  {| LocalTZA := fun t isUTC =>
       if isUTC then if t <? 1325239200000 then -36000000 else 50400000
       else if t <? 1325289600000 then -36000000 else 50400000 |}.

(** [new Date(string)] of an engine that reads nothing but the two forms
    of [parseFormat].  The only other string below, "not a date", is one
    that no engine reads. *)
Definition newDate : string -> Date := parse (fun _ => None).

Definition outfitOn (d : string) (ids : list string) (img : string) : OutfitEntry :=
  {| _id := img; userId := "u1"; date := d; garmentIds := ids; previewImage := img |}.

(** An index with entries exactly for 2025-06-10, 2025-06-11, 2025-06-12. *)
Definition juneIndex : gmap string OutfitEntry :=
  <["2025-06-10"%string := outfitOn "2025-06-10" ["a"%string] "jun10.png"]>
    (<["2025-06-11"%string := outfitOn "2025-06-11" ["b"%string] "jun11.png"]>
       (<["2025-06-12"%string := outfitOn "2025-06-12" ["c"%string] "jun12.png"]> ∅)).

(** 2025-06-12T03:46:40.000Z *)
Definition juneClock : Z := 1749700000000.

(** Two readings of the clock on 12 June 2025 in New York: 12:00 local
    time (16:00 UTC) and 21:00 local time (01:00 UTC of 13 June). *)
Definition juneNoonNewYork : Z := 1749744000000.
Definition juneEveningNewYork : Z := 1749776400000.

(** Entries for 2025-11-01 and 2025-11-03 only, and the clock at
    2025-11-03T00:30:00.000Z, which is 19:30 of 2 November in New York. *)
Definition novemberIndex : gmap string OutfitEntry :=
  <["2025-11-01"%string := outfitOn "2025-11-01" ["a"%string] "nov01.png"]>
    (<["2025-11-03"%string := outfitOn "2025-11-03" ["b"%string] "nov03.png"]> ∅).
Definition novemberClock : Z := 1762129800000.

(** One entry, for 2025-03-09, and two readings of the clock on that day:
    12:00 UTC (08:00 in New York) and 23:30 UTC (19:30 in New York). *)
Definition marchNinthIndex : gmap string OutfitEntry :=
  {[ "2025-03-09"%string := outfitOn "2025-03-09" ["a"%string] "mar09.png" ]}.
Definition marchNinthMorning : Z := 1741521600000.
Definition marchNinthEvening : Z := 1741563000000.

(** Two instants of 12 June 2025 in the zone two hours east of Greenwich:
    00:30 and 12:00 local time. *)
Definition halfPastMidnight : Date := Some 1749681000000.
Definition noon : Date := Some 1749722400000.

(** Two outfits of 13 September 2025 around one of the 14th. *)
Definition sameDayOutfits : list OutfitEntry :=
  [outfitOn "2025-09-13T00:00:00.000Z" ["a"%string] "first.png";
   outfitOn "2025-09-14" ["b"%string] "other.png";
   outfitOn "2025-09-13T18:30:00.000Z" ["c"%string] "last.png"].

(** The screen holding these outfits. *)
Definition septemberScreen : ScreenState :=
  {| viewMode := day; selectedDate := construct utc 2025 8 14;
     currentMonth := construct utc 2025 8 1;
     outfits := sameDayOutfits; loading := false; menuVisible := true |}.

(** A record whose date does not parse, and a sound one of March 2025. *)
Definition badOutfit : OutfitEntry := outfitOn "not a date" ["a"%string] "bad.png".
Definition goodOutfit : OutfitEntry := outfitOn "2025-03-07" ["b"%string] "good.png".

(** The scenario of the most-worn outfit. *)
Definition marchOutfits : list OutfitEntry :=
  [outfitOn "2025-03-01" ["a"; "b"]%string "mar01.png";
   outfitOn "2025-03-05" ["b"; "a"]%string "mar05.png";
   outfitOn "2025-03-10" ["c"%string] "mar10.png"].

(** Two outfits of March 2025 worn once each; the signature of the second
    one, "1", is an array index.  And one whose only garment is called
    "constructor". *)
Definition tieOutfits : list OutfitEntry :=
  [outfitOn "2025-03-01" ["b"%string] "first.png";
   outfitOn "2025-03-05" ["1"%string] "second.png"].

Definition constructorOutfits : list OutfitEntry :=
  [outfitOn "2025-03-01" ["constructor"%string] "only.png"].

(** [currentMonth] when the month view shows March 2025. *)
Definition march2025 (zone : TimeZone) : Date := construct zone 2025 2 1.

(** Two states of the screen with the same outfits, showing March and
    April 2025, and two readings of the clock: noon (UTC) of 1 March and
    of 2 March 2025. *)
Definition marchScreen : ScreenState :=
  {| viewMode := month; selectedDate := march2025 utc; currentMonth := march2025 utc;
     outfits := marchOutfits; loading := false; menuVisible := false |}.

Definition aprilScreen : ScreenState :=
  {| viewMode := month; selectedDate := march2025 utc; currentMonth := construct utc 2025 3 1;
     outfits := marchOutfits; loading := false; menuVisible := false |}.

(** The day view of the same outfits, on 15 March 2025. *)
Definition marchDayScreen : ScreenState :=
  {| viewMode := day; selectedDate := construct utc 2025 2 15;
     currentMonth := construct utc 2025 2 15;
     outfits := marchOutfits; loading := true; menuVisible := true |}.

Definition marchFirstNoon : Z := 1740830400000.
Definition marchSecondNoon : Z := 1740916800000.

End Examples.

(** * Properties of the run-time model *)

Import JSDate DateObject.

Ltac zdiv := Z.div_mod_to_equations; lia.

(** Evaluate sums of literals, then the month table, leaving sums with
    variables alone. *)
Ltac month_table :=
  repeat match goal with
         | |- context [0 + 1] => change (0 + 1) with 1
         | |- context [Z.pos ?p + 1] =>
             let v := eval compute in (Z.pos p + 1) in change (Z.pos p + 1) with v
         | H : context [Z.pos ?p + 1] |- _ =>
             let v := eval compute in (Z.pos p + 1) in change (Z.pos p + 1) with v in H
         | H : context [0 + 1] |- _ => change (0 + 1) with 1 in H
         end;
  cbn [monthStart] in *.

(** ** Years and days *)

Section CalendarArithmetic.

Lemma DayFromYear_mean y :
  146097 * (y - 1970) - 506 <= 400 * DayFromYear y <= 146097 * (y - 1970) + 589.
Proof. unfold DayFromYear. zdiv. Qed.

Lemma DayFromYear_step y : DayFromYear (y + 1) = DayFromYear y + DaysInYear y.
Proof.
  unfold DayFromYear, DaysInYear.
  destruct (Z.eqb_spec (y mod 4) 0), (Z.eqb_spec (y mod 100) 0),
    (Z.eqb_spec (y mod 400) 0); cbn [negb]; zdiv.
Qed.

Lemma DaysInYear_cases y : DaysInYear y = 365 + leapDays y /\ 0 <= leapDays y <= 1.
Proof.
  unfold leapDays, DaysInYear.
  destruct (y mod 4 =? 0), (y mod 100 =? 0), (y mod 400 =? 0); cbn; lia.
Qed.

Lemma DayFromYear_mono_step (n : nat) y :
  DayFromYear y + 365 * Z.of_nat n <= DayFromYear (y + Z.of_nat n).
Proof.
  induction n as [|n IH].
  - replace (y + Z.of_nat 0) with y by lia. lia.
  - replace (y + Z.of_nat (S n)) with (y + Z.of_nat n + 1) by lia.
    rewrite DayFromYear_step.
    pose proof (DaysInYear_cases (y + Z.of_nat n)). lia.
Qed.

Lemma DayFromYear_lt y1 y2 : y1 < y2 -> DayFromYear y1 < DayFromYear y2.
Proof.
  intros H. pose proof (DayFromYear_mono_step (Z.to_nat (y2 - y1)) y1) as M.
  rewrite Z2Nat.id in M by lia. replace (y1 + (y2 - y1)) with y2 in M by lia. lia.
Qed.

Lemma DayFromYear_le y1 y2 : y1 <= y2 -> DayFromYear y1 <= DayFromYear y2.
Proof.
  intros H. destruct (Z.eq_dec y1 y2) as [->|]; [lia|].
  pose proof (DayFromYear_lt y1 y2). lia.
Qed.

(** [YearFromDay d] is the year that contains day [d] ... *)
Lemma YearFromDay_spec d :
  DayFromYear (YearFromDay d) <= d < DayFromYear (YearFromDay d + 1).
Proof.
  unfold YearFromDay. cbv zeta.
  set (q := 400 * d / 146097).
  assert (Hq : 146097 * q <= 400 * d < 146097 * q + 146097) by (subst q; zdiv).
  pose proof (DayFromYear_mean (1970 + q + 1 + 1)).
  pose proof (DayFromYear_mean (1970 + q - 1)).
  destruct (Z.leb_spec (DayFromYear (1970 + q + 1)) d);
    [|destruct (Z.leb_spec (DayFromYear (1970 + q)) d)]; try lia.
  replace (1970 + q - 1 + 1) with (1970 + q) by lia. lia.
Qed.

(** ... and the only one: it is the largest [y] with [DayFromYear y <= d]. *)
Lemma YearFromDay_unique d y :
  DayFromYear y <= d < DayFromYear (y + 1) -> YearFromDay d = y.
Proof.
  intros H. pose proof (YearFromDay_spec d) as S.
  destruct (Z.lt_total (YearFromDay d) y) as [L|[E|L]]; [|exact E|].
  - pose proof (DayFromYear_le (YearFromDay d + 1) y). lia.
  - pose proof (DayFromYear_le (y + 1) (YearFromDay d)). lia.
Qed.

Lemma YearFromDay_largest d y : DayFromYear y <= d <-> y <= YearFromDay d.
Proof.
  pose proof (YearFromDay_spec d) as S. split; intros H.
  - destruct (Z.le_gt_cases y (YearFromDay d)) as [|G]; [assumption|].
    pose proof (DayFromYear_le (YearFromDay d + 1) y). lia.
  - pose proof (DayFromYear_le y (YearFromDay d)). lia.
Qed.

Lemma DayWithinYear_range t :
  0 <= DayWithinYear t < 365 + InLeapYear t.
Proof.
  unfold DayWithinYear, InLeapYear, YearFromTime.
  pose proof (YearFromDay_spec (Day t)) as S.
  rewrite DayFromYear_step in S.
  pose proof (DaysInYear_cases (YearFromDay (Day t))). lia.
Qed.

Lemma monthOfDay_range dwy leap :
  0 <= leap <= 1 -> 0 <= dwy < 365 + leap ->
  0 <= monthOfDay dwy leap <= 11 /\
  monthStart (monthOfDay dwy leap) leap <= dwy
    < monthStart (monthOfDay dwy leap + 1) leap.
Proof.
  intros Hl Hd. unfold monthOfDay.
  repeat match goal with
         | |- context [?a <? ?b] => destruct (Z.ltb_spec a b)
         end; month_table; lia.
Qed.

Lemma MonthFromTime_range t : 0 <= MonthFromTime t <= 11.
Proof.
  unfold MonthFromTime. apply monthOfDay_range.
  - apply DaysInYear_cases.
  - apply DayWithinYear_range.
Qed.

Lemma DateFromTime_range t : 1 <= DateFromTime t <= 31.
Proof.
  unfold DateFromTime, MonthFromTime.
  pose proof (DaysInYear_cases (YearFromTime t)) as [_ Hl].
  pose proof (DayWithinYear_range t) as Hd. fold (InLeapYear t) in Hl.
  pose proof (monthOfDay_range _ _ Hl Hd) as [Hm Hs].
  set (m := monthOfDay (DayWithinYear t) (InLeapYear t)) in *.
  assert (Hc : m = 0 \/ m = 1 \/ m = 2 \/ m = 3 \/ m = 4 \/ m = 5 \/ m = 6 \/
               m = 7 \/ m = 8 \/ m = 9 \/ m = 10 \/ m = 11) by lia.
  repeat destruct Hc as [Hc|Hc]; rewrite Hc in *; month_table; lia.
Qed.

(** The fields of a time value give back its day number. *)
Lemma MakeDay_fields t :
  MakeDay (YearFromTime t) (MonthFromTime t) (DateFromTime t) = Day t.
Proof.
  pose proof (MonthFromTime_range t) as Hm.
  unfold MakeDay. cbv zeta.
  rewrite Z.div_small, Z.mod_small by lia.
  unfold DateFromTime, InLeapYear, DayWithinYear.
  rewrite Z.add_0_r. lia.
Qed.

(** The day [MakeDay y m dt] has the fields [y], [m], [dt] when these name
    a day of the calendar. *)
Lemma fields_MakeDay y m dt t :
  0 <= m <= 11 -> 1 <= dt <= daysInMonth y (m + 1) ->
  Day t = MakeDay y m dt ->
  YearFromTime t = y /\ MonthFromTime t = m /\ DateFromTime t = dt.
Proof.
  intros Hm Hdt Ht.
  unfold MakeDay in Ht. cbv zeta in Ht.
  rewrite Z.div_small, Z.mod_small, Z.add_0_r in Ht by lia.
  unfold daysInMonth in Hdt. replace (m + 1 - 1) with m in Hdt by lia.
  pose proof (DaysInYear_cases y) as [Hy Hl].
  assert (Hc : m = 0 \/ m = 1 \/ m = 2 \/ m = 3 \/ m = 4 \/ m = 5 \/ m = 6 \/
               m = 7 \/ m = 8 \/ m = 9 \/ m = 10 \/ m = 11) by lia.
  assert (HY : YearFromTime t = y).
  { unfold YearFromTime. apply YearFromDay_unique. rewrite DayFromYear_step, Ht.
    repeat destruct Hc as [Hc|Hc]; rewrite Hc in *; month_table; lia. }
  assert (HD : DayWithinYear t = monthStart m (leapDays y) + dt - 1).
  { unfold DayWithinYear. rewrite HY. lia. }
  assert (HM : MonthFromTime t = m).
  { unfold MonthFromTime, InLeapYear. rewrite HY, HD. unfold monthOfDay.
    repeat destruct Hc as [Hc|Hc]; rewrite Hc in *; month_table;
      repeat match goal with
             | |- context [?a <? ?b] => destruct (Z.ltb_spec a b); try lia
             end. }
  split; [exact HY|]. split; [exact HM|].
  unfold DateFromTime, InLeapYear. rewrite HM, HY, HD. lia.
Qed.

End CalendarArithmetic.

(** ** Decimal digits and the ISO date string *)

Section Formatting.
Import JSString.

Ltac digit_cases :=
  unfold digitChar;
  repeat match goal with
         | |- context [?a =? ?b] => destruct (Z.eqb_spec a b)
         | H : context [?a =? ?b] |- _ => destruct (Z.eqb_spec a b)
         end.

Lemma digitChar_inj a b :
  0 <= a <= 9 -> 0 <= b <= 9 -> digitChar a = digitChar b -> a = b.
Proof. intros Ha Hb. digit_cases; intros E; try discriminate E; lia. Qed.

Lemma digitChar_is_digit n : exists v, digitVal (digitChar n) = Some v.
Proof. digit_cases; cbn; eauto. Qed.

Lemma digitVal_digitChar n : 0 <= n <= 9 -> digitVal (digitChar n) = Some n.
Proof. intros Hn. digit_cases; cbn; f_equal; lia. Qed.

(** A character that is not a decimal digit is no [digitChar]. *)
Lemma digitChar_neq n c : digitVal c = None -> digitChar n <> c.
Proof.
  intros Hc E. destruct (digitChar_is_digit n) as [v Hv]. congruence.
Qed.

Lemma padDigits_mod w a b :
  padDigits w a = padDigits w b -> a mod 10 ^ Z.of_nat w = b mod 10 ^ Z.of_nat w.
Proof.
  induction w as [|w IH]; intros E.
  - cbn. rewrite !Z.mod_1_r. reflexivity.
  - cbn [padDigits] in E. injection E as Eh Et.
    apply digitChar_inj in Eh;
      [|match goal with |- 0 <= ?x mod 10 <= 9 =>
          pose proof (Z.mod_pos_bound x 10); lia end..].
    specialize (IH Et).
    rewrite Nat2Z.inj_succ, Z.pow_succ_r by lia.
    rewrite (Z.mul_comm 10).
    assert (0 < 10 ^ Z.of_nat w) by (apply Z.pow_pos_nonneg; lia).
    rewrite !Z.rem_mul_r by lia. lia.
Qed.

Lemma padDigits_inj w a b :
  0 <= a < 10 ^ Z.of_nat w -> 0 <= b < 10 ^ Z.of_nat w ->
  padDigits w a = padDigits w b -> a = b.
Proof.
  intros Ha Hb E. apply padDigits_mod in E.
  rewrite !Z.mod_small in E by assumption. exact E.
Qed.

Lemma padDigits_head w n :
  padDigits (S w) n = String (digitChar ((n / 10 ^ Z.of_nat w) mod 10)) (padDigits w n).
Proof. reflexivity. Qed.

Lemma isoYear_inj y1 y2 :
  -999999 <= y1 <= 999999 -> -999999 <= y2 <= 999999 ->
  isoYear y1 = isoYear y2 -> y1 = y2.
Proof.
  intros H1 H2. unfold isoYear.
  destruct ((0 <=? y1) && (y1 <=? 9999)) eqn:E1,
    ((0 <=? y2) && (y2 <=? 9999)) eqn:E2; intros E.
  - apply andb_true_iff in E1, E2.
    apply padDigits_inj in E; [exact E|change (10 ^ Z.of_nat 4) with 10000; lia..].
  - rewrite padDigits_head in E. injection E as Eh _. exfalso. revert Eh.
    apply digitChar_neq. destruct (_ <? _); reflexivity.
  - rewrite padDigits_head in E. injection E as Eh _. exfalso. revert Eh.
    apply not_eq_sym, digitChar_neq. destruct (_ <? _); reflexivity.
  - remember (padDigits 6 (Z.abs y1)) as p1 eqn:P1.
    remember (padDigits 6 (Z.abs y2)) as p2 eqn:P2.
    injection E as Es Ed. subst p1 p2.
    apply padDigits_inj in Ed; [|change (10 ^ Z.of_nat 6) with 1000000; lia..].
    destruct (Z.ltb_spec y1 0), (Z.ltb_spec y2 0); try discriminate Es; lia.
Qed.

Lemma isoFields_inj y1 m1 d1 y2 m2 d2 :
  -999999 <= y1 <= 999999 -> -999999 <= y2 <= 999999 ->
  0 <= m1 <= 11 -> 0 <= m2 <= 11 -> 1 <= d1 <= 31 -> 1 <= d2 <= 31 ->
  isoFields y1 m1 d1 = isoFields y2 m2 d2 -> y1 = y2 /\ m1 = m2 /\ d1 = d2.
Proof.
  intros Hy1 Hy2 Hm1 Hm2 Hd1 Hd2 E.
  assert (Hy : isoYear y1 = isoYear y2 /\
               padDigits 2 (m1 + 1) = padDigits 2 (m2 + 1) /\
               padDigits 2 d1 = padDigits 2 d2).
  { revert E. unfold isoFields, isoYear.
    destruct ((0 <=? y1) && (y1 <=? 9999)), ((0 <=? y2) && (y2 <=? 9999));
      cbn [padDigits String.append]; intros E.
    - injection E as -> -> -> -> -> -> -> ->. auto.
    - injection E as Eh _. exfalso. revert Eh. apply digitChar_neq.
      destruct (_ <? _); reflexivity.
    - injection E as Eh _. exfalso. revert Eh. apply not_eq_sym, digitChar_neq.
      destruct (_ <? _); reflexivity.
    - injection E as -> -> -> -> -> -> -> -> -> -> ->. auto. }
  destruct Hy as (Ey & Em & Ed).
  apply isoYear_inj in Ey; [|assumption..].
  apply padDigits_inj in Em; [|change (10 ^ Z.of_nat 2) with 100; lia..].
  apply padDigits_inj in Ed; [|change (10 ^ Z.of_nat 2) with 100; lia..].
  lia.
Qed.

End Formatting.

(** ** [toDateKey]: the UTC calendar day of a Date *)

Section DateKey.
Import JSString Calendar.

Lemma append_nil s : String.append EmptyString s = s.
Proof. reflexivity. Qed.

Lemma append_cons a s1 s2 : String.append (String a s1) s2 = String a (String.append s1 s2).
Proof. reflexivity. Qed.

Lemma digitChar_eqb n c : digitVal c = None -> Ascii.eqb (digitChar n) c = false.
Proof.
  intros Hc. apply Ascii.eqb_neq. apply digitChar_neq. exact Hc.
Qed.

Lemma split_head c s1 s2 :
  hasChar c s1 = false ->
  hd EmptyString (split c (String.append s1 (String c s2))) = s1.
Proof.
  induction s1 as [|a s1 IH]; intros H.
  - rewrite append_nil. cbn [split]. rewrite Ascii.eqb_refl. reflexivity.
  - rewrite append_cons. cbn [split hasChar] in *.
    apply orb_false_iff in H as [Ha Hs]. rewrite Ha.
    specialize (IH Hs). destruct (split c _); cbn [hd] in *; congruence.
Qed.

Lemma isoFields_no_T y m d : hasChar "T" (isoFields y m d) = false.
Proof.
  unfold isoFields, isoYear.
  destruct ((0 <=? y) && (y <=? 9999)), (y <? 0);
    cbn [padDigits]; rewrite ?append_cons, ?append_nil; cbn [hasChar];
    rewrite ?digitChar_eqb by reflexivity; reflexivity.
Qed.

(** The first character of a date key is a digit or a sign. *)
Lemma isoFields_first y m d :
  exists c r, isoFields y m d = String c r /\
              (digitVal c <> None \/ c = "+"%char \/ c = "-"%char).
Proof.
  unfold isoFields, isoYear.
  destruct ((0 <=? y) && (y <=? 9999)), (y <? 0);
    cbn [padDigits]; rewrite ?append_cons;
    eexists _, _; (split; [reflexivity|]); auto.
  all: left; match goal with |- digitVal (digitChar ?n) <> None =>
                destruct (digitChar_is_digit n) as [v ->]; discriminate end.
Qed.

Lemma inherited_first c r :
  digitVal c <> None \/ c = "+"%char \/ c = "-"%char ->
  JSObject.inherited (String c r) = false.
Proof.
  intros Hc. apply bool_decide_eq_false. unfold JSObject.prototype_keys.
  rewrite !elem_of_cons, elem_of_nil.
  intros H.
  repeat destruct H as [H|H]; try contradiction;
    injection H as -> _; destruct Hc as [Hc|[Hc|Hc]];
    solve [apply Hc; reflexivity | discriminate Hc].
Qed.

Lemma toDateKey_valid t : toDateKey (Some t) = Normal (isoDate t).
Proof.
  unfold toDateKey, toISOString, cbind. f_equal.
  apply split_head. apply isoFields_no_T.
Qed.

Lemma toDateKey_invalid : toDateKey None = Throw RangeError.
Proof. reflexivity. Qed.

(** A date key never names a member of Object.prototype. *)
Lemma isoDate_not_inherited t : JSObject.inherited (isoDate t) = false.
Proof.
  unfold isoDate.
  destruct (isoFields_first (YearFromTime t) (MonthFromTime t) (DateFromTime t))
    as (c & r & -> & Hc).
  apply inherited_first, Hc.
Qed.

Lemma isoDate_Day t1 t2 : Day t1 = Day t2 -> isoDate t1 = isoDate t2.
Proof.
  intros E.
  unfold isoDate, DateFromTime, MonthFromTime, InLeapYear, DayWithinYear, YearFromTime.
  rewrite E. reflexivity.
Qed.

Lemma Day_range t : Z.abs t <= maxTime -> -100000000 <= Day t <= 100000000.
Proof. unfold Day, maxTime, msPerDay. intros H. zdiv. Qed.

Lemma YearFromTime_range t :
  Z.abs t <= maxTime -> -271821 <= YearFromTime t <= 275760.
Proof.
  intros H. apply Day_range in H. unfold YearFromTime. split.
  - apply YearFromDay_largest.
    assert (DayFromYear (-271821) <= -100000000) by (vm_compute; discriminate). lia.
  - destruct (Z.le_gt_cases 275761 (YearFromDay (Day t))) as [L|]; [|lia].
    apply YearFromDay_largest in L.
    assert (100000000 < DayFromYear 275761) by (vm_compute; reflexivity). lia.
Qed.

(** Two valid dates with the same key have time values in the same UTC
    day. *)
Lemma isoDate_inj t1 t2 :
  Z.abs t1 <= maxTime -> Z.abs t2 <= maxTime ->
  isoDate t1 = isoDate t2 -> Day t1 = Day t2.
Proof.
  intros H1 H2 E. unfold isoDate in E.
  apply YearFromTime_range in H1, H2.
  apply isoFields_inj in E;
    [|lia|lia|apply MonthFromTime_range|apply MonthFromTime_range
     |apply DateFromTime_range|apply DateFromTime_range].
  destruct E as (Ey & Em & Ed).
  rewrite <- (MakeDay_fields t1), <- (MakeDay_fields t2), Ey, Em, Ed. reflexivity.
Qed.

End DateKey.

(** ** Moving a Date by whole days *)

Section Yesterday.
Import Calendar.

Lemma TimeClip_valid t : valid t -> TimeClip t = Some t.
Proof.
  unfold valid, TimeClip. intros H.
  destruct (Z.leb_spec (Z.abs t) maxTime); [reflexivity|lia].
Qed.

Lemma TimeClip_invalid t : ~ valid t -> TimeClip t = None.
Proof.
  unfold valid, TimeClip. intros H.
  destruct (Z.leb_spec (Z.abs t) maxTime); [contradiction|reflexivity].
Qed.

Lemma valid_dec t : {valid t} + {~ valid t}.
Proof. unfold valid. destruct (Z_le_dec (Z.abs t) maxTime); auto. Qed.

(** [d.setDate(d.getDate() + k)]: the local time moves by [k] days, its
    time of day unchanged, and is read back as an instant of the zone. *)
Lemma setDate_shift zone t k :
  setDate zone (Some t) (Some (DateFromTime (LocalTime zone t) + k))
  = TimeClip (UTC zone (LocalTime zone t + k * msPerDay)).
Proof.
  cbn [setDate]. set (lt := LocalTime zone t). do 2 f_equal.
  assert (E : MakeDay (YearFromTime lt) (MonthFromTime lt) (DateFromTime lt + k)
              = Day lt + k).
  { rewrite <- (MakeDay_fields lt). unfold MakeDay. lia. }
  rewrite E. unfold MakeDate, TimeWithinDay, Day, msPerDay. zdiv.
Qed.

(** [checking.setDate(checking.getDate() - 1)] *)
Lemma setDate_yesterday zone t :
  setDate zone (Some t) (num_sub (getDate zone (Some t)) 1)
  = TimeClip (Spec.dayBefore zone t).
Proof.
  cbn [getDate num_sub fmap option_fmap option_map].
  replace (DateFromTime (LocalTime zone t) - 1)
    with (DateFromTime (LocalTime zone t) + -1) by lia.
  rewrite setDate_shift. unfold Spec.dayBefore. do 2 f_equal; lia.
Qed.

Lemma daysBack_succ zone i : forall t,
  Spec.daysBack zone (S i) t = Spec.dayBefore zone (Spec.daysBack zone i t).
Proof.
  induction i as [|i IH]; intros t; [reflexivity|].
  change (Spec.daysBack zone (S (S i)) t)
    with (Spec.daysBack zone (S i) (Spec.dayBefore zone t)).
  rewrite IH. reflexivity.
Qed.

(** Without clock changes the step is exactly one day of 24 hours. *)
Lemma dayBefore_steady zone t :
  Spec.offsetsVaryBy 0 zone -> Spec.dayBefore zone t = t - msPerDay.
Proof.
  intros H. unfold Spec.dayBefore, UTC, LocalTime.
  pose proof (H t true (t + LocalTZA zone t true - msPerDay) false).
  pose proof (H (t + LocalTZA zone t true - msPerDay) false t true). lia.
Qed.

Lemma daysBack_steady zone i :
  Spec.offsetsVaryBy 0 zone ->
  forall t, Spec.daysBack zone i t = t - Z.of_nat i * msPerDay.
Proof.
  intros H. induction i as [|i IH]; intros t; cbn [Spec.daysBack]; [lia|].
  rewrite IH, dayBefore_steady by exact H. lia.
Qed.

Lemma fixedOffset_steady tz : Spec.offsetsVaryBy 0 (fixedOffset tz).
Proof. intros t b t' b'. cbn [LocalTZA fixedOffset]. lia. Qed.

(** With clock changes it is a day of 24 hours give or take the change. *)
Lemma dayBefore_bounds v zone t :
  Spec.offsetsVaryBy v zone ->
  t - msPerDay - v <= Spec.dayBefore zone t <= t - msPerDay + v.
Proof.
  intros H. unfold Spec.dayBefore, UTC, LocalTime.
  pose proof (H t true (t + LocalTZA zone t true - msPerDay) false).
  pose proof (H (t + LocalTZA zone t true - msPerDay) false t true). lia.
Qed.

Lemma daysBack_decrease zone :
  Spec.offsetsVaryBy 43200000 zone ->
  forall k i t, Spec.daysBack zone (i + k) t
                <= Spec.daysBack zone i t - Z.of_nat k * 43200000.
Proof.
  intros H. induction k as [|k IH]; intros i t.
  - rewrite Nat.add_0_r. lia.
  - rewrite Nat.add_succ_r, daysBack_succ.
    pose proof (dayBefore_bounds _ _ (Spec.daysBack zone (i + k) t) H) as B.
    specialize (IH i t). unfold msPerDay in B. lia.
Qed.

(** In local time the step is always one calendar day. *)
Lemma dayBefore_local_day zone t :
  Spec.keepsLocalDay zone ->
  Day (LocalTime zone (Spec.dayBefore zone t)) = Day (LocalTime zone t) - 1.
Proof.
  intros K. unfold Spec.dayBefore. rewrite K. unfold Day, msPerDay. zdiv.
Qed.

Lemma daysBack_local_day zone i :
  Spec.keepsLocalDay zone ->
  forall t, Day (LocalTime zone (Spec.daysBack zone i t))
            = Day (LocalTime zone t) - Z.of_nat i.
Proof.
  intros K. induction i as [|i IH]; intros t; cbn [Spec.daysBack]; [lia|].
  rewrite IH, dayBefore_local_day by exact K. lia.
Qed.

Lemma Day_back t k : Day (t - k * msPerDay) = Day t - k.
Proof. unfold Day, msPerDay. zdiv. Qed.

(** A time value is in the range of Date exactly when its day is at most
    100,000,000 days from the epoch (and, on the last day, at midnight). *)
Lemma valid_back t k :
  valid t -> 0 <= k -> (valid (t - k * msPerDay) <-> -100000000 <= Day t - k).
Proof. unfold valid, Day, maxTime, msPerDay. intros H Hk. split; intros; zdiv. Qed.

End Yesterday.

(** ** The backward walk of [getStreak] *)

Section Streak.
Import Calendar.

Implicit Types (m : gmap string OutfitEntry) (t s : Z) (n fuel : nat) (zone : TimeZone).

Lemma hasOutfit_key m t : hasOutfit m (isoDate t) = bool_decide (is_Some (m !! isoDate t)).
Proof. unfold hasOutfit. rewrite isoDate_not_inherited. apply orb_false_r. Qed.

Lemma streakLoop_more fuel fuel' zone m s d r :
  streakLoop fuel zone m s d = Some r -> (fuel <= fuel')%nat ->
  streakLoop fuel' zone m s d = Some r.
Proof.
  revert fuel' s d. induction fuel as [|fuel IH]; intros fuel' s d H L; [discriminate|].
  destruct fuel' as [|fuel']; [lia|]. cbn [streakLoop] in *.
  destruct (toDateKey d) as [key|e]; [|exact H].
  destruct (hasOutfit m key); [|exact H]. apply IH; [exact H|lia].
Qed.

(** One turn of the loop on a valid Date. *)
Lemma streakLoop_step fuel zone m s t :
  streakLoop (S fuel) zone m s (Some t)
  = if hasOutfit m (isoDate t)
    then streakLoop fuel zone m (s + 1) (TimeClip (Spec.dayBefore zone t))
    else Some (Normal s).
Proof. cbn [streakLoop]. rewrite toDateKey_valid, setDate_yesterday. reflexivity. Qed.

(** The loop counts while the key of the instant is present, and stops at
    the first miss. *)
Lemma streakLoop_miss n : forall fuel zone m s t,
  (forall i, (i < n)%nat -> hasOutfit m (isoDate (Spec.daysBack zone i t)) = true) ->
  (forall i, (i <= n)%nat -> valid (Spec.daysBack zone i t)) ->
  hasOutfit m (isoDate (Spec.daysBack zone n t)) = false ->
  (n < fuel)%nat ->
  streakLoop fuel zone m s (Some t) = Some (Normal (s + Z.of_nat n)).
Proof.
  induction n as [|n IH]; intros fuel zone m s t Hin Hv Hout Hf;
    (destruct fuel as [|fuel]; [lia|]); rewrite streakLoop_step.
  - cbn [Spec.daysBack] in Hout. rewrite Hout. do 2 f_equal. lia.
  - pose proof (Hin 0%nat ltac:(lia)) as H0. cbn [Spec.daysBack] in H0. rewrite H0.
    pose proof (Hv 1%nat ltac:(lia)) as H1. cbn [Spec.daysBack] in H1.
    rewrite (TimeClip_valid _ H1).
    rewrite (IH fuel zone m (s + 1) (Spec.dayBefore zone t)).
    + do 2 f_equal. lia.
    + intros i Hi. apply (Hin (S i)). lia.
    + intros i Hi. apply (Hv (S i)). lia.
    + exact Hout.
    + lia.
Qed.

(** When the walk leaves the range of Date before it meets a miss, the
    next [toISOString] throws. *)
Lemma streakLoop_throw n : forall fuel zone m s t,
  (forall i, (i <= n)%nat -> hasOutfit m (isoDate (Spec.daysBack zone i t)) = true) ->
  (forall i, (i <= n)%nat -> valid (Spec.daysBack zone i t)) ->
  ~ valid (Spec.daysBack zone (S n) t) ->
  (S n < fuel)%nat ->
  streakLoop fuel zone m s (Some t) = Some (Throw RangeError).
Proof.
  induction n as [|n IH]; intros fuel zone m s t Hin Hv Hout Hf;
    (destruct fuel as [|fuel]; [lia|]); rewrite streakLoop_step;
    pose proof (Hin 0%nat ltac:(lia)) as H0; cbn [Spec.daysBack] in H0; rewrite H0.
  - cbn [Spec.daysBack] in Hout. rewrite (TimeClip_invalid _ Hout).
    destruct fuel as [|fuel]; [lia|]. reflexivity.
  - pose proof (Hv 1%nat ltac:(lia)) as H1. cbn [Spec.daysBack] in H1.
    rewrite (TimeClip_valid _ H1). apply IH.
    + intros i Hi. apply (Hin (S i)). lia.
    + intros i Hi. apply (Hv (S i)). lia.
    + exact Hout.
    + lia.
Qed.

(** The result is never below the count the loop starts from. *)
Lemma streakLoop_lower fuel : forall zone m s d r,
  streakLoop fuel zone m s d = Some (Normal r) -> s <= r.
Proof.
  induction fuel as [|fuel IH]; intros zone m s d r H; [discriminate H|].
  cbn [streakLoop] in H. destruct (toDateKey d) as [key|e]; [|discriminate H].
  destruct (hasOutfit m key).
  - apply IH in H. lia.
  - injection H as <-. lia.
Qed.

Lemma hasOutfit_weaken (I J : gmap string OutfitEntry) key :
  J ⊆ I -> hasOutfit J key = true -> hasOutfit I key = true.
Proof.
  unfold hasOutfit. intros Hsub H. apply orb_true_iff in H as [H|H]; apply orb_true_iff;
    [left|right; exact H].
  apply bool_decide_eq_true in H as [o Ho]. apply bool_decide_eq_true.
  exists o. exact (lookup_weaken _ _ _ _ Ho Hsub).
Qed.

(** Fewer entries, shorter walk: whatever the step of the walk. *)
Lemma streakLoop_monotone fuel : forall zone (I J : gmap string OutfitEntry) s d nI,
  J ⊆ I ->
  streakLoop fuel zone I s d = Some (Normal nI) ->
  exists nJ, streakLoop fuel zone J s d = Some (Normal nJ) /\ s <= nJ <= nI.
Proof.
  induction fuel as [|fuel IH]; intros zone I J s d nI Hsub H; [discriminate H|].
  cbn [streakLoop] in *. destruct (toDateKey d) as [key|e]; [|discriminate H].
  destruct (hasOutfit J key) eqn:HJ.
  - rewrite (hasOutfit_weaken I J key Hsub HJ) in H.
    destruct (IH _ _ _ _ _ _ Hsub H) as (nJ & E & B). exists nJ. split; [exact E|lia].
  - exists s. split; [reflexivity|].
    destruct (hasOutfit I key); [apply streakLoop_lower in H; lia|].
    injection H as <-. lia.
Qed.

(** In a zone whose offsets vary by at most twelve hours every step of
    the walk goes back at least twelve hours, so the walk from a valid
    Date ends: after [n] present instants it meets a miss, or leaves the
    range of Date. *)
Lemma streak_run zone m (K : nat) :
  Spec.offsetsVaryBy 43200000 zone ->
  forall t, valid t -> t + maxTime < Z.of_nat K * 43200000 ->
  exists n,
    (forall i, (i < n)%nat -> hasOutfit m (isoDate (Spec.daysBack zone i t)) = true) /\
    (forall i, (i < n)%nat -> valid (Spec.daysBack zone i t)) /\
    (valid (Spec.daysBack zone n t) /\ hasOutfit m (isoDate (Spec.daysBack zone n t)) = false
     \/ ~ valid (Spec.daysBack zone n t) /\ (0 < n)%nat).
Proof.
  intros Hz. induction K as [|K IH]; intros t Hv HK.
  - unfold valid in Hv. lia.
  - destruct (hasOutfit m (isoDate t)) eqn:Ht.
    + destruct (valid_dec (Spec.dayBefore zone t)) as [Hv'|Hv'].
      * destruct (IH (Spec.dayBefore zone t) Hv') as (n & Hin & Hval & Hend).
        { pose proof (dayBefore_bounds _ _ t Hz) as B. unfold msPerDay in B. lia. }
        exists (S n). split; [|split].
        -- intros [|i] Hi; [exact Ht|]. apply Hin. lia.
        -- intros [|i] Hi; [exact Hv|]. apply Hval. lia.
        -- destruct Hend as [H|[H _]]; [left; exact H|right; split; [exact H|lia]].
      * exists 1%nat. split; [|split].
        -- intros i Hi. assert (i = 0%nat) as -> by lia. exact Ht.
        -- intros i Hi. assert (i = 0%nat) as -> by lia. exact Hv.
        -- right. split; [exact Hv'|lia].
    + exists 0%nat. split; [|split]; try (intros; lia). left. auto.
Qed.

(** Instants on pairwise different UTC days whose keys are in the index:
    there are at most [size m] of them. *)
Lemma distinct_days_size m (f : nat -> Z) (k : nat) :
  (forall j, (j < k)%nat -> valid (f j) /\ hasOutfit m (isoDate (f j)) = true) ->
  (forall j j', (j < j')%nat -> (j' < k)%nat -> Day (f j') < Day (f j)) ->
  (k <= size m)%nat.
Proof.
  intros Hin Hdec.
  set (keys := (fun j => isoDate (f j)) <$> seq 0 k).
  assert (Hnd : NoDup keys).
  { subst keys. apply NoDup_fmap_2_strong; [|apply NoDup_seq].
    intros i j Hi Hj E. apply elem_of_seq in Hi, Hj.
    apply isoDate_inj in E; [|apply Hin; lia..].
    destruct (Nat.lt_trichotomy i j) as [L|[L|L]]; [|exact L|].
    - pose proof (Hdec i j L ltac:(lia)). lia.
    - pose proof (Hdec j i L ltac:(lia)). lia. }
  assert (Hsub : keys ⊆+ (map_to_list m).*1).
  { apply NoDup_submseteq; [exact Hnd|]. intros key Hk. subst keys.
    apply list_elem_of_fmap in Hk as (i & -> & Hi). apply elem_of_seq in Hi.
    destruct (Hin i ltac:(lia)) as [_ Hp]. rewrite hasOutfit_key in Hp.
    apply bool_decide_eq_true in Hp as [o Ho].
    apply list_elem_of_fmap. exists (isoDate (f i), o). split; [reflexivity|].
    apply elem_of_map_to_list. exact Ho. }
  apply submseteq_length in Hsub.
  rewrite length_fmap, length_map_to_list in Hsub.
  subst keys. rewrite length_fmap, length_seq in Hsub. exact Hsub.
Qed.

Lemma Day_le_back a b k : b <= a - k * msPerDay -> Day b <= Day a - k.
Proof. unfold Day, msPerDay. intros H. zdiv. Qed.

(** Two steps of the walk go back at least a whole day, so that every
    second instant is on a UTC day of its own: the present instants are
    at most twice as many as the entries of the index. *)
Lemma streak_run_size zone m t n :
  Spec.offsetsVaryBy 43200000 zone ->
  (forall i, (i < n)%nat -> hasOutfit m (isoDate (Spec.daysBack zone i t)) = true) ->
  (forall i, (i < n)%nat -> valid (Spec.daysBack zone i t)) ->
  (n <= 2 * size m)%nat.
Proof.
  intros Hz Hin Hv.
  destruct (Nat.le_gt_cases n (2 * size m)) as [L|G]; [exact L|exfalso].
  assert (S (size m) <= size m)%nat; [|lia].
  apply (distinct_days_size m (fun j => Spec.daysBack zone (2 * j) t)).
  - intros j Hj. split; [apply Hv|apply Hin]; lia.
  - intros j j' Hlt Hj'.
    pose proof (daysBack_decrease zone Hz (2 * (j' - j)) (2 * j) t) as D.
    replace (2 * j + 2 * (j' - j))%nat with (2 * j')%nat in D by lia.
    assert (B : Spec.daysBack zone (2 * j') t
                <= Spec.daysBack zone (2 * j) t - Z.of_nat (j' - j) * msPerDay)
      by (unfold msPerDay; lia).
    apply Day_le_back in B. lia.
Qed.

(** Without clock changes every instant of the walk is on a UTC day of
    its own. *)
Lemma streak_run_size_steady zone m t n :
  Spec.offsetsVaryBy 0 zone ->
  (forall i, (i < n)%nat -> hasOutfit m (isoDate (Spec.daysBack zone i t)) = true) ->
  (forall i, (i < n)%nat -> valid (Spec.daysBack zone i t)) ->
  (n <= size m)%nat.
Proof.
  intros Hz Hin Hv.
  apply (distinct_days_size m (fun j => Spec.daysBack zone j t)).
  - intros j Hj. split; [apply Hv|apply Hin]; lia.
  - intros j j' Hlt Hj'. rewrite !daysBack_steady by exact Hz.
    rewrite !Day_back. lia.
Qed.

(** Every walk from a valid Date has one of two outcomes, reached within
    [n + 1] turns of the loop. *)
Lemma streak_outcome zone m t :
  Spec.offsetsVaryBy 43200000 zone -> valid t ->
  exists n,
    (n <= 2 * size m)%nat /\
    (Spec.offsetsVaryBy 0 zone -> (n <= size m)%nat) /\
    (forall i, (i < n)%nat -> hasOutfit m (isoDate (Spec.daysBack zone i t)) = true) /\
    (forall i, (i < n)%nat -> valid (Spec.daysBack zone i t)) /\
    (valid (Spec.daysBack zone n t) /\
     hasOutfit m (isoDate (Spec.daysBack zone n t)) = false /\
       (forall fuel s, (n < fuel)%nat ->
          streakLoop fuel zone m s (Some t) = Some (Normal (s + Z.of_nat n)))
     \/
     ~ valid (Spec.daysBack zone n t) /\ (0 < n)%nat /\
       (forall fuel s, (n < fuel)%nat ->
          streakLoop fuel zone m s (Some t) = Some (Throw RangeError))).
Proof.
  intros Hz Hv.
  destruct (streak_run zone m (Z.to_nat ((t + maxTime) / 43200000 + 1)) Hz t Hv)
    as (n & Hin & Hval & Hend).
  { unfold valid, maxTime in *. rewrite Z2Nat.id by zdiv. zdiv. }
  exists n. split; [apply (streak_run_size zone m t n Hz Hin Hval)|].
  split; [intros H0; apply (streak_run_size_steady zone m t n H0 Hin Hval)|].
  split; [exact Hin|]. split; [exact Hval|].
  destruct Hend as [[Hvn Hmiss]|[Hinv Hpos]].
  - left. split; [exact Hvn|]. split; [exact Hmiss|]. intros fuel s Hf.
    apply streakLoop_miss; auto.
    intros i Hi. destruct (decide (i = n)) as [->|]; [exact Hvn|apply Hval; lia].
  - right. split; [exact Hinv|]. split; [exact Hpos|].
    destruct n as [|n]; [lia|]. intros fuel s Hf.
    apply (streakLoop_throw n); auto with lia.
Qed.

End Streak.

(** ** Time zones of the examples *)

Section Zones.

Lemma fixedOffset_keepsLocalDay tz : Spec.keepsLocalDay (fixedOffset tz).
Proof. intros t. unfold LocalTime, UTC. cbn [LocalTZA fixedOffset]. f_equal. lia. Qed.

Lemma fixedOffset_within b tz : Z.abs tz <= b -> Spec.offsetsWithin b (fixedOffset tz).
Proof. intros H t isUTC. exact H. Qed.

Lemma newYork_within : Spec.offsetsWithin msPerDay Examples.newYork.
Proof.
  intros t isUTC. unfold Examples.newYork. cbn [LocalTZA].
  destruct isUTC; destruct (_ && _); vm_compute; discriminate.
Qed.

Lemma newYork_varies : Spec.offsetsVaryBy 43200000 Examples.newYork.
Proof.
  intros t b t' b'. unfold Examples.newYork. cbn [LocalTZA].
  destruct b, b'; repeat destruct (_ && _); lia.
Qed.

(** The clock changes of New York happen at 02:00: a local time read as
    an instant and back stays on its calendar day. *)
Lemma newYork_keepsLocalDay : Spec.keepsLocalDay Examples.newYork.
Proof.
  intros t. unfold LocalTime, UTC, Examples.newYork. cbn [LocalTZA].
  destruct (Z.leb_spec 1741489200000 t), (Z.ltb_spec t 1762048800000); cbn [andb];
    match goal with
    | |- context [(?a <=? ?x) && (?x <? ?b)] =>
        destruct (Z.leb_spec a x), (Z.ltb_spec x b)
    end; cbn [andb]; unfold Day, msPerDay; zdiv.
Qed.

(** A zone that skips a whole day does not keep local days: the
    constructor, asked for 30 December 2011 in Apia, gives the 31st. *)
Lemma apia_skips_a_day :
  ~ Spec.keepsLocalDay Examples.apia /\
  getDate Examples.apia (construct Examples.apia 2011 11 30) = Some 31.
Proof.
  split; [|vm_compute; reflexivity].
  intros K. specialize (K 1325203200000). vm_compute in K. discriminate K.
Qed.

End Zones.

(** * The claims about [getStreak] *)

Section StreakClaims.
Import Calendar.

Implicit Types (m : gmap string OutfitEntry) (o : OutfitEntry) (zone : TimeZone).

Lemma now_valid clock : valid clock -> now clock = Some clock.
Proof. apply TimeClip_valid. Qed.

Lemma present_iff m t : hasOutfit m (isoDate t) = true <-> is_Some (m !! isoDate t).
Proof. rewrite hasOutfit_key. apply bool_decide_eq_true. Qed.

Lemma absent_iff m t : hasOutfit m (isoDate t) = false <-> m !! isoDate t = None.
Proof.
  rewrite hasOutfit_key, bool_decide_eq_false. rewrite <- eq_None_not_Some. reflexivity.
Qed.

Lemma getStreak_returns_valid fuel zone clock m r :
  getStreak fuel zone clock m = Some (Normal r) -> valid clock.
Proof.
  intros H. destruct (valid_dec clock) as [Hv|Hv]; [exact Hv|].
  unfold getStreak, now, copy in H. rewrite TimeClip_invalid in H by exact Hv.
  destruct fuel; discriminate H.
Qed.

(** C2 at the failing input.  In New York at 21:00 on 12 June 2025 the
    screen reads today as 12 June ([getFullYear], [getMonth], [getDate]),
    and the index has entries exactly for 10, 11 and 12 June; but
    [toDateKey] gives today the key of 13 June and [getStreak] answers 0,
    not 3.  At noon of the same day it answers 3, and 1 without the entry
    of 11 June.  Across a clock change a day is skipped: from 19:30 on
    2 November 2025 the walk checks the keys of 3 November and of
    1 November, never that of 2 November, and [getStreak] answers 2 for an
    index that has no entry for 2 November. *)
Theorem getStreak_misses_local_today :
  (getFullYear Examples.newYork (now Examples.juneEveningNewYork) = Some 2025 /\
   getMonth Examples.newYork (now Examples.juneEveningNewYork) = Some 5 /\
   getDate Examples.newYork (now Examples.juneEveningNewYork) = Some 12 /\
   toDateKey (now Examples.juneEveningNewYork) = Normal "2025-06-13"%string /\
   getStreak 4 Examples.newYork Examples.juneEveningNewYork Examples.juneIndex
   = Some (Normal 0)) /\
  (getDate Examples.newYork (now Examples.juneNoonNewYork) = Some 12 /\
   getStreak 4 Examples.newYork Examples.juneNoonNewYork Examples.juneIndex
   = Some (Normal 3) /\
   getStreak 4 Examples.newYork Examples.juneNoonNewYork
             (delete "2025-06-11"%string Examples.juneIndex)
   = Some (Normal 1)) /\
  (getDate Examples.newYork (now Examples.novemberClock) = Some 2 /\
   Examples.novemberIndex !! "2025-11-02"%string = None /\
   toDateKey (now Examples.novemberClock) = Normal "2025-11-03"%string /\
   toDateKey (Some (Spec.dayBefore Examples.newYork Examples.novemberClock))
   = Normal "2025-11-01"%string /\
   getStreak 4 Examples.newYork Examples.novemberClock Examples.novemberIndex
   = Some (Normal 2)).
Proof. repeat split; vm_compute; reflexivity. Qed.

(** The walk of [getStreak], in any time zone.  The instants checked are
    the clock reading and, step by step, the same local time of day one
    local calendar day earlier ([Spec.daysBack]); each is looked up under
    the key of its UTC day.  When the keys of the first [n] instants are
    in the index and the key of the next one is not, the result is [n],
    whatever lies further back; in particular it is 0 when the key of the
    clock reading is missing.  The instants are one local calendar day
    apart when the zone keeps local days, and exactly 24 hours apart when
    its clocks never change. *)
Theorem getStreak_walk zone clock m (n : nat) fuel :
  (forall i, (i < n)%nat -> is_Some (m !! isoDate (Spec.daysBack zone i clock))) ->
  (forall i, (i <= n)%nat -> valid (Spec.daysBack zone i clock)) ->
  m !! isoDate (Spec.daysBack zone n clock) = None ->
  (n < fuel)%nat ->
  getStreak fuel zone clock m = Some (Normal (Z.of_nat n)) /\
  (Spec.keepsLocalDay zone ->
   forall i : nat, Day (LocalTime zone (Spec.daysBack zone i clock))
                   = Day (LocalTime zone clock) - Z.of_nat i) /\
  (Spec.offsetsVaryBy 0 zone ->
   forall i : nat, Spec.daysBack zone i clock = clock - Z.of_nat i * msPerDay).
Proof.
  intros Hin Hv Hmiss Hf. split; [|split].
  - unfold getStreak, copy. rewrite now_valid by (apply (Hv 0%nat); lia).
    rewrite (streakLoop_miss n fuel zone m 0 clock); [reflexivity| |exact Hv| |exact Hf].
    + intros i Hi. apply present_iff, Hin, Hi.
    + apply absent_iff, Hmiss.
  - intros K i. apply daysBack_local_day, K.
  - intros H0 i. apply daysBack_steady, H0.
Qed.

Lemma getStreak_walk_witness :
  getStreak 3 Examples.newYork Examples.novemberClock Examples.novemberIndex
  = Some (Normal 2) /\
  Day (LocalTime Examples.newYork (Spec.daysBack Examples.newYork 2 Examples.novemberClock))
  = Day (LocalTime Examples.newYork Examples.novemberClock) - 2.
Proof.
  destruct (getStreak_walk Examples.newYork Examples.novemberClock Examples.novemberIndex
              2 3) as (A & B & _).
  - intros i Hi. destruct i as [|[|i]]; [vm_compute; eauto..|lia].
  - intros i Hi. destruct i as [|[|[|i]]]; [unfold valid; vm_compute; discriminate..|lia].
  - vm_compute. reflexivity.
  - lia.
  - split; [exact A|]. exact (B newYork_keepsLocalDay 2%nat).
Defined.

(** C7.  Removing entries from the index never increases the streak: when
    [getStreak] returns [nI] on the index [I], it returns some [nJ <= nI]
    on every sub-index [J] of [I], for the same today; and with today's
    own entry removed it returns 0. *)
Theorem getStreak_monotone zone clock (I J : gmap string OutfitEntry) fuel nI :
  J ⊆ I ->
  getStreak fuel zone clock I = Some (Normal nI) ->
  (exists nJ, getStreak fuel zone clock J = Some (Normal nJ) /\ 0 <= nJ <= nI) /\
  getStreak fuel zone clock (delete (isoDate clock) I) = Some (Normal 0).
Proof.
  intros Hsub HI. pose proof (getStreak_returns_valid _ _ _ _ _ HI) as Hv.
  unfold getStreak, copy in *. rewrite now_valid in * by exact Hv. split.
  - apply (streakLoop_monotone fuel zone I J 0 (Some clock) nI Hsub HI).
  - destruct fuel as [|fuel]; [discriminate HI|]. rewrite streakLoop_step.
    assert (A : hasOutfit (delete (isoDate clock) I) (isoDate clock) = false)
      by apply absent_iff, lookup_delete_eq.
    rewrite A. reflexivity.
Qed.

Lemma getStreak_monotone_witness :
  delete "2025-06-11"%string Examples.juneIndex ⊆ Examples.juneIndex /\
  getStreak 4 Examples.newYork Examples.juneNoonNewYork Examples.juneIndex
  = Some (Normal 3) /\
  (exists nJ,
     getStreak 4 Examples.newYork Examples.juneNoonNewYork
               (delete "2025-06-11"%string Examples.juneIndex)
     = Some (Normal nJ) /\ 0 <= nJ <= 3).
Proof.
  assert (Hsub : delete "2025-06-11"%string Examples.juneIndex ⊆ Examples.juneIndex)
    by apply delete_subseteq.
  assert (HI : getStreak 4 Examples.newYork Examples.juneNoonNewYork Examples.juneIndex
               = Some (Normal 3))
    by (vm_compute; reflexivity).
  split; [exact Hsub|]. split; [exact HI|].
  exact (proj1 (getStreak_monotone Examples.newYork Examples.juneNoonNewYork _ _ 4 3 Hsub HI)).
Defined.

(** C10 at the failing input.  The index has one entry, for 2025-03-09.
    In New York at 19:30 on 9 March 2025, the day the clocks go forward,
    the walk steps from 9 March 19:30 (23:30 UTC) to 8 March 19:30
    (00:30 UTC of 9 March): both instants get the key 2025-03-09, and
    [getStreak] counts 2 days with a single indexed outfit. *)
Theorem getStreak_counts_a_day_twice :
  size Examples.marchNinthIndex = 1%nat /\
  getDate Examples.newYork (now Examples.marchNinthEvening) = Some 9 /\
  getDate Examples.newYork (Some (Spec.dayBefore Examples.newYork Examples.marchNinthEvening))
  = Some 8 /\
  toDateKey (now Examples.marchNinthEvening) = Normal "2025-03-09"%string /\
  toDateKey (Some (Spec.dayBefore Examples.newYork Examples.marchNinthEvening))
  = Normal "2025-03-09"%string /\
  getStreak 3 Examples.newYork Examples.marchNinthEvening Examples.marchNinthIndex
  = Some (Normal 2).
Proof. repeat split; vm_compute; reflexivity. Qed.

(** Termination of [getStreak].  In a zone whose offsets differ by at
    most twelve hours, from a valid today the loop ends within
    [2 * size m + 1] turns.  It returns a number between 0 and twice the
    number of entries of the index (a UTC day can be met twice across a
    clock change), at most the number of entries when the clocks of the
    zone never change; or else the walk has left the range of Date with
    every key on its way in the index, and the call ends with the
    RangeError of [toISOString]. *)
Theorem getStreak_ends zone clock m fuel :
  Spec.offsetsVaryBy 43200000 zone -> valid clock -> (2 * size m < fuel)%nat ->
  exists r,
    getStreak fuel zone clock m = Some r /\
    match r with
    | Normal n =>
        0 <= n <= 2 * Z.of_nat (size m) /\
        (Spec.offsetsVaryBy 0 zone -> n <= Z.of_nat (size m))
    | Throw e =>
        e = RangeError /\
        exists k : nat,
          ~ valid (Spec.daysBack zone k clock) /\
          forall i, (i < k)%nat -> is_Some (m !! isoDate (Spec.daysBack zone i clock))
    end.
Proof.
  intros Hz Hv Hf. unfold getStreak, copy. rewrite now_valid by exact Hv.
  destruct (streak_outcome zone m clock Hz Hv)
    as (n & Hsz & Hsz0 & Hin & _ & [(_ & _ & Hr)|(Hinv & _ & Hr)]).
  - exists (Normal (0 + Z.of_nat n)). split; [apply Hr; lia|].
    split; [lia|]. intros H0. specialize (Hsz0 H0). lia.
  - exists (Throw RangeError). split; [apply Hr; lia|].
    split; [reflexivity|]. exists n. split; [exact Hinv|].
    intros i Hi. apply present_iff, Hin, Hi.
Qed.

Lemma getStreak_ends_witness :
  valid Examples.marchNinthEvening /\
  (2 * size Examples.marchNinthIndex < 3)%nat /\
  exists r,
    getStreak 3 Examples.newYork Examples.marchNinthEvening Examples.marchNinthIndex
    = Some r /\
    match r with
    | Normal n =>
        0 <= n <= 2 * Z.of_nat (size Examples.marchNinthIndex) /\
        (Spec.offsetsVaryBy 0 Examples.newYork ->
         n <= Z.of_nat (size Examples.marchNinthIndex))
    | Throw e =>
        e = RangeError /\
        exists k : nat,
          ~ valid (Spec.daysBack Examples.newYork k Examples.marchNinthEvening) /\
          forall i, (i < k)%nat ->
            is_Some (Examples.marchNinthIndex
                       !! isoDate (Spec.daysBack Examples.newYork i Examples.marchNinthEvening))
    end.
Proof.
  assert (Hv : valid Examples.marchNinthEvening) by (unfold valid; vm_compute; discriminate).
  assert (Hf : (2 * size Examples.marchNinthIndex < 3)%nat) by (vm_compute; lia).
  split; [exact Hv|]. split; [exact Hf|].
  exact (getStreak_ends Examples.newYork Examples.marchNinthEvening
           Examples.marchNinthIndex 3 newYork_varies Hv Hf).
Defined.

End StreakClaims.

(** * The claim about [toDateKey] *)

Section DateKeyClaims.
Import Calendar.

(** The key is the UTC calendar day: two valid Dates have equal keys
    exactly when their UTC fields agree, whatever the time of day. *)
Lemma toDateKey_same_UTC_day t1 t2 :
  valid t1 -> valid t2 ->
  (toDateKey (Some t1) = toDateKey (Some t2)
   <-> Spec.sameCalendarDay (fixedOffset 0) (Some t1) (Some t2)).
Proof.
  intros H1 H2. rewrite !toDateKey_valid. unfold Spec.sameCalendarDay.
  cbn [getFullYear getMonth getDate fmap option_fmap option_map]. unfold LocalTime.
  cbn [LocalTZA fixedOffset]. rewrite !Z.add_0_r. split.
  - intros E. injection E as E. apply isoDate_inj in E; [|assumption..].
    unfold DateFromTime, MonthFromTime, InLeapYear, DayWithinYear, YearFromTime.
    rewrite E. auto.
  - intros (Ey & Em & Ed). injection Ey as Ey. injection Em as Em. injection Ed as Ed.
    f_equal. apply isoDate_Day.
    rewrite <- (MakeDay_fields t1), <- (MakeDay_fields t2), Ey, Em, Ed. reflexivity.
Qed.

(** C1 at the failing input.  In a zone two hours east of Greenwich, 00:30
    and 12:00 of 12 June 2025 are the same calendar day for the screen
    ([getFullYear], [getMonth] and [getDate] agree), yet [toDateKey] gives
    them the keys of two different days and [isSameDay] answers false; and
    the grid cell built for 12 June gets the key of 11 June. *)
Theorem toDateKey_splits_a_local_day :
  Spec.sameCalendarDay (fixedOffset Examples.eastTz) Examples.halfPastMidnight Examples.noon /\
  getDate (fixedOffset Examples.eastTz) Examples.halfPastMidnight = Some 12 /\
  toDateKey Examples.halfPastMidnight = Normal "2025-06-11"%string /\
  toDateKey Examples.noon = Normal "2025-06-12"%string /\
  isSameDay Examples.halfPastMidnight Examples.noon = Normal false /\
  getDate (fixedOffset Examples.eastTz) (construct (fixedOffset Examples.eastTz) 2025 5 12)
  = Some 12 /\
  toDateKey (construct (fixedOffset Examples.eastTz) 2025 5 12) = Normal "2025-06-11"%string.
Proof. repeat split; vm_compute; reflexivity. Qed.

End DateKeyClaims.

(** * The claim about [getMonthGrid] *)

Section MonthGrid.
Import Calendar.

Lemma while_pad (k : nat) : forall fuel (grid : list gridCell),
  Z.of_nat k = (7 - Z.of_nat (length grid) mod 7) mod 7 ->
  (k <= fuel)%nat ->
  while fuel (fun grid => negb (Z.of_nat (length grid) mod 7 =? 0))
        (fun grid => grid ++ [null]) grid
  = Some (grid ++ replicate k null).
Proof.
  induction k as [|k IH]; intros fuel grid Hk Hf.
  - destruct fuel; cbn [while];
      (destruct (Z.eqb_spec (Z.of_nat (length grid) mod 7) 0) as [E|E];
       [cbn [negb replicate]; rewrite app_nil_r; reflexivity | exfalso; zdiv]).
  - destruct fuel as [|fuel]; [lia|]. cbn [while].
    destruct (Z.eqb_spec (Z.of_nat (length grid) mod 7) 0) as [E|E]; [exfalso; zdiv|].
    cbn [negb]. rewrite IH.
    + rewrite <- app_assoc. reflexivity.
    + rewrite length_app. cbn [length]. rewrite Nat2Z.inj_add. zdiv.
    + lia.
Qed.

(** Whatever the arguments, six turns of the padding loop are enough and
    the length of the grid is a multiple of 7. *)
Lemma getMonthGrid_multiple_of_7 fuel zone year month :
  (6 <= fuel)%nat ->
  exists grid, getMonthGrid fuel zone year month = Some grid /\
               Z.of_nat (length grid) mod 7 = 0.
Proof.
  intros Hf. unfold getMonthGrid. cbv zeta.
  match goal with |- context [while _ _ _ ?g] => set (grid := g) end.
  set (k := Z.to_nat ((7 - Z.of_nat (length grid) mod 7) mod 7)).
  assert (Hk : Z.of_nat k = (7 - Z.of_nat (length grid) mod 7) mod 7) by (subst k; zdiv).
  exists (grid ++ replicate k null). split.
  - apply while_pad; [exact Hk|]. assert (Z.of_nat k <= 6) by zdiv. lia.
  - rewrite length_app, length_replicate, Nat2Z.inj_add. zdiv.
Qed.

Lemma MakeDay_normal y month dt :
  MakeDay y month dt = MakeDay (y + month / 12) (month mod 12) dt.
Proof.
  unfold MakeDay. cbv zeta.
  assert (0 <= month mod 12 < 12) by (apply Z.mod_pos_bound; lia).
  rewrite (Z.div_small (month mod 12)), (Z.mod_small (month mod 12)), Z.add_0_r by lia.
  reflexivity.
Qed.

(** Day 0 of the next month is the last day of this one. *)
Lemma MakeDay_last y month :
  MakeDay y (month + 1) 0
  = MakeDay (y + month / 12) (month mod 12)
            (daysInMonth (y + month / 12) (month mod 12 + 1)).
Proof.
  assert (Hm : 0 <= month mod 12 < 12) by (apply Z.mod_pos_bound; lia).
  unfold MakeDay, daysInMonth. cbv zeta.
  rewrite (Z.div_small (month mod 12)), (Z.mod_small (month mod 12)), !Z.add_0_r by lia.
  replace (month mod 12 + 1 - 1) with (month mod 12) by lia.
  destruct (Z.eq_dec (month mod 12) 11) as [E|E].
  - assert ((month + 1) / 12 = month / 12 + 1) as -> by zdiv.
    assert ((month + 1) mod 12 = 0) as -> by zdiv.
    rewrite E. change (11 + 1) with 12. cbn [monthStart].
    replace (y + (month / 12 + 1)) with (y + month / 12 + 1) by lia.
    rewrite DayFromYear_step.
    pose proof (DaysInYear_cases (y + month / 12)). lia.
  - assert ((month + 1) / 12 = month / 12) as -> by zdiv.
    assert ((month + 1) mod 12 = month mod 12 + 1) as -> by zdiv.
    lia.
Qed.

Lemma leapDays_isLeapYear y : leapDays y = if Spec.isLeapYear y then 1 else 0.
Proof.
  unfold leapDays, DaysInYear, Spec.isLeapYear.
  destruct (y mod 4 =? 0), (y mod 100 =? 0), (y mod 400 =? 0); reflexivity.
Qed.

Lemma daysInMonth_monthLength y m :
  0 <= m <= 11 -> daysInMonth y (m + 1) = Spec.monthLength y m.
Proof.
  intros Hm. unfold daysInMonth, Spec.monthLength.
  replace (m + 1 - 1) with m by lia. rewrite leapDays_isLeapYear.
  assert (Hc : m = 0 \/ m = 1 \/ m = 2 \/ m = 3 \/ m = 4 \/ m = 5 \/ m = 6 \/
               m = 7 \/ m = 8 \/ m = 9 \/ m = 10 \/ m = 11) by lia.
  repeat destruct Hc as [Hc|Hc]; subst m; month_table;
    destruct (Spec.isLeapYear y); reflexivity.
Qed.

Lemma monthLength_range y m : 28 <= Spec.monthLength y m <= 31.
Proof.
  unfold Spec.monthLength.
  destruct (m =? 1), (Spec.isLeapYear y), ((m =? 3) || (m =? 5) || (m =? 8) || (m =? 10));
    lia.
Qed.

Lemma YearFromTime_Day t : YearFromTime t = YearFromDay (Day t).
Proof. reflexivity. Qed.

Lemma Day_of_midnight day : Day (day * msPerDay) = day.
Proof. unfold Day, msPerDay. zdiv. Qed.

Lemma DayFromYear_first : DayFromYear (-271820) = -99999744.
Proof. vm_compute. reflexivity. Qed.

Lemma DayFromYear_last : DayFromYear 275760 = 99999744.
Proof. vm_compute. reflexivity. Qed.

Lemma MakeDay_bounds y m d :
  -271820 <= y <= 275759 -> 0 <= m <= 11 -> 1 <= d <= daysInMonth y (m + 1) ->
  -99999999 <= MakeDay y m d <= 99999999.
Proof.
  intros Hy Hm Hd.
  destruct (fields_MakeDay y m d (MakeDay y m d * msPerDay) Hm Hd (Day_of_midnight _))
    as (FY & _ & _).
  pose proof (YearFromDay_spec (MakeDay y m d)) as S.
  rewrite YearFromTime_Day, Day_of_midnight in FY. rewrite FY in S.
  pose proof (DayFromYear_le (-271820) y ltac:(lia)) as Lo.
  pose proof (DayFromYear_le (y + 1) 275760 ltac:(lia)) as Hi.
  rewrite DayFromYear_first in Lo. rewrite DayFromYear_last in Hi.
  clear -S Lo Hi. revert S Lo Hi.
  generalize (MakeDay y m d) (DayFromYear y) (DayFromYear (y + 1)). intros. lia.
Qed.

Lemma valid_local_midnight zone day :
  Spec.offsetsWithin msPerDay zone -> -99999999 <= day <= 99999999 ->
  valid (UTC zone (day * msPerDay)).
Proof.
  intros Hz Hd. pose proof (Hz (day * msPerDay) false) as B.
  unfold valid, UTC, maxTime, msPerDay in *. lia.
Qed.

(** A day of a month that lies in the range of Date: the constructor
    gives a valid Date whose local fields are the ones asked for. *)
Lemma construct_day zone y m d :
  Spec.offsetsWithin msPerDay zone -> Spec.keepsLocalDay zone ->
  -271820 <= y <= 275759 -> 0 <= m <= 11 ->
  1 <= d <= daysInMonth y (m + 1) ->
  exists t,
    TimeClip (UTC zone (MakeDate (MakeDay y m d) (MakeTime 0 0 0 0))) = Some t /\
    Day (LocalTime zone t) = MakeDay y m d /\
    getFullYear zone (Some t) = Some y /\ getMonth zone (Some t) = Some m /\
    getDate zone (Some t) = Some d.
Proof.
  intros Hz Hk Hy Hm Hd.
  pose proof (MakeDay_bounds y m d Hy Hm Hd) as Hb.
  assert (F : forall t, Day t = MakeDay y m d ->
            YearFromTime t = y /\ MonthFromTime t = m /\ DateFromTime t = d)
    by (intros t Ht; apply fields_MakeDay; assumption).
  generalize dependent (MakeDay y m d). intros day Hb F.
  exists (UTC zone (day * msPerDay)).
  assert (L : Day (LocalTime zone (UTC zone (day * msPerDay))) = day)
    by (rewrite Hk; apply Day_of_midnight).
  destruct (F (LocalTime zone (UTC zone (day * msPerDay))) L) as (FY & FM & FD).
  split; [|split; [|split; [|split]]].
  - assert (U : MakeDate day (MakeTime 0 0 0 0) = day * msPerDay)
      by (unfold MakeDate, MakeTime; lia).
    rewrite U. apply TimeClip_valid, valid_local_midnight; assumption.
  - exact L.
  - unfold getFullYear. cbn [fmap option_fmap option_map]. rewrite FY. reflexivity.
  - unfold getMonth. cbn [fmap option_fmap option_map]. rewrite FM. reflexivity.
  - unfold getDate. cbn [fmap option_fmap option_map]. rewrite FD. reflexivity.
Qed.

Lemma construct_normal zone year month d :
  construct zone year month d
  = TimeClip (UTC zone (MakeDate (MakeDay (MakeFullYear year + month / 12) (month mod 12) d)
                               (MakeTime 0 0 0 0))).
Proof. unfold construct. rewrite MakeDay_normal. reflexivity. Qed.

Lemma construct_last zone year month :
  construct zone year (month + 1) 0
  = TimeClip (UTC zone (MakeDate
      (MakeDay (MakeFullYear year + month / 12) (month mod 12)
               (daysInMonth (MakeFullYear year + month / 12) (month mod 12 + 1)))
      (MakeTime 0 0 0 0))).
Proof. unfold construct. rewrite MakeDay_last. reflexivity. Qed.

Lemma getMonthGrid_in_range zone year month fuel :
  (6 <= fuel)%nat -> Spec.offsetsWithin msPerDay zone -> Spec.keepsLocalDay zone ->
  -271820 <= MakeFullYear year + month / 12 <= 275759 ->
  getMonthGrid fuel zone year month
  = Some (Spec.monthGrid
            (Spec.weekdayOfFirst (MakeFullYear year + month / 12) (month mod 12))
            (Spec.monthLength (MakeFullYear year + month / 12) (month mod 12))
            (fun d => dateCell (construct zone year month d))).
Proof.
  intros Hf Hz Hk Hy.
  set (y := MakeFullYear year + month / 12) in *. set (m := month mod 12).
  assert (Hm : 0 <= m <= 11) by (subst m; pose proof (Z.mod_pos_bound month 12); lia).
  pose proof (monthLength_range y m) as Hn.
  pose proof (daysInMonth_monthLength y m Hm) as Hdim.
  destruct (construct_day zone y m 1 Hz Hk Hy Hm ltac:(lia)) as (t1 & C1 & D1 & _).
  destruct (construct_day zone y m (daysInMonth y (m + 1)) Hz Hk Hy Hm ltac:(lia))
    as (tn & Cn & _ & _ & _ & Gn).
  unfold getMonthGrid. cbv zeta.
  rewrite (construct_normal zone year month 1). fold y m. rewrite C1.
  rewrite construct_last. fold y m. rewrite Cn, Gn.
  assert (W : getDay zone (Some t1) = Some (Spec.weekdayOfFirst y m)).
  { cbn [getDay fmap option_fmap option_map]. f_equal.
    unfold Spec.weekdayOfFirst, WeekDay. rewrite D1. f_equal. f_equal.
    unfold MakeDate, Day, msPerDay. zdiv. }
  rewrite W, Hdim. cbn [countTo app].
  assert (Hw : 0 <= Spec.weekdayOfFirst y m < 7)
    by (unfold Spec.weekdayOfFirst, WeekDay; apply Z.mod_pos_bound; lia).
  rewrite Z2Nat.id by lia.
  unfold Spec.monthGrid. rewrite app_assoc.
  apply while_pad; [|assert (0 <= (7 - (Spec.weekdayOfFirst y m + Spec.monthLength y m) mod 7) mod 7 < 7)
                        by (apply Z.mod_pos_bound; lia); lia].
  rewrite length_app, length_replicate, List.length_map, length_seqZ.
  rewrite Nat2Z.inj_add, !Z2Nat.id by zdiv. reflexivity.
Qed.

Lemma getMonthGrid_cells zone year month d :
  Spec.offsetsWithin msPerDay zone -> Spec.keepsLocalDay zone ->
  -271820 <= MakeFullYear year + month / 12 <= 275759 ->
  1 <= d <= Spec.monthLength (MakeFullYear year + month / 12) (month mod 12) ->
  getFullYear zone (construct zone year month d) = Some (MakeFullYear year + month / 12) /\
  getMonth zone (construct zone year month d) = Some (month mod 12) /\
  getDate zone (construct zone year month d) = Some d.
Proof.
  intros Hz Hk Hy Hd.
  assert (Hm : 0 <= month mod 12 <= 11) by (pose proof (Z.mod_pos_bound month 12); lia).
  rewrite <- daysInMonth_monthLength in Hd by exact Hm.
  destruct (construct_day zone _ _ d Hz Hk Hy Hm Hd) as (t & C & _ & FY & FM & FD).
  rewrite construct_normal, C. auto.
Qed.

Lemma dayCells_monthGrid w n cell :
  0 <= n -> (forall d, exists t, cell d = dateCell t) ->
  Spec.dayCells (Spec.monthGrid w n cell) = Z.to_nat n.
Proof.
  intros Hn Hc. unfold Spec.dayCells, Spec.monthGrid.
  rewrite !List.filter_app, !length_app.
  assert (B : forall k, List.filter (fun c => match c with dateCell _ => true | null => false end)
                          (replicate k null) = []).
  { induction k; [reflexivity|exact IHk]. }
  rewrite !B. cbn [length].
  assert (F : forall l, List.filter (fun c => match c with dateCell _ => true | null => false end)
                          (map cell l) = map cell l).
  { induction l as [|x l IH]; [reflexivity|]. cbn [map List.filter].
    destruct (Hc x) as [t ->]. rewrite IH. reflexivity. }
  rewrite F, List.length_map, length_seqZ. lia.
Qed.

(** C3, as stated for every year and month, fails outside the domain of
    the Date constructor: for the year 300000 the Dates are invalid and the
    grid is empty although January has 31 days; the year 0 is taken for
    1900, whose February has 28 days, not the 29 of the leap year 0.  The
    screen itself reaches such months: in September 275760, the last month
    of Date, the last day is beyond the range and the grid is seven blanks;
    and [prevMonth] from January 100 shows December 99, whose grid is that
    of December 1999. *)
Lemma getMonthGrid_outside_domain :
  getMonthGrid 6 (fixedOffset 0) 300000 0 = Some [] /\ Spec.monthLength 300000 0 = 31 /\
  (exists grid, getMonthGrid 6 (fixedOffset 0) 0 1 = Some grid /\
                Spec.dayCells grid = 28%nat) /\
  Spec.monthLength 0 1 = 29 /\
  getMonthGrid 6 (fixedOffset 0) 275760 8 = Some (replicate 7 null) /\
  Spec.monthLength 275760 8 = 30 /\
  (let shown := CalendarNav.prevMonth (fixedOffset 0) (construct (fixedOffset 0) 100 0 1) in
   getFullYear (fixedOffset 0) shown = Some 99 /\ getMonth (fixedOffset 0) shown = Some 11) /\
  getMonthGrid 6 (fixedOffset 0) 99 11 = getMonthGrid 6 (fixedOffset 0) 1999 11 /\
  Spec.weekdayOfFirst 99 11 = 2 /\ Spec.weekdayOfFirst 1999 11 = 3.
Proof.
  split; [vm_compute; reflexivity|]. split; [reflexivity|].
  split; [eexists; split; [vm_compute; reflexivity|reflexivity]|].
  repeat split; vm_compute; reflexivity.
Qed.

(** C3, amended.  Write [y] for the year the Date constructor understands
    ([year], or [1900 + year] for 0..99, moved by [floor(month / 12)]) and
    [m] for [month mod 12].  For every year and month whatsoever, in every
    zone, the length of the grid is a multiple of 7.  In a zone whose
    offsets stay within a day of UTC and that keeps local days (daylight
    saving included), whenever [y] lies in -271820 .. 275759 the grid is
    exactly: one blank per weekday index of the first of the month
    (0 = Sunday), one cell per day of the month (28 to 31, leap years
    included), each holding the Date of that day, and trailing blanks up
    to a multiple of 7; and the grid of February 2024 has exactly 29 day
    cells, after 4 blanks and before 2. *)
Theorem getMonthGrid_layout zone year month fuel :
  (6 <= fuel)%nat ->
  (exists grid, getMonthGrid fuel zone year month = Some grid /\
                Z.of_nat (length grid) mod 7 = 0) /\
  (Spec.offsetsWithin msPerDay zone -> Spec.keepsLocalDay zone ->
   (let y := MakeFullYear year + month / 12 in
    let m := month mod 12 in
    -271820 <= y <= 275759 ->
    getMonthGrid fuel zone year month
    = Some (Spec.monthGrid (Spec.weekdayOfFirst y m) (Spec.monthLength y m)
                           (fun d => dateCell (construct zone year month d))) /\
    forall d, 1 <= d <= Spec.monthLength y m ->
      getFullYear zone (construct zone year month d) = Some y /\
      getMonth zone (construct zone year month d) = Some m /\
      getDate zone (construct zone year month d) = Some d) /\
   (exists grid, getMonthGrid fuel zone 2024 1 = Some grid /\
                 Spec.dayCells grid = 29%nat /\
                 grid = replicate 4 null
                        ++ map (fun d => dateCell (construct zone 2024 1 d)) (seqZ 1 29)
                        ++ replicate 2 null)).
Proof.
  intros Hf. split; [apply getMonthGrid_multiple_of_7, Hf|]. intros Hz Hk. split.
  - intros y m Hy. split.
    + apply getMonthGrid_in_range; assumption.
    + intros d Hd. apply getMonthGrid_cells; assumption.
  - eexists. split; [|split].
    + apply getMonthGrid_in_range; [exact Hf|exact Hz|exact Hk|vm_compute; split; discriminate].
    + rewrite dayCells_monthGrid; [reflexivity|vm_compute; discriminate|eauto].
    + reflexivity.
Qed.

(** March 2025 in New York, the month in which the clocks go forward. *)
Lemma getMonthGrid_layout_witness :
  (6 <= 6)%nat /\ Spec.offsetsWithin msPerDay Examples.newYork /\
  Spec.keepsLocalDay Examples.newYork /\ -271820 <= 2025 <= 275759 /\
  (exists grid, getMonthGrid 6 Examples.newYork 2025 2 = Some grid /\
                Z.of_nat (length grid) mod 7 = 0) /\
  getMonthGrid 6 Examples.newYork 2025 2
  = Some (Spec.monthGrid (Spec.weekdayOfFirst 2025 2) (Spec.monthLength 2025 2)
                         (fun d => dateCell (construct Examples.newYork 2025 2 d))).
Proof.
  assert (Hf : (6 <= 6)%nat) by lia.
  assert (Hy : -271820 <= 2025 <= 275759) by lia.
  split; [exact Hf|]. split; [exact newYork_within|].
  split; [exact newYork_keepsLocalDay|]. split; [exact Hy|].
  destruct (getMonthGrid_layout Examples.newYork 2025 2 6 Hf) as (A & B).
  split; [exact A|].
  exact (proj1 (proj1 (B newYork_within newYork_keepsLocalDay) Hy)).
Defined.

End MonthGrid.

(** * The claims about the [outfitMap] index *)

Section OutfitMap.
Import Calendar.

Variable parse : string -> Date.

Implicit Types (m : gmap string OutfitEntry) (o : OutfitEntry) (l : list OutfitEntry).

(** The key under which the index files an outfit. *)
Local Abbreviation keyOf o := (toDateKey (parse (date o))).

Local Abbreviation indexStep :=
  (fun (outfitMap : gmap string OutfitEntry) o =>
     cbind (keyOf o) (fun key => Normal (<[key := o]> outfitMap))).

Lemma toDateKey_throws d e : toDateKey d = Throw e -> d = None /\ e = RangeError.
Proof.
  destruct d as [t|]; [rewrite toDateKey_valid; discriminate|].
  rewrite toDateKey_invalid. intros E. injection E as <-. auto.
Qed.

Lemma toDateKey_returns d key : toDateKey d = Normal key -> exists t, d = Some t.
Proof. destruct d as [t|]; [eauto|rewrite toDateKey_invalid; discriminate]. Qed.

(** The index after the loop: for every key, the last outfit filed under
    it, or what the map held before. *)
Lemma forEach_index l : forall m0 m k,
  JSArray.forEach indexStep l m0 = Normal m ->
  m !! k = match last (List.filter (fun o => bool_decide (keyOf o = Normal k)) l) with
           | Some o => Some o
           | None => m0 !! k
           end.
Proof.
  induction l as [|o l IH]; intros m0 m k H.
  - injection H as <-. reflexivity.
  - cbn [JSArray.forEach] in H. destruct (keyOf o) as [key|e] eqn:K; [|discriminate H].
    cbn [cbind] in H. rewrite (IH _ _ k H). cbn [List.filter]. rewrite K.
    destruct (decide (key = k)) as [->|N].
    + rewrite bool_decide_eq_true_2 by reflexivity.
      destruct (List.filter _ l) as [|o' l'] eqn:F.
      * cbn. apply lookup_insert_eq.
      * change (last (o :: o' :: l')) with (last (o' :: l')).
        destruct (last (o' :: l')) eqn:L; [reflexivity|].
        apply last_None in L. discriminate L.
    + rewrite bool_decide_eq_false_2 by congruence.
      destruct (last _); [reflexivity|]. apply lookup_insert_ne. exact N.
Qed.

Lemma forEach_index_returns l : forall m0,
  Forall (fun o => parse (date o) <> None) l ->
  exists m, JSArray.forEach indexStep l m0 = Normal m.
Proof.
  induction l as [|o l IH]; intros m0 H; [eexists; reflexivity|].
  apply Forall_cons in H as [Ho Hl]. cbn [JSArray.forEach].
  destruct (parse (date o)) as [t|] eqn:P; [|contradiction].
  rewrite toDateKey_valid. cbn [cbind]. apply IH, Hl.
Qed.

(** One unparseable date anywhere in the list makes the loop throw. *)
Lemma forEach_index_throws l : forall m0,
  Exists (fun o => parse (date o) = None) l ->
  JSArray.forEach indexStep l m0 = Throw RangeError.
Proof.
  induction l as [|o l IH]; intros m0 H; [apply Exists_nil in H; contradiction|].
  cbn [JSArray.forEach]. destruct (parse (date o)) as [t|] eqn:P.
  - rewrite toDateKey_valid. cbn [cbind]. apply IH.
    apply Exists_cons in H as [H|H]; [congruence|exact H].
  - reflexivity.
Qed.

(** C6.  When the index is built (every date parses), each key holds
    exactly the last outfit of the input whose date maps to that key: the
    earlier ones are overwritten, nothing is merged, and keys that no
    outfit maps to are absent. *)
Theorem outfitMap_last_wins l :
  Forall (fun o => parse (date o) <> None) l ->
  exists m,
    outfitMap parse l = Normal m /\
    forall k, m !! k = last (List.filter (fun o => bool_decide (keyOf o = Normal k)) l).
Proof.
  intros H. destruct (forEach_index_returns l ∅ H) as [m Hm].
  exists m. split; [exact Hm|]. intros k.
  rewrite (forEach_index l ∅ m k Hm), lookup_empty.
  destruct (last _); reflexivity.
Qed.

Lemma thisMonthOutfits_skips_invalid zone currentMonth l1 bad l2 :
  parse (date bad) = None ->
  thisMonthOutfits zone parse currentMonth (l1 ++ bad :: l2)
  = thisMonthOutfits zone parse currentMonth (l1 ++ l2).
Proof.
  intros H. unfold thisMonthOutfits. rewrite !List.filter_app. cbn [List.filter].
  rewrite H. reflexivity.
Qed.

(** C8, amended.  A record whose date does not parse is not reported as an
    InvalidRecord.  Building the index throws the RangeError of
    [toISOString], which names no record, and the month view fails with
    it; [getMostWornThisMonth] drops the record without any error: its
    result is the one for the list without that record. *)
Theorem invalid_date_is_not_reported zone clock fuel currentMonth l1 bad l2 :
  parse (date bad) = None ->
  outfitMap parse (l1 ++ bad :: l2) = Throw RangeError /\
  getMostWornThisMonth zone parse currentMonth (l1 ++ bad :: l2)
  = getMostWornThisMonth zone parse currentMonth (l1 ++ l2) /\
  forall st, outfits st = l1 ++ bad :: l2 ->
             monthAnalytics fuel zone clock parse st = Some (Throw RangeError).
Proof.
  intros H.
  assert (T : outfitMap parse (l1 ++ bad :: l2) = Throw RangeError).
  { apply forEach_index_throws. apply Exists_app. right. apply Exists_cons_hd. exact H. }
  split; [exact T|]. split.
  - unfold getMostWornThisMonth. rewrite thisMonthOutfits_skips_invalid by exact H.
    reflexivity.
  - intros st E. unfold monthAnalytics. rewrite E, T. reflexivity.
Qed.

End OutfitMap.


Section OutfitMapExamples.
Import Calendar.

Lemma outfitMap_last_wins_witness :
  Forall (fun o => Examples.newDate (date o) <> None) Examples.sameDayOutfits /\
  exists m,
    outfitMap Examples.newDate Examples.sameDayOutfits = Normal m /\
    m !! "2025-09-13"%string
    = Some (Examples.outfitOn "2025-09-13T18:30:00.000Z" ["c"%string] "last.png").
Proof.
  assert (H : Forall (fun o => Examples.newDate (date o) <> None) Examples.sameDayOutfits).
  { unfold Examples.sameDayOutfits.
    repeat (apply Forall_cons; split; [vm_compute; discriminate|]). constructor. }
  split; [exact H|].
  destruct (outfitMap_last_wins Examples.newDate Examples.sameDayOutfits H) as (m & Hm & Hk).
  exists m. split; [exact Hm|]. rewrite Hk. vm_compute. reflexivity.
Defined.

(** C8, as stated, fails on a record with the date "not a date": the index
    construction ends with a bare RangeError, not an InvalidRecord naming
    the record, and the most-worn computation skips the record silently. *)
Lemma invalid_record_counterexample :
  Examples.newDate (date Examples.badOutfit) = None /\
  outfitMap Examples.newDate [Examples.badOutfit; Examples.goodOutfit] = Throw RangeError /\
  getMostWornThisMonth Examples.utc Examples.newDate (Examples.march2025 Examples.utc)
                       [Examples.badOutfit; Examples.goodOutfit]
  = Normal (Some ("good.png"%string, 1)).
Proof. repeat split; vm_compute; reflexivity. Qed.

Lemma invalid_date_is_not_reported_witness :
  Examples.newDate (date Examples.badOutfit) = None /\
  outfitMap Examples.newDate ([] ++ Examples.badOutfit :: [Examples.goodOutfit]) = Throw RangeError /\
  getMostWornThisMonth Examples.utc Examples.newDate (Examples.march2025 Examples.utc)
                       ([] ++ Examples.badOutfit :: [Examples.goodOutfit])
  = getMostWornThisMonth Examples.utc Examples.newDate (Examples.march2025 Examples.utc) ([] ++ [Examples.goodOutfit]).
Proof.
  assert (H : Examples.newDate (date Examples.badOutfit) = None) by (vm_compute; reflexivity).
  split; [exact H|].
  destruct (invalid_date_is_not_reported Examples.newDate Examples.utc 0 0%nat (Examples.march2025 Examples.utc)
              [] Examples.badOutfit [Examples.goodOutfit] H) as (A & B & _).
  split; [exact A|exact B].
Defined.

End OutfitMapExamples.

(** * Sorting: [Array.prototype.sort] *)

Section Sorting.
Import JSString.

(** The code-unit order on strings is a total order. *)
Lemma strLe_compare a b : strLe a b <-> String.compare a b <> Gt.
Proof.
  unfold strLe, compareStrings. destruct (String.compare a b); split; intros H;
    try lia; try discriminate; try congruence.
Qed.

Lemma ascii_compare_trans c1 c2 c3 o :
  Ascii.compare c1 c2 = o -> Ascii.compare c2 c3 = o -> Ascii.compare c1 c3 = o.
Proof.
  unfold Ascii.compare. destruct o; intros H1 H2.
  - apply N.compare_eq_iff in H1, H2. apply N.compare_eq_iff. congruence.
  - apply N.compare_lt_iff in H1. apply N.compare_lt_iff in H2.
    apply N.compare_lt_iff. exact (N.lt_trans _ _ _ H1 H2).
  - apply N.compare_gt_iff in H1. apply N.compare_gt_iff in H2.
    apply N.compare_gt_iff. exact (N.lt_trans _ _ _ H2 H1).
Qed.

Lemma ascii_compare_Eq c1 c2 : Ascii.compare c1 c2 = Eq -> c1 = c2.
Proof. apply Ascii.compare_eq_iff. Qed.

Lemma strLe_trans a : forall b c, strLe a b -> strLe b c -> strLe a c.
Proof.
  setoid_rewrite strLe_compare.
  induction a as [|c1 a IH]; intros [|c2 b] [|c3 c]; cbn [String.compare]; try congruence.
  destruct (Ascii.compare c1 c2) eqn:E12; try congruence;
    destruct (Ascii.compare c2 c3) eqn:E23; try congruence.
  - rewrite (ascii_compare_trans _ _ _ _ E12 E23). apply IH.
  - apply ascii_compare_Eq in E12. subst. rewrite E23. discriminate.
  - apply ascii_compare_Eq in E23. subst. rewrite E12. discriminate.
  - rewrite (ascii_compare_trans _ _ _ _ E12 E23). discriminate.
Qed.

Lemma strLe_total a b : strLe a b \/ strLe b a.
Proof.
  rewrite !strLe_compare, (String.compare_antisym b a).
  destruct (String.compare a b); cbn; auto; left + right; discriminate.
Qed.

Lemma strLe_antisym a b : strLe a b -> strLe b a -> a = b.
Proof.
  rewrite !strLe_compare, (String.compare_antisym b a). intros H1 H2.
  apply String.compare_eq_iff. destruct (String.compare a b); cbn in *; congruence.
Qed.

#[local] Instance strLe_Transitive : Transitive strLe.
Proof. intros a b c. apply strLe_trans. Qed.

#[local] Instance strLe_AntiSymm : AntiSymm eq strLe.
Proof. intros a b. apply strLe_antisym. Qed.

Section Generic.
Context {A : Type} (cmp : A -> A -> Z).

Lemma insert_sorted_Permutation x l : JSArray.insert_sorted cmp x l ≡ₚ x :: l.
Proof.
  induction l as [|y l IH]; cbn [JSArray.insert_sorted]; [reflexivity|].
  destruct (cmp x y <=? 0); [reflexivity|]. rewrite IH. apply Permutation_swap.
Qed.

Lemma sort_Permutation l : JSArray.sort cmp l ≡ₚ l.
Proof.
  induction l as [|x l IH]; cbn [JSArray.sort]; [reflexivity|].
  rewrite insert_sorted_Permutation, IH. reflexivity.
Qed.

Lemma sort_length l : length (JSArray.sort cmp l) = length l.
Proof. apply Permutation_length, sort_Permutation. Qed.

End Generic.

Lemma insert_sorted_Sorted x l :
  Sorted strLe l -> Sorted strLe (JSArray.insert_sorted compareStrings x l).
Proof.
  induction 1 as [|y l Hs IH Hd]; cbn [JSArray.insert_sorted].
  - repeat constructor.
  - destruct (Z.leb_spec (compareStrings x y) 0) as [L|G].
    + constructor; [constructor; assumption|]. constructor. exact L.
    + assert (Hyx : strLe y x) by (destruct (strLe_total x y) as [H|H]; [unfold strLe in H; lia|exact H]).
      constructor; [exact IH|].
      destruct l as [|z l]; cbn [JSArray.insert_sorted].
      * constructor. exact Hyx.
      * destruct (compareStrings x z <=? 0); constructor; [exact Hyx|].
        inversion Hd; assumption.
Qed.

Lemma sort_Sorted l : Sorted strLe (JSArray.sort compareStrings l).
Proof.
  induction l as [|x l IH]; cbn [JSArray.sort]; [constructor|].
  apply insert_sorted_Sorted, IH.
Qed.

(** The default sort of an array of strings forgets the input order. *)
Lemma sort_strings_Permutation l1 l2 :
  l1 ≡ₚ l2 -> JSArray.sort compareStrings l1 = JSArray.sort compareStrings l2.
Proof.
  intros H. apply (Sorted_unique strLe); [apply sort_Sorted..|].
  rewrite !sort_Permutation. exact H.
Qed.

(** The head of a stable descending sort is the first maximal element. *)
Lemma head_sort_descending {A} (f : A -> Z) l :
  head (JSArray.sort (fun a b => f b - f a) l) = Spec.firstMaxBy f l.
Proof.
  induction l as [|x l IH]; cbn [JSArray.sort Spec.firstMaxBy]; [reflexivity|].
  rewrite <- IH. destruct (JSArray.sort _ l) as [|y s]; cbn [JSArray.insert_sorted head];
    [reflexivity|].
  destruct (Z.leb_spec (f y - f x) 0), (Z.ltb_spec (f x) (f y)); try lia; reflexivity.
Qed.

(** Sorting related arrays with comparisons that agree gives related arrays. *)
Lemma sort_Forall2 {A B} (R : A -> B -> Prop) (c1 : A -> A -> Z) (c2 : B -> B -> Z) :
  (forall a a' b b', R a b -> R a' b' -> c1 a a' = c2 b b') ->
  forall l l', Forall2 R l l' -> Forall2 R (JSArray.sort c1 l) (JSArray.sort c2 l').
Proof.
  intros Hc.
  assert (Hi : forall x y s s', R x y -> Forall2 R s s' ->
             Forall2 R (JSArray.insert_sorted c1 x s) (JSArray.insert_sorted c2 y s')).
  { intros x y s s' Hxy Hs. induction Hs as [|a b s s' Hab Hs IH];
      cbn [JSArray.insert_sorted]; [repeat constructor; assumption|].
    rewrite (Hc x a y b Hxy Hab). destruct (c2 y b <=? 0); repeat constructor; assumption. }
  induction 1 as [|x y l l' Hxy Hl IH]; cbn [JSArray.sort]; [constructor|].
  apply Hi; assumption.
Qed.

End Sorting.

(** * [getMostWornThisMonth] and the order of garment lists *)

Section GarmentOrder.
Import Calendar.

Implicit Types (o : OutfitEntry) (e : countEntry) (cm : JSObject.t countEntry).

Lemma garmentKey_sameGarments o o' : Spec.sameGarments o o' -> garmentKey o = garmentKey o'.
Proof.
  intros (_ & _ & _ & _ & H). unfold garmentKey. f_equal.
  apply sort_strings_Permutation, H.
Qed.

(** Entries with the same count whose representatives differ at most in
    garment order, and objects that hold such entries under the same keys. *)
Let sameEntry e e' : Prop := count e = count e' /\ Spec.sameGarments (outfit e) (outfit e').
Let sameProp (p p' : string * countEntry) : Prop := p.1 = p'.1 /\ sameEntry p.2 p'.2.
Let sameObject cm cm' : Prop := Forall2 sameProp cm cm'.

Lemma getOwn_same cm cm' k :
  sameObject cm cm' ->
  match JSObject.getOwn cm k, JSObject.getOwn cm' k with
  | Some e, Some e' => sameEntry e e'
  | None, None => True
  | _, _ => False
  end.
Proof.
  induction 1 as [|[k1 e1] [k2 e2] cm cm' [Hk He] _ IH]; cbn [JSObject.getOwn]; [exact I|].
  cbn in Hk. subst k2. destruct (String.eqb k1 k); [exact He|exact IH].
Qed.

Lemma setOwn_same cm cm' k e e' :
  sameObject cm cm' -> sameEntry e e' ->
  sameObject (JSObject.setOwn cm k e) (JSObject.setOwn cm' k e').
Proof.
  unfold sameObject. intros H He.
  induction H as [|[k1 e1] [k2 e2] cm cm' [Hk H1] H IH]; cbn [JSObject.setOwn].
  - constructor; [split; [reflexivity|exact He]|constructor].
  - cbn in Hk. subst k2. destruct (String.eqb k1 k); constructor; try assumption;
      split; auto.
Qed.

Lemma countStep_same cm cm' o o' :
  sameObject cm cm' -> Spec.sameGarments o o' ->
  sameObject (countStep cm o) (countStep cm' o').
Proof.
  intros H Ho. unfold countStep. rewrite <- (garmentKey_sameGarments o o' Ho).
  set (k := garmentKey o).
  assert (H1 : sameObject
    (if negb (bool_decide (is_Some (JSObject.getOwn cm k)) || JSObject.inherited k)
     then JSObject.setOwn cm k {| count := 0; outfit := o |} else cm)
    (if negb (bool_decide (is_Some (JSObject.getOwn cm' k)) || JSObject.inherited k)
     then JSObject.setOwn cm' k {| count := 0; outfit := o' |} else cm')).
  { pose proof (getOwn_same cm cm' k H) as G.
    destruct (JSObject.getOwn cm k), (JSObject.getOwn cm' k); try contradiction.
    - rewrite !bool_decide_eq_true_2 by eauto. exact H.
    - rewrite !bool_decide_eq_false_2 by (intros [? ?]; discriminate).
      destruct (JSObject.inherited k); cbn [orb negb]; [exact H|].
      apply setOwn_same; [exact H|]. split; [reflexivity|exact Ho]. }
  revert H1. generalize
    (if negb (bool_decide (is_Some (JSObject.getOwn cm k)) || JSObject.inherited k)
     then JSObject.setOwn cm k {| count := 0; outfit := o |} else cm)
    (if negb (bool_decide (is_Some (JSObject.getOwn cm' k)) || JSObject.inherited k)
     then JSObject.setOwn cm' k {| count := 0; outfit := o' |} else cm').
  intros c c' Hc. pose proof (getOwn_same c c' k Hc) as G.
  destruct (JSObject.getOwn c k) as [e|], (JSObject.getOwn c' k) as [e'|];
    try contradiction; [|exact Hc].
  apply setOwn_same; [exact Hc|]. destruct G as [Gc Go]. split; cbn; [lia|exact Go].
Qed.

Lemma countMapOf_same l l' :
  Forall2 Spec.sameGarments l l' -> sameObject (countMapOf l) (countMapOf l').
Proof.
  unfold countMapOf. assert (H0 : sameObject [] []) by constructor.
  revert H0. generalize (@nil (string * countEntry)) at 1 3.
  generalize (@nil (string * countEntry)).
  intros c' c Hc H. revert c c' Hc.
  induction H as [|o o' l l' Ho _ IH]; intros c c' Hc; cbn [fold_left]; [exact Hc|].
  apply IH, countStep_same; assumption.
Qed.

Lemma values_same cm cm' :
  sameObject cm cm' -> Forall2 sameEntry (JSObject.values cm) (JSObject.values cm').
Proof.
  intros H. unfold JSObject.values. apply Forall2_app.
  - apply Forall2_fmap.
    apply (Forall2_impl (fun p p' : Z * countEntry => p.1 = p'.1 /\ sameEntry p.2 p'.2));
      [|intros p p' [_ He]; exact He].
    apply sort_Forall2.
    + intros a a' b b' [E1 _] [E2 _]. unfold JSObject.indexOrder. rewrite E1, E2. reflexivity.
    + induction H as [|[k1 e1] [k2 e2] cm cm' [Hk He] _ IH]; cbn [JSObject.indexProps];
        [constructor|].
      cbn in Hk. subst k2. destruct (JSObject.arrayIndex k1); [|exact IH].
      constructor; [split; [reflexivity|exact He]|exact IH].
  - induction H as [|[k1 e1] [k2 e2] cm cm' [Hk He] _ IH]; cbn [JSObject.namedProps];
      [constructor|].
    cbn in Hk. subst k2. destruct (JSObject.arrayIndex k1); [exact IH|].
    constructor; assumption.
Qed.

Lemma thisMonthOutfits_same zone parse currentMonth l l' :
  Forall2 Spec.sameGarments l l' ->
  Forall2 Spec.sameGarments (thisMonthOutfits zone parse currentMonth l)
                            (thisMonthOutfits zone parse currentMonth l').
Proof.
  unfold thisMonthOutfits. induction 1 as [|o o' l l' Ho _ IH]; cbn [List.filter];
    [constructor|].
  destruct Ho as (Hi & Hu & Hd & Hp & Hg). rewrite <- Hd.
  destruct (_ && _); [|exact IH]. constructor; [|exact IH]. repeat split; assumption.
Qed.

(** The result of [getMostWornThisMonth] does not depend on the order of
    the garment lists of the outfits. *)
Lemma getMostWornThisMonth_same zone parse currentMonth l l' :
  Forall2 Spec.sameGarments l l' ->
  getMostWornThisMonth zone parse currentMonth l = getMostWornThisMonth zone parse currentMonth l'.
Proof.
  intros H. apply (thisMonthOutfits_same zone parse currentMonth) in H.
  unfold getMostWornThisMonth.
  rewrite (Forall2_length _ _ _ H).
  destruct (length _ =? 0)%nat; [reflexivity|].
  pose proof (values_same _ _ (countMapOf_same _ _ H)) as V.
  apply (sort_Forall2 sameEntry (fun a b => count b - count a) (fun a b => count b - count a))
    in V; [|intros a a' b b' [E1 _] [E2 _]; rewrite E1, E2; reflexivity].
  unfold best. destruct V as [|e e' s s' [Hc (_ & _ & _ & Hp & _)] _]; cbn [head];
    [reflexivity|].
  rewrite Hc, Hp. reflexivity.
Qed.

End GarmentOrder.

(** * The claim about garment order (C4) *)

Section GarmentOrderClaim.
Import Calendar.

(** At or east of Greenwich, and less than a day ahead, the local year
    and month of a UTC midnight are its UTC year and month. *)
Lemma east_of_midnight zone t :
  0 <= LocalTZA zone t true < msPerDay -> t mod msPerDay = 0 ->
  getFullYear zone (Some t) = getFullYear (fixedOffset 0) (Some t) /\
  getMonth zone (Some t) = getMonth (fixedOffset 0) (Some t).
Proof.
  intros Htz Ht.
  assert (E : Day (LocalTime zone t) = Day (LocalTime (fixedOffset 0) t)).
  { unfold LocalTime. cbn [LocalTZA fixedOffset]. unfold Day, msPerDay in *. zdiv. }
  cbn [getFullYear getMonth fmap option_fmap option_map].
  unfold MonthFromTime, InLeapYear, DayWithinYear, YearFromTime. rewrite E. auto.
Qed.

Lemma filter_all {A} (p : A -> bool) l : Forall (fun x => p x = true) l -> List.filter p l = l.
Proof.
  induction 1 as [|x l Hx _ IH]; [reflexivity|]. cbn [List.filter]. rewrite Hx, IH. reflexivity.
Qed.

Lemma thisMonthOutfits_march zone currentMonth :
  (forall t, 0 <= LocalTZA zone t true < msPerDay) ->
  getFullYear zone currentMonth = Some 2025 -> getMonth zone currentMonth = Some 2 ->
  thisMonthOutfits zone Examples.newDate currentMonth Examples.marchOutfits
  = Examples.marchOutfits.
Proof.
  intros Htz Hy Hm. unfold thisMonthOutfits. rewrite Hy, Hm.
  apply filter_all. unfold Examples.marchOutfits.
  repeat (apply Forall_cons; split; [|]); [..|constructor].
  all: match goal with
       | |- context [Examples.newDate (date ?o)] =>
           let t := eval vm_compute in (Examples.newDate (date o)) in
           change (Examples.newDate (date o)) with t
       end.
  all: match goal with
       | |- context [getFullYear ?z (Some ?t)] =>
           destruct (east_of_midnight z t (Htz t) ltac:(vm_compute; reflexivity)) as [-> ->]
       end.
  all: vm_compute; reflexivity.
Qed.

(** C4.  The part of the claim about garment order holds: replacing the
    garment list of one outfit by a permutation of it changes neither the
    signature of that outfit nor the result of [getMostWornThisMonth], in
    every zone and for every parser.  The scenario (outfits of 2025-03-01
    with [a, b], 2025-03-05 with [b, a] and 2025-03-10 with [c], month
    view of March 2025) yields the group of signature "a,b" with count 2
    where these dates are days of March for the local-time filter, that
    is at or east of Greenwich.  It fails in New York: "2025-03-01" is UTC
    midnight, 19:00 of 28 February there, and the filter leaves the outfit
    out of March, although the index files it under 2025-03-01 and the
    cell of 1 March in the grid of March looks it up under that key; the
    answer is the outfit of 5 March with count 1. *)
Theorem getMostWornThisMonth_garment_order zone parseDate currentMonth l1 o l2 ids :
  garmentIds o ≡ₚ ids ->
  garmentKey (Spec.withGarmentIds o ids) = garmentKey o /\
  getMostWornThisMonth zone parseDate currentMonth (l1 ++ Spec.withGarmentIds o ids :: l2)
  = getMostWornThisMonth zone parseDate currentMonth (l1 ++ o :: l2) /\
  ((forall t, 0 <= LocalTZA zone t true < msPerDay) ->
   getFullYear zone currentMonth = Some 2025 -> getMonth zone currentMonth = Some 2 ->
   let first := Examples.outfitOn "2025-03-01" ["a"; "b"]%string "mar01.png" in
   garmentKey first = "a,b"%string /\
   best (countMapOf (thisMonthOutfits zone Examples.newDate currentMonth Examples.marchOutfits))
   = Some {| count := 2; outfit := first |} /\
   getMostWornThisMonth zone Examples.newDate currentMonth Examples.marchOutfits
   = Normal (Some (previewImage first, 2))) /\
  (let shown := Examples.march2025 Examples.newYork in
   getFullYear Examples.newYork shown = Some 2025 /\
   getMonth Examples.newYork shown = Some 2 /\
   (exists index,
      outfitMap Examples.newDate Examples.marchOutfits = Normal index /\
      index !! "2025-03-01"%string
      = Some (Examples.outfitOn "2025-03-01" ["a"; "b"]%string "mar01.png")) /\
   toDateKey (construct Examples.newYork 2025 2 1) = Normal "2025-03-01"%string /\
   thisMonthOutfits Examples.newYork Examples.newDate shown Examples.marchOutfits
   = [Examples.outfitOn "2025-03-05" ["b"; "a"]%string "mar05.png";
      Examples.outfitOn "2025-03-10" ["c"%string] "mar10.png"] /\
   getMostWornThisMonth Examples.newYork Examples.newDate shown Examples.marchOutfits
   = Normal (Some ("mar05.png"%string, 1))).
Proof.
  intros Hp.
  assert (S : Spec.sameGarments (Spec.withGarmentIds o ids) o).
  { unfold Spec.sameGarments. cbn. repeat split; try reflexivity. symmetry. exact Hp. }
  split; [apply garmentKey_sameGarments, S|]. split; [|split].
  - apply getMostWornThisMonth_same. apply Forall2_app.
    + apply Forall_Forall2_diag, Forall_forall. intros x _.
      unfold Spec.sameGarments. repeat split; reflexivity.
    + constructor; [exact S|].
      apply Forall_Forall2_diag, Forall_forall. intros x _.
      unfold Spec.sameGarments. repeat split; reflexivity.
  - intros Htz Hy Hm first. split; [reflexivity|].
    unfold getMostWornThisMonth. rewrite (thisMonthOutfits_march zone _ Htz Hy Hm).
    split; vm_compute; reflexivity.
  - cbv zeta. split; [vm_compute; reflexivity|]. split; [vm_compute; reflexivity|].
    split; [eexists; split; vm_compute; reflexivity|].
    repeat split; vm_compute; reflexivity.
Qed.

Lemma getMostWornThisMonth_garment_order_witness :
  garmentIds (Examples.outfitOn "2025-03-05" ["b"; "a"]%string "mar05.png")
    ≡ₚ ["a"; "b"]%string /\
  getMostWornThisMonth Examples.utc Examples.newDate (Examples.march2025 Examples.utc)
    ([Examples.outfitOn "2025-03-01" ["a"; "b"]%string "mar01.png"]
     ++ Spec.withGarmentIds (Examples.outfitOn "2025-03-05" ["b"; "a"]%string "mar05.png")
                            ["a"; "b"]%string
     :: [Examples.outfitOn "2025-03-10" ["c"%string] "mar10.png"])
  = getMostWornThisMonth Examples.utc Examples.newDate (Examples.march2025 Examples.utc)
      Examples.marchOutfits /\
  getMostWornThisMonth Examples.utc Examples.newDate (Examples.march2025 Examples.utc)
    Examples.marchOutfits
  = Normal (Some ("mar01.png"%string, 2)).
Proof.
  assert (Hp : garmentIds (Examples.outfitOn "2025-03-05" ["b"; "a"]%string "mar05.png")
                 ≡ₚ ["a"; "b"]%string) by (simpl; constructor).
  split; [exact Hp|].
  destruct (getMostWornThisMonth_garment_order Examples.utc Examples.newDate
              (Examples.march2025 Examples.utc)
              [Examples.outfitOn "2025-03-01" ["a"; "b"]%string "mar01.png"]
              (Examples.outfitOn "2025-03-05" ["b"; "a"]%string "mar05.png")
              [Examples.outfitOn "2025-03-10" ["c"%string] "mar10.png"]
              ["a"; "b"]%string Hp) as (_ & A & B & _).
  split; [exact A|].
  refine (proj2 (proj2 (B _ _ _))).
  - intros t. vm_compute. split; [discriminate|reflexivity].
  - vm_compute. reflexivity.
  - vm_compute. reflexivity.
Defined.

End GarmentOrderClaim.

(** * Objects as maps: own properties *)

Section OwnProperties.
Context {V : Type}.
Implicit Types (o : JSObject.t V) (k : string) (v : V).

Lemma getOwn_setOwn_eq o k v : JSObject.getOwn (JSObject.setOwn o k v) k = Some v.
Proof.
  induction o as [|[k' v'] o IH]; cbn [JSObject.setOwn JSObject.getOwn].
  - rewrite String.eqb_refl. reflexivity.
  - destruct (String.eqb k' k) eqn:E; cbn [JSObject.getOwn]; rewrite E; [reflexivity|exact IH].
Qed.

Lemma getOwn_setOwn_ne o k k' v :
  k <> k' -> JSObject.getOwn (JSObject.setOwn o k v) k' = JSObject.getOwn o k'.
Proof.
  intros N. apply String.eqb_neq in N.
  induction o as [|[k1 v1] o IH]; cbn [JSObject.setOwn JSObject.getOwn].
  - rewrite N. reflexivity.
  - destruct (String.eqb k1 k) eqn:E; cbn [JSObject.getOwn].
    + apply String.eqb_eq in E. subst k1. rewrite N. reflexivity.
    + rewrite IH. reflexivity.
Qed.

Lemma setOwn_absent o k v :
  JSObject.getOwn o k = None -> JSObject.setOwn o k v = o ++ [(k, v)].
Proof.
  induction o as [|[k' v'] o IH]; cbn [JSObject.setOwn JSObject.getOwn app]; [reflexivity|].
  destruct (String.eqb k' k); [discriminate|]. intros H. rewrite IH by exact H. reflexivity.
Qed.

Lemma setOwn_setOwn o k v v' :
  JSObject.setOwn (JSObject.setOwn o k v) k v' = JSObject.setOwn o k v'.
Proof.
  induction o as [|[k1 v1] o IH]; cbn [JSObject.setOwn].
  - rewrite String.eqb_refl. reflexivity.
  - destruct (String.eqb k1 k) eqn:E; cbn [JSObject.setOwn]; rewrite E; [reflexivity|].
    rewrite IH. reflexivity.
Qed.

(** Without array-index keys, [Object.values] lists the values in the
    order in which the properties were created. *)
Lemma values_named o :
  Forall (fun p => JSObject.arrayIndex p.1 = None) o -> JSObject.values o = map snd o.
Proof.
  intros H. unfold JSObject.values.
  assert (N : JSObject.indexProps o = [] /\ JSObject.namedProps o = map snd o).
  { induction H as [|[k v] o Hk _ [I N]];
      cbn [JSObject.indexProps JSObject.namedProps map]; [auto|].
    cbn in Hk. rewrite Hk, I, N. auto. }
  destruct N as [-> ->]. reflexivity.
Qed.

End OwnProperties.

(** * The first maximal element *)

Section FirstMax.
Context {A : Type} (f : A -> Z).

Lemma firstMaxBy_split l b :
  Spec.firstMaxBy f l = Some b ->
  exists l1 l2, l = l1 ++ b :: l2 /\
                (forall y, y ∈ l1 -> f y < f b) /\ (forall y, y ∈ l2 -> f y <= f b).
Proof.
  revert b. induction l as [|x l IH]; intros b H; [discriminate|].
  cbn [Spec.firstMaxBy] in H. destruct (Spec.firstMaxBy f l) as [c|] eqn:E.
  - destruct (IH c eq_refl) as (l1 & l2 & -> & H1 & H2).
    destruct (Z.ltb_spec (f x) (f c)); injection H as <-.
    + exists (x :: l1), l2. split; [reflexivity|]. split; [|exact H2].
      intros y Hy. apply elem_of_cons in Hy as [->|Hy]; [assumption|apply H1, Hy].
    + exists [], (l1 ++ c :: l2). split; [reflexivity|]. split.
      * intros y Hy. apply elem_of_nil in Hy. contradiction.
      * intros y Hy. apply elem_of_app in Hy as [Hy|Hy].
        -- specialize (H1 y Hy). lia.
        -- apply elem_of_cons in Hy as [->|Hy]; [lia|specialize (H2 y Hy); lia].
  - injection H as <-. destruct l as [|y l]; [|cbn in E; destruct (Spec.firstMaxBy f l) as [c|];
      [destruct (f y <? f c)|]; discriminate].
    exists [], []. split; [reflexivity|]. split; intros y Hy; apply elem_of_nil in Hy; contradiction.
Qed.

Lemma firstMaxBy_is_Some l : l <> [] -> is_Some (Spec.firstMaxBy f l).
Proof.
  destruct l as [|x l]; [congruence|]. intros _. cbn [Spec.firstMaxBy].
  destruct (Spec.firstMaxBy f l) as [c|]; [destruct (f x <? f c)|]; eauto.
Qed.

(** The split characterises the result. *)
Lemma firstMaxBy_unique l1 b l2 :
  (forall y, y ∈ l1 -> f y < f b) -> (forall y, y ∈ l2 -> f y <= f b) ->
  Spec.firstMaxBy f (l1 ++ b :: l2) = Some b.
Proof.
  intros H1 H2.
  assert (Hb : Spec.firstMaxBy f (b :: l2) = Some b).
  { cbn [Spec.firstMaxBy]. destruct (Spec.firstMaxBy f l2) as [c|] eqn:E; [|reflexivity].
    destruct (firstMaxBy_split l2 c E) as (s1 & s2 & -> & _ & _).
    specialize (H2 c ltac:(apply elem_of_app; right; apply elem_of_cons; auto)).
    destruct (Z.ltb_spec (f b) (f c)); [lia|reflexivity]. }
  induction l1 as [|x l1 IH]; [exact Hb|].
  cbn [app Spec.firstMaxBy]. rewrite IH.
  - specialize (H1 x ltac:(apply elem_of_cons; auto)).
    destruct (Z.ltb_spec (f x) (f b)); [reflexivity|lia].
  - intros y Hy. apply H1. apply elem_of_cons. auto.
Qed.

End FirstMax.

Lemma firstMaxBy_map {A B} (g : A -> B) (f : B -> Z) l :
  Spec.firstMaxBy f (map g l) = g <$> Spec.firstMaxBy (fun x => f (g x)) l.
Proof.
  induction l as [|x l IH]; [reflexivity|]. cbn [map Spec.firstMaxBy]. rewrite IH.
  destruct (Spec.firstMaxBy _ l) as [c|]; cbn; [destruct (f (g x) <? f (g c))|]; reflexivity.
Qed.

(** * Groups of outfits by signature *)

Section Groups.
Import Calendar.

Implicit Types (o : OutfitEntry) (l : list OutfitEntry) (k : string).

Local Abbreviation hasKey k := (fun o' : OutfitEntry => String.eqb (garmentKey o') k).
Local Abbreviation otherKey k := (fun o' : OutfitEntry => negb (String.eqb (garmentKey o') k)).
Local Abbreviation prop l := (fun o : OutfitEntry => (garmentKey o, Spec.groupOf l o)).

Lemma occurrences_snoc k l o :
  Spec.occurrences k (l ++ [o])
  = Spec.occurrences k l + (if String.eqb (garmentKey o) k then 1 else 0).
Proof.
  unfold Spec.occurrences. rewrite List.filter_app, length_app. cbn [List.filter].
  destruct (String.eqb (garmentKey o) k); cbn [length]; lia.
Qed.

Lemma occurrences_absent k l : find (hasKey k) l = None -> Spec.occurrences k l = 0.
Proof.
  unfold Spec.occurrences. induction l as [|x l IH]; cbn [find List.filter]; [reflexivity|].
  destruct (String.eqb (garmentKey x) k); [discriminate|exact IH].
Qed.

Lemma find_filter {A} (p q : A -> bool) (s : list A) :
  (forall y, p y = true -> q y = true) -> find p (List.filter q s) = find p s.
Proof.
  intros H. induction s as [|y s IH]; [reflexivity|]. cbn [List.filter find].
  destruct (p y) eqn:P.
  - rewrite (H y P). cbn [find]. rewrite P. reflexivity.
  - destruct (q y); cbn [find]; rewrite ?P; exact IH.
Qed.

Lemma find_firsts k l : find (hasKey k) (Spec.firsts l) = find (hasKey k) l.
Proof.
  induction l as [|x l IH]; [reflexivity|]. cbn [Spec.firsts find].
  destruct (String.eqb (garmentKey x) k) eqn:E; [reflexivity|].
  rewrite find_filter; [exact IH|].
  intros y Hy. apply String.eqb_eq in Hy. apply negb_true_iff.
  apply String.eqb_neq. apply String.eqb_neq in E. congruence.
Qed.

Lemma firsts_subset l o : o ∈ Spec.firsts l -> o ∈ l.
Proof.
  revert o. induction l as [|x l IH]; intros o H; [exact H|].
  cbn [Spec.firsts] in H. apply elem_of_cons in H as [->|H]; [apply elem_of_cons; auto|].
  apply elem_of_cons. right. apply IH.
  apply list_elem_of_In, List.filter_In in H as [H _]. apply list_elem_of_In, H.
Qed.

Lemma firsts_NoDup l : NoDup (map garmentKey (Spec.firsts l)).
Proof.
  induction l as [|x l IH]; [constructor|]. cbn [Spec.firsts map]. constructor.
  - intros H. apply list_elem_of_fmap in H as (y & Ey & Hy).
    apply list_elem_of_In, List.filter_In in Hy as [_ Hy].
    apply negb_true_iff, String.eqb_neq in Hy. congruence.
  - clear -IH. induction (Spec.firsts l) as [|y s IHs]; [constructor|].
    cbn [map] in IH. apply NoDup_cons in IH as [Hy Hs]. cbn [List.filter].
    destruct (negb _); [|apply IHs, Hs]. cbn [map]. constructor; [|apply IHs, Hs].
    intros H. apply Hy. apply list_elem_of_fmap in H as (z & Ez & Hz).
    apply list_elem_of_fmap. exists z. split; [exact Ez|].
    apply list_elem_of_In, List.filter_In in Hz as [Hz _]. apply list_elem_of_In, Hz.
Qed.

Lemma firsts_snoc l o :
  Spec.firsts (l ++ [o])
  = match find (hasKey (garmentKey o)) l with
    | Some _ => Spec.firsts l
    | None => Spec.firsts l ++ [o]
    end.
Proof.
  induction l as [|x l IH]; [reflexivity|]. cbn [app Spec.firsts find]. rewrite IH.
  destruct (String.eqb (garmentKey x) (garmentKey o)) eqn:E.
  - f_equal. destruct (find _ l); [reflexivity|].
    rewrite List.filter_app. cbn [List.filter].
    rewrite String.eqb_sym, E. cbn [negb]. apply app_nil_r.
  - destruct (find _ l); [reflexivity|].
    rewrite List.filter_app. cbn [List.filter app].
    rewrite String.eqb_sym, E. reflexivity.
Qed.

Lemma getOwn_groups (e : OutfitEntry -> countEntry) (s : list OutfitEntry) k :
  JSObject.getOwn (map (fun o => (garmentKey o, e o)) s) k = e <$> find (hasKey k) s.
Proof.
  induction s as [|x s IH]; [reflexivity|]. cbn [map JSObject.getOwn find].
  destruct (String.eqb (garmentKey x) k); [reflexivity|exact IH].
Qed.

Lemma groups_unchanged l o (s : list OutfitEntry) :
  Forall (fun x => garmentKey x <> garmentKey o) s -> map (prop (l ++ [o])) s = map (prop l) s.
Proof.
  induction 1 as [|x s Hx _ IH]; [reflexivity|]. cbn [map]. rewrite IH. f_equal.
  unfold Spec.groupOf. rewrite occurrences_snoc.
  apply not_eq_sym, String.eqb_neq in Hx. rewrite Hx, Z.add_0_r. reflexivity.
Qed.

Lemma setOwn_groups l o o1 (s : list OutfitEntry) :
  NoDup (map garmentKey s) -> find (hasKey (garmentKey o)) s = Some o1 ->
  JSObject.setOwn (map (prop l) s) (garmentKey o) (Spec.groupOf (l ++ [o]) o1)
  = map (prop (l ++ [o])) s.
Proof.
  induction s as [|x s IH]; intros Hnd Hf; [discriminate|].
  cbn [map] in Hnd. apply NoDup_cons in Hnd as [Hx Hs].
  cbn [find] in Hf. cbn [map JSObject.setOwn].
  destruct (String.eqb (garmentKey x) (garmentKey o)) eqn:E.
  - injection Hf as <-. apply String.eqb_eq in E. f_equal.
    symmetry. apply groups_unchanged. apply Forall_forall. intros y Hy Ey.
    apply Hx. rewrite E, <- Ey. apply list_elem_of_fmap. eauto.
  - rewrite (IH Hs Hf). f_equal. f_equal. unfold Spec.groupOf.
    rewrite occurrences_snoc, String.eqb_sym, E, Z.add_0_r. reflexivity.
Qed.

(** The object built by the counting loop: one property per signature, in
    the order of first appearance, holding the first outfit of the
    signature and the number of outfits that have it. *)
Lemma countMapOf_groups l :
  Forall (fun o => JSObject.inherited (garmentKey o) = false) l ->
  countMapOf l = map (prop l) (Spec.firsts l).
Proof.
  induction l as [|o l IH] using rev_ind; intros H; [reflexivity|].
  apply Forall_app in H as [Hl Ho]. apply Forall_cons in Ho as [Ho _].
  unfold countMapOf in *. rewrite fold_left_app. cbn [fold_left]. rewrite (IH Hl).
  unfold countStep. rewrite Ho, orb_false_r, getOwn_groups, find_firsts, firsts_snoc.
  destruct (find (hasKey (garmentKey o)) l) as [o1|] eqn:F; cbn [fmap option_fmap option_map].
  - rewrite bool_decide_eq_true_2 by (eexists; reflexivity). cbn [negb].
    rewrite getOwn_groups, find_firsts, F. cbn [fmap option_fmap option_map].
    rewrite <- (setOwn_groups l o o1 _ (firsts_NoDup l) (eq_trans (find_firsts _ _) F)).
    f_equal. unfold Spec.groupOf. cbn [count outfit]. rewrite occurrences_snoc.
    assert (E : garmentKey o1 = garmentKey o).
    { apply find_some in F as [_ F]. apply String.eqb_eq in F. exact F. }
    rewrite E, String.eqb_refl. reflexivity.
  - rewrite bool_decide_eq_false_2 by (intros [? ?]; discriminate). cbn [negb].
    rewrite getOwn_setOwn_eq, setOwn_setOwn, setOwn_absent
      by (rewrite getOwn_groups, find_firsts, F; reflexivity).
    rewrite map_app. cbn [map]. f_equal.
    + symmetry. apply groups_unchanged. apply Forall_forall. intros y Hy Ey.
      apply firsts_subset, list_elem_of_In in Hy.
      apply (find_none _ _ F) in Hy. apply String.eqb_neq in Hy. contradiction.
    + unfold Spec.groupOf. cbn [count]. rewrite occurrences_snoc, String.eqb_refl.
      rewrite (occurrences_absent _ _ F). reflexivity.
Qed.

Lemma firsts_split l1 b l2 :
  Forall (fun x => garmentKey x <> garmentKey b) l1 ->
  exists s2, Spec.firsts (l1 ++ b :: l2) = Spec.firsts l1 ++ b :: s2 /\
             forall y, y ∈ s2 -> y ∈ l2.
Proof.
  induction 1 as [|x l1 Hx _ (s2 & E & S)].
  - eexists. split; [reflexivity|]. intros y Hy.
    apply list_elem_of_In, List.filter_In in Hy as [Hy _].
    apply firsts_subset, list_elem_of_In, Hy.
  - exists (List.filter (otherKey (garmentKey x)) s2). split.
    + cbn [app Spec.firsts]. rewrite E, List.filter_app. cbn [List.filter].
      apply not_eq_sym, String.eqb_neq in Hx. rewrite Hx. reflexivity.
    + intros y Hy. apply S.
      apply list_elem_of_In, List.filter_In in Hy as [Hy _]. apply list_elem_of_In, Hy.
Qed.

(** Looking for the first largest group among the representatives or
    among all the outfits gives the same outfit. *)
Lemma firstMaxBy_firsts (f : OutfitEntry -> Z) l :
  (forall x y, garmentKey x = garmentKey y -> f x = f y) ->
  Spec.firstMaxBy f (Spec.firsts l) = Spec.firstMaxBy f l.
Proof.
  intros Hf. destruct (Spec.firstMaxBy f l) as [b|] eqn:E.
  - destruct (firstMaxBy_split f l b E) as (l1 & l2 & -> & H1 & H2).
    destruct (firsts_split l1 b l2) as (s2 & -> & S).
    { apply Forall_forall. intros x Hx Ex. specialize (H1 x Hx).
      rewrite (Hf x b Ex) in H1. lia. }
    apply firstMaxBy_unique.
    + intros y Hy. apply H1, firsts_subset, Hy.
    + intros y Hy. apply H2, S, Hy.
  - destruct l as [|x l]; [reflexivity|].
    destruct (firstMaxBy_is_Some f (x :: l)) as [b Hb]; congruence.
Qed.

End Groups.

(** * The claim about representatives and ties (C5) *)

Section TieBreak.
Import Calendar.

(** C5, as stated, fails when a signature is an array index: of two
    outfits worn once each, the second one, whose signature is "1", is
    returned, because [Object.values] lists array-index keys first.  And
    with the signature "constructor" no group is created at all and the
    function throws a TypeError. *)
Lemma mostWorn_tie_counterexample :
  thisMonthOutfits Examples.utc Examples.newDate (Examples.march2025 Examples.utc) Examples.tieOutfits = Examples.tieOutfits /\
  Spec.occurrences "b" Examples.tieOutfits = 1 /\
  Spec.occurrences "1" Examples.tieOutfits = 1 /\
  getMostWornThisMonth Examples.utc Examples.newDate (Examples.march2025 Examples.utc) Examples.tieOutfits
  = Normal (Some ("second.png"%string, 1)) /\
  getMostWornThisMonth Examples.utc Examples.newDate (Examples.march2025 Examples.utc) Examples.constructorOutfits
  = Throw TypeError.
Proof. repeat split; vm_compute; reflexivity. Qed.

(** C5, amended.  Let [l] be the outfits of the month, and suppose that no
    signature is an array index or the name of a member of
    Object.prototype.  Then each signature has one group, whose
    representative is the first outfit of [l] with that signature and whose
    count is the number of outfits of [l] with it; and when [l] is not
    empty the group returned is that of an outfit [o] such that every
    outfit before [o] in [l] belongs to a strictly smaller group and every
    outfit after it to a group that is not larger: among the groups of
    maximal count, the one whose representative comes first in [l]. *)
Theorem mostWorn_first_largest_group zone parseDate currentMonth outfits :
  let l := thisMonthOutfits zone parseDate currentMonth outfits in
  Forall (fun o => Spec.plainKey (garmentKey o)) l ->
  (forall k, JSObject.getOwn (countMapOf l) k
             = Spec.groupOf l <$> find (fun o => String.eqb (garmentKey o) k) l) /\
  (l <> [] ->
   exists l1 o l2,
     l = l1 ++ o :: l2 /\
     (forall o', o' ∈ l1 ->
        Spec.occurrences (garmentKey o') l < Spec.occurrences (garmentKey o) l) /\
     (forall o', o' ∈ l2 ->
        Spec.occurrences (garmentKey o') l <= Spec.occurrences (garmentKey o) l) /\
     best (countMapOf l) = Some (Spec.groupOf l o) /\
     getMostWornThisMonth zone parseDate currentMonth outfits
     = Normal (Some (previewImage o, Spec.occurrences (garmentKey o) l))).
Proof.
  intros l Hp.
  assert (Hi : Forall (fun o => JSObject.inherited (garmentKey o) = false) l).
  { eapply Forall_impl; [exact Hp|]. intros o [_ H]. exact H. }
  pose proof (countMapOf_groups l Hi) as G. split.
  - intros k. rewrite G, getOwn_groups, find_firsts. reflexivity.
  - intros Hne.
    assert (B : best (countMapOf l)
                = Spec.groupOf l <$> Spec.firstMaxBy (fun o => Spec.occurrences (garmentKey o) l) l).
    { unfold best. rewrite G, values_named.
      - rewrite head_sort_descending, List.map_map. cbn [snd].
        rewrite firstMaxBy_map. cbn [Spec.groupOf count].
        rewrite firstMaxBy_firsts; [reflexivity|]. intros x y E. rewrite E. reflexivity.
      - apply Forall_forall. intros p Hin. apply list_elem_of_fmap in Hin as (o & -> & Ho).
        apply firsts_subset in Ho. cbn [fst].
        rewrite Forall_forall in Hp. apply (Hp o Ho). }
    destruct (firstMaxBy_is_Some (fun o => Spec.occurrences (garmentKey o) l) l Hne) as [o Ho].
    destruct (firstMaxBy_split _ l o Ho) as (l1 & l2 & El & H1 & H2).
    exists l1, o, l2. rewrite Ho in B. cbn in B.
    split; [exact El|]. split; [exact H1|]. split; [exact H2|]. split; [exact B|].
    unfold getMostWornThisMonth. fold l.
    destruct l as [|x l']; [congruence|]. cbn [length Nat.eqb]. rewrite B. reflexivity.
Qed.

Lemma mostWorn_first_largest_group_witness :
  Forall (fun o => Spec.plainKey (garmentKey o))
         (thisMonthOutfits Examples.utc Examples.newDate (Examples.march2025 Examples.utc) Examples.marchOutfits) /\
  thisMonthOutfits Examples.utc Examples.newDate (Examples.march2025 Examples.utc) Examples.marchOutfits <> [] /\
  exists l1 o l2,
    thisMonthOutfits Examples.utc Examples.newDate (Examples.march2025 Examples.utc) Examples.marchOutfits = l1 ++ o :: l2 /\
    getMostWornThisMonth Examples.utc Examples.newDate (Examples.march2025 Examples.utc) Examples.marchOutfits
    = Normal (Some (previewImage o,
                    Spec.occurrences (garmentKey o)
                      (thisMonthOutfits Examples.utc Examples.newDate (Examples.march2025 Examples.utc) Examples.marchOutfits))).
Proof.
  assert (E : thisMonthOutfits Examples.utc Examples.newDate (Examples.march2025 Examples.utc) Examples.marchOutfits
              = Examples.marchOutfits) by (vm_compute; reflexivity).
  assert (Hp : Forall (fun o => Spec.plainKey (garmentKey o))
                 (thisMonthOutfits Examples.utc Examples.newDate (Examples.march2025 Examples.utc) Examples.marchOutfits)).
  { rewrite E. unfold Examples.marchOutfits.
    repeat (apply Forall_cons; split; [split; vm_compute; reflexivity|]). constructor. }
  assert (Hne : thisMonthOutfits Examples.utc Examples.newDate (Examples.march2025 Examples.utc) Examples.marchOutfits <> [])
    by (rewrite E; discriminate).
  split; [exact Hp|]. split; [exact Hne|].
  destruct (mostWorn_first_largest_group Examples.utc Examples.newDate (Examples.march2025 Examples.utc)
              Examples.marchOutfits Hp) as [_ H].
  destruct (H Hne) as (l1 & o & l2 & El & _ & _ & _ & R).
  exists l1, o, l2. split; [exact El|exact R].
Defined.

End TieBreak.

(** * The claim about ambient state (C9) *)

Section AmbientState.
Import Calendar.

(** Without clock changes the walk depends on the clock through its UTC
    day only, and not on the offset of the zone. *)
Lemma streakLoop_same_day fuel : forall zone1 zone2 m s t1 t2,
  Spec.offsetsVaryBy 0 zone1 -> Spec.offsetsVaryBy 0 zone2 ->
  valid t1 -> valid t2 -> Day t1 = Day t2 ->
  streakLoop fuel zone1 m s (Some t1) = streakLoop fuel zone2 m s (Some t2).
Proof.
  induction fuel as [|fuel IH]; intros zone1 zone2 m s t1 t2 Z1 Z2 V1 V2 E; [reflexivity|].
  rewrite !streakLoop_step, (isoDate_Day t1 t2 E).
  destruct (hasOutfit m (isoDate t2)); [|reflexivity].
  rewrite (dayBefore_steady zone1 t1 Z1), (dayBefore_steady zone2 t2 Z2).
  pose proof (valid_back t1 1 V1 ltac:(lia)) as B1.
  pose proof (valid_back t2 1 V2 ltac:(lia)) as B2.
  rewrite Z.mul_1_l in B1, B2.
  destruct (valid_dec (t1 - msPerDay)) as [W1|W1].
  - assert (W2 : valid (t2 - msPerDay)) by (apply B2; apply B1 in W1; lia).
    rewrite (TimeClip_valid _ W1), (TimeClip_valid _ W2). apply IH; try assumption.
    pose proof (Day_back t1 1) as D1. pose proof (Day_back t2 1) as D2.
    rewrite Z.mul_1_l in D1, D2. lia.
  - assert (W2 : ~ valid (t2 - msPerDay)).
    { intros W2. apply W1. apply B1. apply B2 in W2. lia. }
    rewrite (TimeClip_invalid _ W1), (TimeClip_invalid _ W2). destruct fuel; reflexivity.
Qed.

(** C9, as stated, fails: the two helpers take no arguments and read
    their surroundings.  With the same outfits, [getStreak] answers 1 when
    the clock reads 1 March 2025 and 0 a day later, and
    [getMostWornThisMonth] answers an outfit or null according to the
    month the screen shows.  The time of day matters too: in New York on
    9 March 2025, the day of a clock change, the streak of the same index
    is 1 at 08:00 and 2 at 19:30. *)
Lemma analytics_read_ambient_state :
  monthAnalytics 3 Examples.utc Examples.marchFirstNoon Examples.newDate Examples.marchScreen
  = Some (Normal (Some ("mar01.png"%string, 2), 1)) /\
  monthAnalytics 3 Examples.utc Examples.marchSecondNoon Examples.newDate Examples.marchScreen
  = Some (Normal (Some ("mar01.png"%string, 2), 0)) /\
  outfits Examples.aprilScreen = outfits Examples.marchScreen /\
  monthAnalytics 3 Examples.utc Examples.marchFirstNoon Examples.newDate Examples.aprilScreen
  = Some (Normal (None, 1)) /\
  getDate Examples.newYork (now Examples.marchNinthMorning)
  = getDate Examples.newYork (now Examples.marchNinthEvening) /\
  toDateKey (now Examples.marchNinthMorning) = toDateKey (now Examples.marchNinthEvening) /\
  getStreak 3 Examples.newYork Examples.marchNinthMorning Examples.marchNinthIndex
  = Some (Normal 1) /\
  getStreak 3 Examples.newYork Examples.marchNinthEvening Examples.marchNinthIndex
  = Some (Normal 2).
Proof. repeat split; vm_compute; reflexivity. Qed.

Lemma getMostWornThisMonth_same_month zone parseDate shown1 shown2 l :
  getFullYear zone shown1 = getFullYear zone shown2 ->
  getMonth zone shown1 = getMonth zone shown2 ->
  getMostWornThisMonth zone parseDate shown1 l = getMostWornThisMonth zone parseDate shown2 l.
Proof.
  intros Hy Hm. unfold getMostWornThisMonth, thisMonthOutfits. rewrite Hy, Hm. reflexivity.
Qed.

(** C9, amended.  The analytics of the month view are a function of the
    outfits, of the local year and month of the month the screen shows, of
    the reading of the clock and of the time zone: two renders at the same
    instant in the same zone agree when the [outfits] states agree and the
    [currentMonth] states show the same month, whatever the other state of
    the screen (view mode, selected date, loading, menu).  In zones whose
    clocks never change the clock counts through its UTC day only, not
    through the time of day, and the streak does not depend on the
    offset of the zone. *)
Theorem analytics_depend_only_on fuel zone clock parseDate st1 st2 :
  outfits st1 = outfits st2 ->
  getFullYear zone (currentMonth st1) = getFullYear zone (currentMonth st2) ->
  getMonth zone (currentMonth st1) = getMonth zone (currentMonth st2) ->
  monthAnalytics fuel zone clock parseDate st1 = monthAnalytics fuel zone clock parseDate st2 /\
  (forall clock',
     Spec.offsetsVaryBy 0 zone ->
     valid clock -> valid clock' -> Day clock = Day clock' ->
     monthAnalytics fuel zone clock parseDate st1
     = monthAnalytics fuel zone clock' parseDate st2) /\
  (forall zone' clock' m,
     Spec.offsetsVaryBy 0 zone -> Spec.offsetsVaryBy 0 zone' ->
     valid clock -> valid clock' -> Day clock = Day clock' ->
     getStreak fuel zone clock m = getStreak fuel zone' clock' m).
Proof.
  intros Ho Hy Hm.
  assert (S : forall zone' clock' m,
     Spec.offsetsVaryBy 0 zone -> Spec.offsetsVaryBy 0 zone' ->
     valid clock -> valid clock' -> Day clock = Day clock' ->
     getStreak fuel zone clock m = getStreak fuel zone' clock' m).
  { intros zone' clock' m Z1 Z2 V1 V2 E. unfold getStreak, copy.
    rewrite !now_valid by assumption. apply streakLoop_same_day; assumption. }
  assert (M : forall c, monthAnalytics fuel zone c parseDate st1
                        = monthAnalytics fuel zone c parseDate st2).
  { intros c. unfold monthAnalytics. rewrite Ho.
    rewrite (getMostWornThisMonth_same_month zone parseDate _ _ (outfits st2) Hy Hm).
    reflexivity. }
  split; [apply M|]. split; [|exact S].
  intros clock' Z0 V1 V2 E. rewrite <- (M clock'). unfold monthAnalytics.
  destruct (outfitMap parseDate (outfits st1)) as [index|e]; [|reflexivity].
  destruct (getMostWornThisMonth _ _ _ _); [|reflexivity].
  rewrite (S zone clock' index Z0 Z0 V1 V2 E). reflexivity.
Qed.

Lemma analytics_depend_only_on_witness :
  outfits Examples.marchScreen = outfits Examples.marchDayScreen /\
  getFullYear Examples.utc (currentMonth Examples.marchScreen)
  = getFullYear Examples.utc (currentMonth Examples.marchDayScreen) /\
  getMonth Examples.utc (currentMonth Examples.marchScreen)
  = getMonth Examples.utc (currentMonth Examples.marchDayScreen) /\
  monthAnalytics 3 Examples.utc Examples.marchFirstNoon Examples.newDate
                 Examples.marchScreen
  = monthAnalytics 3 Examples.utc Examples.marchFirstNoon Examples.newDate
                   Examples.marchDayScreen.
Proof.
  assert (Ho : outfits Examples.marchScreen = outfits Examples.marchDayScreen)
    by reflexivity.
  assert (Hy : getFullYear Examples.utc (currentMonth Examples.marchScreen)
               = getFullYear Examples.utc (currentMonth Examples.marchDayScreen))
    by (vm_compute; reflexivity).
  assert (Hm : getMonth Examples.utc (currentMonth Examples.marchScreen)
               = getMonth Examples.utc (currentMonth Examples.marchDayScreen))
    by (vm_compute; reflexivity).
  split; [exact Ho|]. split; [exact Hy|]. split; [exact Hm|].
  exact (proj1 (analytics_depend_only_on 3 Examples.utc Examples.marchFirstNoon
                  Examples.newDate Examples.marchScreen Examples.marchDayScreen Ho Hy Hm)).
Defined.

End AmbientState.

(** * Further properties of the calendar screen *)

Section Weeks.
Import Calendar CalendarNav.

(** In a zone whose clocks never change all offsets are one offset. *)
Lemma steady_offset zone :
  Spec.offsetsVaryBy 0 zone ->
  forall t b t' b', LocalTZA zone t b = LocalTZA zone t' b'.
Proof. intros H t b t' b'. pose proof (H t b t' b'). pose proof (H t' b' t b). lia. Qed.

Lemma UTC_LocalTime_steady zone t k :
  Spec.offsetsVaryBy 0 zone -> UTC zone (LocalTime zone t + k) = t + k.
Proof.
  intros H. unfold UTC, LocalTime.
  rewrite (steady_offset zone H (t + LocalTZA zone t true + k) false t true). lia.
Qed.

(** Moving a Date by [k] days, for [k] up to 8 either way and a Date
    well inside the range: the result is valid, it is [k] local calendar
    days away, and at most two days off [k] times 24 hours. *)
Lemma setDate_days zone t k :
  Spec.offsetsWithin msPerDay zone -> Spec.keepsLocalDay zone ->
  Z.abs t + (Z.abs k + 2) * msPerDay <= maxTime ->
  exists e,
    setDate zone (Some t) (Some (DateFromTime (LocalTime zone t) + k)) = Some e /\
    e = UTC zone (LocalTime zone t + k * msPerDay) /\
    Day (LocalTime zone e) = Day (LocalTime zone t) + k /\
    Z.abs (e - (t + k * msPerDay)) <= 2 * msPerDay.
Proof.
  intros Hz Hk Ht. exists (UTC zone (LocalTime zone t + k * msPerDay)).
  assert (B : Z.abs (UTC zone (LocalTime zone t + k * msPerDay) - (t + k * msPerDay))
              <= 2 * msPerDay).
  { unfold UTC, LocalTime.
    pose proof (Hz t true). pose proof (Hz (t + LocalTZA zone t true + k * msPerDay) false).
    lia. }
  split; [|split; [reflexivity|split; [|exact B]]].
  - rewrite setDate_shift. apply TimeClip_valid. unfold valid, msPerDay in *. lia.
  - rewrite Hk. unfold Day, msPerDay. zdiv.
Qed.

Lemma WeekDay_of_day t d i :
  Day t = d + (i - (d + 4) mod 7) -> 0 <= i <= 6 -> WeekDay t = i.
Proof. unfold WeekDay. intros -> Hi. zdiv. Qed.

(** The week strip.  For a Date at least twenty days inside the range
    of Date, in a zone that keeps local days, [getWeekDays] gives seven valid
    Dates on seven successive local calendar days: the one at index [i]
    falls on weekday [i] (0 = Sunday), so the first is the last Sunday on
    or before [date], and the one at the index of the weekday of [date] is
    on the calendar day of [date].  When the clocks of the zone never
    change they are 24 hours apart, at the time of day of [date], which is
    itself one of them. *)
Theorem getWeekDays_week zone t :
  Spec.offsetsWithin msPerDay zone -> Spec.keepsLocalDay zone ->
  Z.abs t + 20 * msPerDay <= maxTime ->
  let w := WeekDay (LocalTime zone t) in
  0 <= w <= 6 /\
  exists days : list Z,
    getWeekDays zone (Some t) = map Some days /\
    length days = 7%nat /\
    (forall (i : nat) e, days !! i = Some e ->
       valid e /\
       Day (LocalTime zone e) = Day (LocalTime zone t) + (Z.of_nat i - w) /\
       getDay zone (Some e) = Some (Z.of_nat i)) /\
    (Spec.offsetsVaryBy 0 zone ->
     days = map (fun i => t + (i - w) * msPerDay) (seqZ 0 7) /\
     days !! Z.to_nat w = Some t).
Proof.
  intros Hz Hk Ht w.
  assert (Hw : 0 <= w <= 6).
  { subst w. unfold WeekDay. pose proof (Z.mod_pos_bound (Day (LocalTime zone t) + 4) 7). lia. }
  split; [exact Hw|].
  destruct (setDate_days zone t (- w) Hz Hk) as (s & Hs & Es & Ds & Bs);
    [unfold msPerDay in *; lia|].
  assert (Sunday : setDate zone (copy (Some t))
                     (num_minus (getDate zone (Some t)) (getDay zone (Some t))) = Some s).
  { unfold copy. cbn [getDate getDay num_minus fmap option_fmap option_map]. fold w.
    replace (DateFromTime (LocalTime zone t) - w)
      with (DateFromTime (LocalTime zone t) + - w) by lia. exact Hs. }
  assert (Hsv : Z.abs s + 10 * msPerDay <= maxTime) by (unfold msPerDay in *; lia).
  set (day i := UTC zone (LocalTime zone s + i * msPerDay)).
  assert (Each : forall i, 0 <= i <= 6 ->
            setDate zone (copy (Some s)) (num_plus (getDate zone (Some s)) i) = Some (day i) /\
            valid (day i) /\
            Day (LocalTime zone (day i)) = Day (LocalTime zone t) + (i - w) /\
            getDay zone (Some (day i)) = Some i).
  { intros i Hi.
    destruct (setDate_days zone s i Hz Hk) as (e & He & Ee & De & Be);
      [unfold msPerDay in *; lia|].
    unfold copy. cbn [getDate num_plus fmap option_fmap option_map].
    fold (day i) in Ee. subst e. split; [exact He|]. split; [|split].
    - unfold valid, msPerDay in *. lia.
    - lia.
    - cbn [getDay fmap option_fmap option_map]. f_equal.
      apply (WeekDay_of_day _ (Day (LocalTime zone t))); [|exact Hi].
      rewrite De, Ds. subst w. unfold WeekDay. lia. }
  exists (map day (seqZ 0 7)).
  split; [|split; [|split]].
  - unfold getWeekDays. cbv zeta. rewrite Sunday, List.map_map.
    apply map_ext_in. intros i Hi. apply list_elem_of_In, elem_of_seqZ in Hi.
    apply (Each i). lia.
  - rewrite List.length_map, length_seqZ. reflexivity.
  - intros i e Hl.
    change (map day (seqZ 0 7)) with (day <$> seqZ 0 7) in Hl.
    rewrite list_lookup_fmap in Hl.
    destruct (seqZ 0 7 !! i) as [z|] eqn:L; [|discriminate Hl].
    apply lookup_seqZ in L as [-> Hi]. injection Hl as <-.
    rewrite Z.add_0_l. destruct (Each (Z.of_nat i) ltac:(lia)) as (_ & V & D & G).
    auto.
  - intros H0.
    assert (E : forall i, day i = t + (i - w) * msPerDay).
    { intros i. unfold day. rewrite Es.
      replace (LocalTime zone t + - w * msPerDay) with (LocalTime zone t + (- w * msPerDay)) by lia.
      rewrite (UTC_LocalTime_steady zone t _ H0), (UTC_LocalTime_steady zone _ _ H0). lia. }
    assert (M : map day (seqZ 0 7) = map (fun i => t + (i - w) * msPerDay) (seqZ 0 7))
      by (apply map_ext; exact E).
    split; [exact M|]. rewrite M.
    change (map (fun i => t + (i - w) * msPerDay) (seqZ 0 7))
      with ((fun i => t + (i - w) * msPerDay) <$> seqZ 0 7).
    rewrite list_lookup_fmap.
    assert (L : seqZ 0 7 !! Z.to_nat w = Some w) by (rewrite lookup_seqZ; split; lia).
    rewrite L. cbn. f_equal. lia.
Qed.

End Weeks.

Section WeeksExamples.
Import Calendar CalendarNav.

(** Wednesday 12 March 2025, 02:30 in New York, three days after the
    clocks went forward. *)
Lemma getWeekDays_week_witness :
  Spec.offsetsWithin msPerDay Examples.newYork /\ Spec.keepsLocalDay Examples.newYork /\
  Z.abs 1741761000000 + 20 * msPerDay <= maxTime /\
  exists days : list Z,
    getWeekDays Examples.newYork (Some 1741761000000) = map Some days /\
    length days = 7%nat /\
    (forall (i : nat) e, days !! i = Some e -> getDay Examples.newYork (Some e) = Some (Z.of_nat i)).
Proof.
  assert (Ht : Z.abs 1741761000000 + 20 * msPerDay <= maxTime) by (vm_compute; discriminate).
  split; [exact newYork_within|]. split; [exact newYork_keepsLocalDay|]. split; [exact Ht|].
  destruct (getWeekDays_week Examples.newYork 1741761000000 newYork_within
              newYork_keepsLocalDay Ht) as (_ & days & G & L & E & _).
  exists days. split; [exact G|]. split; [exact L|].
  intros i e H. exact (proj2 (proj2 (E i e H))).
Defined.

End WeeksExamples.

Section SameDay.
Import Calendar CalendarNav.

(** On valid Dates [isSameDay] never throws and answers whether the two
    time values lie in the same UTC day, whatever the times of day: it is
    reflexive, symmetric and transitive. *)
Theorem isSameDay_valid t1 t2 :
  valid t1 -> valid t2 ->
  isSameDay (Some t1) (Some t2) = Normal (bool_decide (Day t1 = Day t2)).
Proof.
  intros V1 V2. unfold isSameDay. rewrite !toDateKey_valid. cbn [cbind]. f_equal.
  destruct (decide (Day t1 = Day t2)) as [E|N].
  - rewrite bool_decide_eq_true_2 by exact E.
    rewrite (isoDate_Day t1 t2 E). apply String.eqb_refl.
  - rewrite bool_decide_eq_false_2 by exact N.
    apply String.eqb_neq. intros E. apply N, isoDate_inj; assumption.
Qed.

(** [isSameDay] throws, and then a RangeError, exactly when one of the two
    Dates is invalid. *)
Theorem isSameDay_throws a b :
  (a = None \/ b = None) <-> isSameDay a b = Throw RangeError.
Proof.
  unfold isSameDay. destruct a as [t1|], b as [t2|];
    rewrite ?toDateKey_valid, ?toDateKey_invalid; cbn [cbind]; split; intros H;
    try reflexivity; try discriminate H; auto.
  destruct H as [H|H]; discriminate H.
Qed.

Lemma same_local_day zone t1 t2 :
  Day (LocalTime zone t1) = Day (LocalTime zone t2) ->
  Spec.sameCalendarDay zone (Some t1) (Some t2).
Proof.
  intros E. unfold Spec.sameCalendarDay.
  cbn [getFullYear getMonth getDate fmap option_fmap option_map].
  unfold DateFromTime, MonthFromTime, InLeapYear, DayWithinYear, YearFromTime.
  rewrite E. auto.
Qed.

(** The arrows of the day view.  In a zone that keeps local days, the
    left arrow moves the selected date to the local calendar day seven
    days earlier, which has the same weekday, and the right arrow then
    leads back to the calendar day one started from.  When the clocks of
    the zone never change the move is by exactly seven times 24 hours and
    going back and forth gives the very Date one started from. *)
Theorem week_arrows zone t :
  Spec.offsetsWithin msPerDay zone -> Spec.keepsLocalDay zone ->
  Z.abs t + 20 * msPerDay <= maxTime ->
  (exists p q,
     previousWeek zone (Some t) = Some p /\
     Day (LocalTime zone p) = Day (LocalTime zone t) - 7 /\
     getDay zone (Some p) = getDay zone (Some t) /\
     nextWeek zone (Some p) = Some q /\
     Spec.sameCalendarDay zone (Some q) (Some t)) /\
  (Spec.offsetsVaryBy 0 zone ->
   previousWeek zone (Some t) = Some (t - 7 * msPerDay) /\
   nextWeek zone (previousWeek zone (Some t)) = Some t).
Proof.
  intros Hz Hk Ht.
  destruct (setDate_days zone t (-7) Hz Hk) as (p & Hp & Ep & Dp & Bp);
    [unfold msPerDay in *; lia|].
  destruct (setDate_days zone p 7 Hz Hk) as (q & Hq & Eq & Dq & Bq);
    [unfold msPerDay in *; lia|].
  assert (P : previousWeek zone (Some t) = Some p).
  { unfold previousWeek, copy, num_sub. cbn [getDate fmap option_fmap option_map].
    replace (DateFromTime (LocalTime zone t) - 7)
      with (DateFromTime (LocalTime zone t) + -7) by lia. exact Hp. }
  assert (Q : nextWeek zone (Some p) = Some q).
  { unfold nextWeek, copy, num_plus. cbn [getDate fmap option_fmap option_map]. exact Hq. }
  split.
  - exists p, q. split; [exact P|]. split; [lia|]. split; [|split; [exact Q|]].
    + cbn [getDay fmap option_fmap option_map]. f_equal. unfold WeekDay. rewrite Dp. zdiv.
    + apply same_local_day. lia.
  - intros H0.
    assert (E1 : p = t - 7 * msPerDay).
    { rewrite Ep, (UTC_LocalTime_steady zone t _ H0). lia. }
    assert (E2 : q = t).
    { rewrite Eq, (UTC_LocalTime_steady zone p _ H0). lia. }
    rewrite P, Q, <- E1, E2. auto.
Qed.

End SameDay.

Section SameDayExamples.
Import Calendar CalendarNav.

Lemma isSameDay_valid_witness :
  valid 1749681000000 /\ valid 1749722400000 /\
  isSameDay Examples.halfPastMidnight Examples.noon
  = Normal (bool_decide (Day 1749681000000 = Day 1749722400000)).
Proof.
  assert (V1 : valid 1749681000000) by (unfold valid; vm_compute; discriminate).
  assert (V2 : valid 1749722400000) by (unfold valid; vm_compute; discriminate).
  split; [exact V1|]. split; [exact V2|].
  exact (isSameDay_valid 1749681000000 1749722400000 V1 V2).
Defined.

(** Wednesday 12 March 2025, 12:00 in New York: a week earlier the clocks
    had not yet gone forward, and the Date is 7 times 24 hours and one
    hour back. *)
Lemma week_arrows_witness :
  Spec.offsetsWithin msPerDay Examples.newYork /\ Spec.keepsLocalDay Examples.newYork /\
  Z.abs 1741795200000 + 20 * msPerDay <= maxTime /\
  previousWeek Examples.newYork (Some 1741795200000)
  = Some (1741795200000 - 7 * msPerDay + 3600000) /\
  exists p q,
    previousWeek Examples.newYork (Some 1741795200000) = Some p /\
    nextWeek Examples.newYork (Some p) = Some q /\
    Spec.sameCalendarDay Examples.newYork (Some q) (Some 1741795200000).
Proof.
  assert (Ht : Z.abs 1741795200000 + 20 * msPerDay <= maxTime) by (vm_compute; discriminate).
  split; [exact newYork_within|]. split; [exact newYork_keepsLocalDay|]. split; [exact Ht|].
  split; [vm_compute; reflexivity|].
  destruct (week_arrows Examples.newYork 1741795200000 newYork_within
              newYork_keepsLocalDay Ht) as ((p & q & P & _ & _ & Q & S) & _).
  exists p, q. auto.
Defined.

End SameDayExamples.

Section Months.
Import Calendar CalendarNav.

Lemma MakeFullYear_id y : 100 <= y -> MakeFullYear y = y.
Proof.
  intros H. unfold MakeFullYear.
  destruct (Z.leb_spec 0 y), (Z.leb_spec y 99); cbn [andb]; lia.
Qed.

(** The first of a month given by any month index: the Date it names. *)
Lemma construct_first zone y month :
  Spec.offsetsWithin msPerDay zone -> Spec.keepsLocalDay zone ->
  100 <= y -> -271820 <= y + month / 12 <= 275759 ->
  exists t, construct zone y month 1 = Some t /\
            getFullYear zone (Some t) = Some (y + month / 12) /\
            getMonth zone (Some t) = Some (month mod 12) /\
            getDate zone (Some t) = Some 1.
Proof.
  intros Hz Hk Hy Hr.
  assert (Hm : 0 <= month mod 12 <= 11) by (pose proof (Z.mod_pos_bound month 12); lia).
  pose proof (monthLength_range (y + month / 12) (month mod 12)) as Hn.
  rewrite <- daysInMonth_monthLength in Hn by exact Hm.
  destruct (construct_day zone _ _ 1 Hz Hk Hr Hm ltac:(lia)) as (t & C & _ & FY & FM & FD).
  exists t. rewrite construct_normal, (MakeFullYear_id y Hy). auto.
Qed.

(** Month navigation.  From a Date of month [M] of year [Y] (at least the
    year 100, and inside the range of Date) [nextMonth] gives the first of
    the following month, January of [Y + 1] after December, and
    [prevMonth] the first of the preceding one, December of [Y - 1] before
    January; going forth and back, or back and forth, gives the first of
    the month one started from. *)
Theorem month_navigation zone t :
  valid t -> Spec.offsetsWithin msPerDay zone -> Spec.keepsLocalDay zone ->
  let Y := YearFromTime (LocalTime zone t) in
  let M := MonthFromTime (LocalTime zone t) in
  101 <= Y <= 275758 ->
  (getFullYear zone (nextMonth zone (Some t)) = Some (if M =? 11 then Y + 1 else Y) /\
   getMonth zone (nextMonth zone (Some t)) = Some (if M =? 11 then 0 else M + 1) /\
   getDate zone (nextMonth zone (Some t)) = Some 1) /\
  (getFullYear zone (prevMonth zone (Some t)) = Some (if M =? 0 then Y - 1 else Y) /\
   getMonth zone (prevMonth zone (Some t)) = Some (if M =? 0 then 11 else M - 1) /\
   getDate zone (prevMonth zone (Some t)) = Some 1) /\
  prevMonth zone (nextMonth zone (Some t)) = construct zone Y M 1 /\
  nextMonth zone (prevMonth zone (Some t)) = construct zone Y M 1.
Proof.
  intros V Hz Hk Y M HY.
  assert (HM : 0 <= M <= 11) by apply MonthFromTime_range.
  assert (N : nextMonth zone (Some t) = construct zone Y (M + 1) 1) by reflexivity.
  assert (P : prevMonth zone (Some t) = construct zone Y (M - 1) 1) by reflexivity.
  assert (Dn : (M + 1) / 12 = (if M =? 11 then 1 else 0) /\
               (M + 1) mod 12 = (if M =? 11 then 0 else M + 1))
    by (destruct (Z.eqb_spec M 11); zdiv).
  assert (Dp : (M - 1) / 12 = (if M =? 0 then -1 else 0) /\
               (M - 1) mod 12 = (if M =? 0 then 11 else M - 1))
    by (destruct (Z.eqb_spec M 0); zdiv).
  destruct Dn as [Dn1 Dn2], Dp as [Dp1 Dp2].
  destruct (construct_first zone Y (M + 1) Hz Hk ltac:(lia)) as (tn & Cn & FYn & FMn & FDn).
  { rewrite Dn1. destruct (M =? 11); lia. }
  destruct (construct_first zone Y (M - 1) Hz Hk ltac:(lia)) as (tp & Cp & FYp & FMp & FDp).
  { rewrite Dp1. destruct (M =? 0); lia. }
  rewrite Dn1, Dn2 in *. rewrite Dp1, Dp2 in *.
  assert (Same : forall y' m', 100 <= y' -> y' + m' / 12 = Y -> m' mod 12 = M ->
                               construct zone y' m' 1 = construct zone Y M 1).
  { intros y' m' Hy' E1 E2. rewrite (construct_normal zone y' m'), (construct_normal zone Y M).
    rewrite !MakeFullYear_id by lia. rewrite E1, E2.
    rewrite (Z.div_small M), (Z.mod_small M), Z.add_0_r by lia. reflexivity. }
  split; [|split; [|split]].
  - rewrite N, Cn, FYn, FMn, FDn.
    destruct (M =? 11); repeat split; f_equal; lia.
  - rewrite P, Cp, FYp, FMp, FDp.
    destruct (M =? 0); repeat split; f_equal; lia.
  - rewrite N, Cn. unfold prevMonth. rewrite FYn, FMn. cbn [num_sub fmap option_fmap option_map constructN].
    apply Same; destruct (Z.eqb_spec M 11); try lia; zdiv.
  - rewrite P, Cp. unfold nextMonth. rewrite FYp, FMp. cbn [num_plus fmap option_fmap option_map constructN].
    apply Same; destruct (Z.eqb_spec M 0); try lia; zdiv.
Qed.

End Months.

Section MonthsExamples.
Import Calendar CalendarNav.

(** 2 November 2025, 19:30 in New York, the day of a clock change. *)
Lemma month_navigation_witness :
  valid Examples.novemberClock /\
  Spec.offsetsWithin msPerDay Examples.newYork /\ Spec.keepsLocalDay Examples.newYork /\
  101 <= YearFromTime (LocalTime Examples.newYork Examples.novemberClock) <= 275758 /\
  prevMonth Examples.newYork (nextMonth Examples.newYork (Some Examples.novemberClock))
  = construct Examples.newYork
      (YearFromTime (LocalTime Examples.newYork Examples.novemberClock))
      (MonthFromTime (LocalTime Examples.newYork Examples.novemberClock)) 1.
Proof.
  assert (V : valid Examples.novemberClock) by (unfold valid; vm_compute; discriminate).
  assert (HY : 101 <= YearFromTime (LocalTime Examples.newYork Examples.novemberClock)
               <= 275758)
    by (vm_compute; split; discriminate).
  split; [exact V|]. split; [exact newYork_within|].
  split; [exact newYork_keepsLocalDay|]. split; [exact HY|].
  exact (proj1 (proj2 (proj2 (month_navigation Examples.newYork Examples.novemberClock V
                                newYork_within newYork_keepsLocalDay HY)))).
Defined.

End MonthsExamples.

(** * Date keys read back as dates *)

Section KeyRoundTrip.
Import JSString Calendar.

Lemma readDigits_padDigits w : forall acc n rest,
  readDigits w acc (String.append (padDigits w n) rest)
  = Some (acc * 10 ^ Z.of_nat w + n mod 10 ^ Z.of_nat w, rest).
Proof.
  induction w as [|w IH]; intros acc n rest.
  - cbn [padDigits readDigits]. rewrite append_nil. rewrite Z.mod_1_r.
    change (10 ^ Z.of_nat 0) with 1. do 2 f_equal. lia.
  - cbn [padDigits]. rewrite append_cons. cbn [readDigits].
    assert (Hd : 0 <= (n / 10 ^ Z.of_nat w) mod 10 <= 9)
      by (pose proof (Z.mod_pos_bound (n / 10 ^ Z.of_nat w) 10); lia).
    rewrite (digitVal_digitChar _ Hd), IH. do 2 f_equal.
    rewrite Nat2Z.inj_succ, Z.pow_succ_r by lia.
    assert (0 < 10 ^ Z.of_nat w) by (apply Z.pow_pos_nonneg; lia).
    rewrite (Z.mul_comm 10 (10 ^ Z.of_nat w)), Z.rem_mul_r by lia. lia.
Qed.

Lemma readDigits_padDigits_small w n rest :
  0 <= n < 10 ^ Z.of_nat w ->
  readDigits w 0 (String.append (padDigits w n) rest) = Some (n, rest).
Proof.
  intros H. rewrite readDigits_padDigits, Z.mod_small by exact H. reflexivity.
Qed.

Lemma parseYear_isoYear y rest :
  -999999 <= y <= 999999 ->
  parseYear (String.append (isoYear y) rest) = Some (y, rest).
Proof.
  intros Hy. unfold isoYear.
  destruct (Z.leb_spec 0 y), (Z.leb_spec y 9999); cbn [andb].
  - pose proof (readDigits_padDigits_small 4 y rest) as R.
    change (10 ^ Z.of_nat 4) with 10000 in R. specialize (R ltac:(lia)).
    revert R. rewrite padDigits_head, append_cons. unfold parseYear.
    rewrite !digitChar_eqb by reflexivity. auto.
  - rewrite append_cons. unfold parseYear.
    destruct (Z.ltb_spec y 0); [lia|]. cbn [Ascii.eqb Bool.eqb].
    rewrite readDigits_padDigits_small; [f_equal; f_equal; lia|].
    change (10 ^ Z.of_nat 6) with 1000000. lia.
  - rewrite append_cons. unfold parseYear.
    destruct (Z.ltb_spec y 0); [|lia]. cbn [Ascii.eqb Bool.eqb].
    rewrite readDigits_padDigits_small by (change (10 ^ Z.of_nat 6) with 1000000; lia).
    destruct (Z.eqb_spec (Z.abs y) 0); [lia|]. f_equal. f_equal. lia.
  - lia.
Qed.

Lemma DateFromTime_daysInMonth t :
  1 <= DateFromTime t <= daysInMonth (YearFromTime t) (MonthFromTime t + 1).
Proof.
  unfold DateFromTime, MonthFromTime, daysInMonth.
  pose proof (DaysInYear_cases (YearFromTime t)) as [_ Hl].
  pose proof (DayWithinYear_range t) as Hd. fold (InLeapYear t) in Hl |- *.
  pose proof (monthOfDay_range _ _ Hl Hd) as [Hm Hs].
  replace (monthOfDay (DayWithinYear t) (InLeapYear t) + 1 - 1)
    with (monthOfDay (DayWithinYear t) (InLeapYear t)) by lia.
  lia.
Qed.

(** Parsing the date form of the calendar fields of a day gives the UTC
    midnight of that day. *)
Lemma parseFormat_isoFields y m d :
  -999999 <= y <= 999999 -> 0 <= m <= 11 -> 1 <= d <= daysInMonth y (m + 1) ->
  parseFormat (isoFields y m d) = Some (MakeDate (MakeDay y m d) 0).
Proof.
  intros Hy Hm Hd.
  assert (Hd31 : d <= 31).
  { rewrite daysInMonth_monthLength in Hd by exact Hm.
    pose proof (monthLength_range y m). lia. }
  unfold parseFormat, isoFields. rewrite parseYear_isoYear by exact Hy.
  cbn [mbind option_bind expect]. rewrite Ascii.eqb_refl. cbn [mbind option_bind].
  rewrite readDigits_padDigits_small by (change (10 ^ Z.of_nat 2) with 100; lia).
  cbn [mbind option_bind expect]. rewrite Ascii.eqb_refl. cbn [mbind option_bind].
  replace (padDigits 2 d) with (String.append (padDigits 2 d) EmptyString)
    by (cbn [padDigits]; rewrite !append_cons, append_nil; reflexivity).
  rewrite readDigits_padDigits_small by (change (10 ^ Z.of_nat 2) with 100; lia).
  cbn [mbind option_bind].
  replace (m + 1 - 1) with m by lia.
  destruct (Z.leb_spec 1 (m + 1)), (Z.leb_spec (m + 1) 12), (Z.leb_spec 1 d),
    (Z.leb_spec d (daysInMonth y (m + 1))); try lia.
  reflexivity.
Qed.

(** The key of a valid Date, read back by [new Date(key)], is the UTC
    midnight of the same day, and that Date has the same key again: a key
    handed to another screen and parsed there names the same day,
    whatever the engine does with strings outside the date-time format. *)
Theorem toDateKey_parse_roundtrip legacy t :
  valid t ->
  exists key,
    toDateKey (Some t) = Normal key /\
    parse legacy key = Some (Day t * msPerDay) /\
    toDateKey (parse legacy key) = Normal key.
Proof.
  intros V. exists (isoDate t).
  assert (P : parse legacy (isoDate t) = Some (Day t * msPerDay)).
  { unfold parse, isoDate. pose proof (YearFromTime_range t V) as Hy.
    rewrite parseFormat_isoFields;
      [|lia|apply MonthFromTime_range|apply DateFromTime_daysInMonth].
    rewrite MakeDay_fields. unfold MakeDate. rewrite Z.add_0_r.
    apply TimeClip_valid. pose proof (Day_range t V) as Hd.
    unfold valid, maxTime in *. unfold Day, msPerDay in *. zdiv. }
  split; [apply toDateKey_valid|]. split; [exact P|].
  rewrite P, toDateKey_valid. f_equal. apply isoDate_Day, Day_of_midnight.
Qed.

Lemma toDateKey_parse_roundtrip_witness :
  valid Examples.juneClock /\
  exists key,
    toDateKey (Some Examples.juneClock) = Normal key /\
    Examples.newDate key = Some (Day Examples.juneClock * msPerDay) /\
    toDateKey (Examples.newDate key) = Normal key.
Proof.
  assert (V : valid Examples.juneClock) by (unfold valid; vm_compute; discriminate).
  split; [exact V|]. exact (toDateKey_parse_roundtrip (fun _ => None) Examples.juneClock V).
Defined.

End KeyRoundTrip.

(** * The index and the deletion of an outfit *)

Section IndexContents.
Import Calendar CalendarNav.

Variable parseDate : string -> Date.

Implicit Types (m : gmap string OutfitEntry) (o : OutfitEntry) (l : list OutfitEntry).

Local Abbreviation keyOf o := (toDateKey (parseDate (date o))).

Lemma outfitMap_lookup l m k :
  outfitMap parseDate l = Normal m ->
  m !! k = last (List.filter (fun o => bool_decide (keyOf o = Normal k)) l).
Proof.
  intros H. rewrite (forEach_index parseDate l ∅ m k H), lookup_empty.
  destruct (last _); reflexivity.
Qed.

Lemma outfitMap_lookup_Some l m k o :
  outfitMap parseDate l = Normal m -> m !! k = Some o -> o ∈ l /\ keyOf o = Normal k.
Proof.
  intros H L. rewrite (outfitMap_lookup l m k H) in L.
  apply last_Some in L as [l' E].
  assert (I : In o (List.filter (fun o => bool_decide (keyOf o = Normal k)) l)).
  { rewrite E. apply in_or_app. right. left. reflexivity. }
  apply List.filter_In in I as [I B]. apply bool_decide_eq_true in B.
  split; [apply list_elem_of_In, I|exact B].
Qed.

Lemma outfitMap_returns_all l m :
  outfitMap parseDate l = Normal m -> Forall (fun o => parseDate (date o) <> None) l.
Proof.
  intros H. apply Forall_forall. intros o Ho N.
  assert (T : outfitMap parseDate l = Throw RangeError).
  { apply forEach_index_throws. apply Exists_exists. eauto. }
  congruence.
Qed.

(** What the index holds.  When it is built, a key has an entry exactly
    when the date of some outfit maps to it; the entry is an outfit of the
    input whose date maps to that key; and there are at most as many
    entries as outfits. *)
Theorem outfitMap_contents l m :
  outfitMap parseDate l = Normal m ->
  (forall k, is_Some (m !! k) <-> exists o, o ∈ l /\ keyOf o = Normal k) /\
  (forall k o, m !! k = Some o -> o ∈ l /\ keyOf o = Normal k) /\
  (size m <= length l)%nat.
Proof.
  intros H. split; [|split].
  - intros k. split.
    + intros [o Ho]. exists o. apply (outfitMap_lookup_Some l m k o H Ho).
    + intros (o & Ho & Hk). rewrite (outfitMap_lookup l m k H).
      destruct (last _) eqn:L; [eauto|]. apply last_None in L.
      assert (I : In o (List.filter (fun o => bool_decide (keyOf o = Normal k)) l)).
      { apply List.filter_In. split; [apply list_elem_of_In, Ho|].
        apply bool_decide_eq_true, Hk. }
      rewrite L in I. destruct I.
  - intros k o. apply outfitMap_lookup_Some, H.
  - rewrite <- length_map_to_list, <- (length_fmap snd).
    apply submseteq_length, NoDup_submseteq.
    + apply NoDup_fmap_2_strong; [|apply NoDup_map_to_list].
      intros [k1 o1] [k2 o2] H1 H2 E. cbn in E. subst o2.
      apply elem_of_map_to_list in H1, H2.
      apply (outfitMap_lookup_Some l m _ _ H) in H1 as [_ K1].
      apply (outfitMap_lookup_Some l m _ _ H) in H2 as [_ K2].
      rewrite K1 in K2. injection K2 as ->. reflexivity.
    + intros o Ho. apply list_elem_of_fmap in Ho as ([k o'] & -> & Hin).
      apply elem_of_map_to_list in Hin.
      apply (outfitMap_lookup_Some l m k o' H Hin).
Qed.

Lemma filter_filter_same {A} (p q : A -> bool) (l : list A) :
  (forall x, In x l -> p x = true -> q x = true) ->
  List.filter p (List.filter q l) = List.filter p l.
Proof.
  induction l as [|x l IH]; intros H; [reflexivity|]. cbn [List.filter].
  destruct (p x) eqn:P.
  - rewrite (H x (or_introl eq_refl) P). cbn [List.filter]. rewrite P, IH; [reflexivity|].
    intros y Hy. apply H. right. exact Hy.
  - destruct (q x); cbn [List.filter]; rewrite ?P; apply IH;
      intros y Hy; apply H; right; exact Hy.
Qed.

(** Deleting the only outfit of its day.  [deleteOutfit] does not look at
    the status of the response: whenever the request is answered at all,
    by a success or by a refusal such as 404 or 500, the outfit is
    filtered out of the local state and the menu is closed.  When the
    outfit [o] is the only one with its identifier and the only one whose
    date maps to the key [k], the [outfits] state that is left has as its
    index the former index without the entry for [k]: that day becomes
    empty and every other day keeps its outfit. *)
Theorem deleteOutfit_index st m o k status :
  outfitMap parseDate (outfits st) = Normal m ->
  o ∈ outfits st -> keyOf o = Normal k ->
  (forall o', o' ∈ outfits st -> o' <> o -> _id o' <> _id o /\ keyOf o' <> Normal k) ->
  outfitMap parseDate (outfits (deleteOutfit (fulfilled status) (_id o) st))
  = Normal (delete k m) /\
  menuVisible (deleteOutfit (fulfilled status) (_id o) st) = false.
Proof.
  intros H Ho Hk Huniq. split; [|reflexivity].
  cbn [deleteOutfit outfits].
  set (l := outfits st) in *.
  set (l' := List.filter (fun o' => negb (String.eqb (_id o') (_id o))) l).
  destruct (forEach_index_returns parseDate l' ∅) as [m' Hm'].
  { pose proof (outfitMap_returns_all l m H) as A. rewrite Forall_forall in A.
    apply Forall_forall. intros x Hx. apply A.
    apply list_elem_of_In, List.filter_In in Hx as [Hx _]. apply list_elem_of_In, Hx. }
  change (outfitMap parseDate l' = Normal m') in Hm'. rewrite Hm'. f_equal.
  apply map_eq. intros k'.
  rewrite (outfitMap_lookup l' m' k' Hm').
  destruct (decide (k' = k)) as [->|N].
  - rewrite lookup_delete_eq.
    assert (E : List.filter (fun o0 => bool_decide (keyOf o0 = Normal k)) l' = []).
    { destruct (List.filter _ l') as [|x r] eqn:F; [reflexivity|]. exfalso.
      assert (I : In x (List.filter (fun o0 => bool_decide (keyOf o0 = Normal k)) l'))
        by (rewrite F; left; reflexivity).
      apply List.filter_In in I as [I B]. apply bool_decide_eq_true in B.
      apply List.filter_In in I as [I D]. apply negb_true_iff, String.eqb_neq in D.
      assert (Nx : x <> o) by congruence.
      destruct (Huniq x (proj2 (list_elem_of_In _ _) I) Nx) as [_ K]. contradiction. }
    rewrite E. reflexivity.
  - rewrite lookup_delete_ne by congruence. rewrite (outfitMap_lookup l m k' H).
    unfold l'. rewrite filter_filter_same; [reflexivity|].
    intros x Hx B. apply bool_decide_eq_true in B. apply negb_true_iff, String.eqb_neq.
    assert (Nx : x <> o) by (intros ->; congruence).
    apply (Huniq x (proj2 (list_elem_of_In _ _) Hx) Nx).
Qed.

End IndexContents.

Section IndexExamples.
Import Calendar CalendarNav.

Lemma outfitMap_contents_witness :
  exists m,
    outfitMap Examples.newDate Examples.sameDayOutfits = Normal m /\
    (size m <= length Examples.sameDayOutfits)%nat.
Proof.
  destruct (forEach_index_returns Examples.newDate Examples.sameDayOutfits ∅) as [m H].
  { unfold Examples.sameDayOutfits.
    repeat (apply Forall_cons; split; [vm_compute; discriminate|]). constructor. }
  exists m. split; [exact H|].
  exact (proj2 (proj2 (outfitMap_contents Examples.newDate Examples.sameDayOutfits m H))).
Defined.

Lemma deleteOutfit_index_witness :
  exists m,
    outfitMap Examples.newDate (outfits Examples.septemberScreen) = Normal m /\
    outfitMap Examples.newDate
      (outfits (deleteOutfit (fulfilled 404) "other.png" Examples.septemberScreen))
    = Normal (delete "2025-09-14"%string m).
Proof.
  destruct (forEach_index_returns Examples.newDate Examples.sameDayOutfits ∅) as [m H].
  { unfold Examples.sameDayOutfits.
    repeat (apply Forall_cons; split; [vm_compute; discriminate|]). constructor. }
  exists m. split; [exact H|].
  refine (proj1 (deleteOutfit_index Examples.newDate Examples.septemberScreen m
                   (Examples.outfitOn "2025-09-14" ["b"%string] "other.png")
                   "2025-09-14"%string 404 H _ _ _)).
  - cbn [outfits Examples.septemberScreen]. unfold Examples.sameDayOutfits.
    apply elem_of_cons. right. apply elem_of_cons. left. reflexivity.
  - vm_compute. reflexivity.
  - intros o' Hin Hne. cbn [outfits Examples.septemberScreen] in Hin.
    unfold Examples.sameDayOutfits in Hin.
    repeat (apply elem_of_cons in Hin as [->|Hin]);
      [| contradiction | | apply elem_of_nil in Hin; contradiction];
      split; vm_compute; discriminate.
Defined.

End IndexExamples.

(** * The most-worn outfit has a largest group *)

Section MostWornMaximal.
Import Calendar.

Implicit Types (o : OutfitEntry) (l : list OutfitEntry).





End MostWornMaximal.

Section MostWornMaximalExamples.
Import Calendar.


End MostWornMaximalExamples.

(** * The favourite colours of the analytics screen *)

Section TopColours.
Import Analytics.

(** A comparison function that induces a total preorder sorts. *)
Lemma insert_sorted_Sorted_total {A} (cmp : A -> A -> Z) x l :
  (forall a b, cmp a b <= 0 \/ cmp b a <= 0) ->
  Sorted (fun a b => cmp a b <= 0) l ->
  Sorted (fun a b => cmp a b <= 0) (JSArray.insert_sorted cmp x l).
Proof.
  intros Htot. induction 1 as [|y l Hs IH Hd]; cbn [JSArray.insert_sorted].
  - repeat constructor.
  - destruct (Z.leb_spec (cmp x y) 0) as [L|G].
    + constructor; [constructor; assumption|]. constructor. exact L.
    + assert (Hyx : cmp y x <= 0) by (destruct (Htot x y); lia).
      constructor; [exact IH|].
      destruct l as [|z l]; cbn [JSArray.insert_sorted].
      * constructor. exact Hyx.
      * destruct (cmp x z <=? 0); constructor; [exact Hyx|].
        inversion Hd; assumption.
Qed.

Lemma Sorted_weaken {A} (R1 R2 : A -> A -> Prop) l :
  (forall a b, R1 a b -> R2 a b) -> Sorted R1 l -> Sorted R2 l.
Proof.
  intros H. induction 1 as [|x l Hs IH Hd]; constructor; [exact IH|].
  destruct Hd; constructor. apply H. assumption.
Qed.

Lemma sort_descending_Sorted {A} (f : A -> Z) l :
  StronglySorted (fun a b => f b <= f a) (JSArray.sort (fun a b => f b - f a) l).
Proof.
  apply Sorted_StronglySorted; [intros a b c; lia|].
  induction l as [|x l IH]; cbn [JSArray.sort]; [constructor|].
  assert (S : Sorted (fun a b => f b - f a <= 0)
                (JSArray.insert_sorted (fun a b => f b - f a) x
                   (JSArray.sort (fun a b => f b - f a) l))).
  { apply insert_sorted_Sorted_total; [intros a b; lia|].
    eapply Sorted_weaken; [|exact IH]. intros a b. cbn beta. lia. }
  eapply Sorted_weaken; [|exact S]. intros a b. cbn beta. lia.
Qed.

(** The two favourite colours.  [topColours] holds the first two elements
    of the colours in descending order of count (both, or the only one, or
    none when there are fewer): its first element is the first colour of
    the input with the largest count, and no colour left out has a larger
    count than one that is kept. *)
Theorem topColours_largest colours :
  length (topColours colours) = Nat.min 2 (length colours) /\
  head (topColours colours) = Spec.firstMaxBy count colours /\
  StronglySorted (fun a b => count b <= count a) (topColours colours) /\
  exists rest,
    colours ≡ₚ topColours colours ++ rest /\
    forall t c, t ∈ topColours colours -> c ∈ rest -> count c <= count t.
Proof.
  unfold topColours. set (sorted := JSArray.sort (fun a b => count b - count a) colours).
  pose proof (sort_descending_Sorted count colours) as S. fold sorted in S.
  pose proof (sort_Permutation (fun a b => count b - count a) colours) as P. fold sorted in P.
  rewrite <- (take_drop 2 sorted) in S.
  split; [|split; [|split]].
  - change (firstn 2 sorted) with (take 2 sorted). rewrite length_take.
    unfold sorted. rewrite sort_length. reflexivity.
  - rewrite <- (head_sort_descending count colours). fold sorted.
    destruct sorted as [|a [|b r]]; reflexivity.
  - apply StronglySorted_app_1_l in S. exact S.
  - exists (drop 2 sorted). split.
    + change (firstn 2 sorted) with (take 2 sorted). rewrite take_drop. symmetry. exact P.
    + intros t c Ht Hc. apply (StronglySorted_app_1_elem_of _ _ _ _ _ S Ht Hc).
Qed.

End TopColours.
